(** * SMR_data_loading: the ROCKPROPS loader for surface-NMR water content

    A shallow embedding of [populate_rockprops_SMR_loader.py] and of the
    constants of [Config/SMR_config.py], with the properties of the row
    emitters (collection, intervals, samples, scalar properties), of the
    script around them (template, output file) and of
    [create_SMR_intervals.py], which writes the CSV the loader reads.

    - Python [float] is IEEE-754 binary64, taken from the Standard Library's
      [SpecFloat] (pure definitions, evaluated by computation).
    - Python [int] is [Z].
    - A worksheet is the list of the rows appended to it; a row is a list of
      cells.
    - The workbook is one mutable object handed down the call chain: it is the
      state of a state-and-exception monad, and it keeps the rows appended
      before an exception was raised. *)

From Stdlib Require Import ZArith List String Ascii Bool Lia.
From Stdlib Require Import Floats.SpecFloat.
From Stdlib Require Import Decimal DecimalString DecimalZ.
Import ListNotations.

#[local] Open Scope string_scope.
#[local] Open Scope list_scope.
#[local] Open Scope Z_scope.

(** ** Python floats *)

Module PyFloat.

Definition float := spec_float.

Definition prec : Z := 53.
Definition emax : Z := 1024.

Definition fmul (x y : float) : float := SFmul prec emax x y.
Definition fdiv (x y : float) : float := SFdiv prec emax x y.

(** [float(n)] for a Python int, rounded to nearest even. *)
Definition of_Z (n : Z) : float := binary_normalize prec emax n 0 false.

(** The double nearest to the decimal literal [n / 10^k], as the parser
    of [float] literals and of CSV cells produces it. *)
Definition of_dec (n : Z) (k : nat) : float :=
  fdiv (of_Z n) (of_Z (10 ^ Z.of_nat k)).

Definition isnan (x : float) : bool :=
  match x with S754_nan => true | _ => false end.

Definition is_finite (x : float) : bool :=
  match x with
  | S754_zero _ | S754_finite _ _ _ => true
  | _ => false
  end.

(** The signed integer mantissa: a finite [x] is [mant x * 2^(expo x)]. *)
Definition mant (x : float) : Z :=
  match x with
  | S754_finite s m _ => if s then Zneg m else Zpos m
  | _ => 0
  end.

Definition expo (x : float) : Z :=
  match x with
  | S754_finite _ _ e => e
  | _ => 0
  end.

(** The exact mathematical ceiling, truncation and nearest-even integer of
    the rational [m * 2^e]. *)
Definition ceil_m2e (m e : Z) : Z :=
  if 0 <=? e then m * 2 ^ e else - ((- m) / 2 ^ (- e)).

Definition trunc_m2e (m e : Z) : Z :=
  if 0 <=? e then m * 2 ^ e else Z.quot m (2 ^ (- e)).

Definition rint_m2e (m e : Z) : Z :=
  if 0 <=? e then m * 2 ^ e
  else
    let d := 2 ^ (- e) in
    let q := m / d in
    let r := m mod d in
    match 2 * r ?= d with
    | Lt => q
    | Gt => q + 1
    | Eq => if Z.even q then q else q + 1
    end.

End PyFloat.

Import PyFloat.

(** ** Exceptions and results *)

Inductive exn : Type :=
| ValueError      (* cannot convert float NaN to integer *)
| OverflowError.  (* cannot convert float infinity to integer *)

Inductive result (A : Type) : Type :=
| Ok (a : A)
| Raise (e : exn).
Arguments Ok {A} a.
Arguments Raise {A} e.

(** [math.ceil(x)]: a Python int, or an exception on NaN and infinities. *)
Definition math_ceil (x : float) : result Z :=
  match x with
  | S754_nan => Raise ValueError
  | S754_infinity _ => Raise OverflowError
  | S754_zero _ => Ok 0
  | S754_finite _ _ _ => Ok (ceil_m2e (mant x) (expo x))
  end.

(** [int(x)]: truncation toward zero, or an exception on NaN and infinities. *)
Definition py_int (x : float) : result Z :=
  match x with
  | S754_nan => Raise ValueError
  | S754_infinity _ => Raise OverflowError
  | S754_zero _ => Ok 0
  | S754_finite _ _ _ => Ok (trunc_m2e (mant x) (expo x))
  end.

(** [numpy.rint]: nearest integer, ties to even, as a float; NaN, infinities
    and zeros are returned as they are. *)
Definition np_rint (x : float) : float :=
  match x with
  | S754_finite s _ _ =>
      binary_normalize prec emax (rint_m2e (mant x) (expo x)) 0 s
  | _ => x
  end.

(** [str(n)] for a Python int. *)
Definition py_str (n : Z) : string := NilEmpty.string_of_int (Z.to_int n).

(** ** round_up (populate_rockprops_SMR_loader.py, lines 34-40)

    [multiplier = 10**decimals] is an int; [n * multiplier] converts it to a
    float and multiplies; [math.ceil] returns an int; the final [/] is the
    true division of two ints, the correctly rounded quotient. *)
Definition round_up (n : float) (decimals : nat) : result float :=
  let multiplier := 10 ^ Z.of_nat decimals in
  match math_ceil (fmul n (of_Z multiplier)) with
  | Ok c => Ok (fdiv (of_Z c) (of_Z multiplier))
  | Raise e => Raise e
  end.

(** [DataFrame.round] on a float column with [decimals > 0], which is
    [numpy.round]: multiply by [10**decimals], [rint], divide. *)
Definition np_round (x : float) (decimals : nat) : float :=
  let p := of_Z (10 ^ Z.of_nat decimals) in
  fdiv (np_rint (fmul x p)) p.

(** ** Config/SMR_config.py *)

Module Config.

Definition NULL_VALUE : Z := -99999.
Definition MAX_DEPTH : Z := 100.

(** The three Bayesian percentile bands, the values of the [lmh] table. *)
Inductive band : Type := BAYESIAN_LOW | BAYESIAN_MEDIAN | BAYESIAN_HIGH.

(** [lmh]: CSV column name to database terminology, in insertion order. *)
Definition lmh : list (string * band) :=
  [("p5", BAYESIAN_LOW); ("p50", BAYESIAN_MEDIAN); ("p95", BAYESIAN_HIGH)].

Definition COLLECTION_NAME_POSTFIX : string := " water content profile".
Definition COLLECTION_TYPE : string := "hydrogeological".
Definition ORIGINATOR_NUMBER : Z := 484.
Definition PREFERRED_COLLECTION : string := "Y".

Definition INTERVAL_UNIT_OF_MEASURE : string := "metre".

Definition ANO : Z := 228.
Definition ACCESS_CODE : string := "A".
Definition QA_STATUS : string := "C".
Definition ACTIVITY_CODE : string := "A".
Definition SAMPLE_TYPE : string := "observation only".
Definition SAMPLING_METHOD : string := "field mapping survey".
Definition MATERIAL_CLASS : string := "groundwater".
Definition PROJECT_NO : Z := 576.

Definition ORIGNO : Z := 484.
Definition SOURCE_TYPE : string := "GA NAS".
Definition SOURCE : string :=
  "\\prod.lan\active\proj\futurex\DCD\Data\Processed\Geophysics\SMR\results".
Definition LOAD_APPROVED : string := "Y".
Definition PROCESS_TYPE : Z := 17475995.
Definition PETROPHYSICAL_PROPERTY : string := "water content".
Definition UOM : string := "volume fraction".
Definition NUMERICAL_CONFIDENCE : string := "moderate confidence".
Definition METADATA_QUALITY : string := "high quality".
Definition SUMMARY_CONFIDENCE : string := "high confidence".

(** One entry of [BAYESIAN_CONSTANTS]. *)
Record bayesian_constants : Type := {
  RESULT_QUALIFIER : string;
  UNCERTAINTY_TYPE : string;
  UNCERTAINTY_VALUE : Z;
  UNCERTAINTY_UOM : string;
  SP_REMARKS : string
}.

Definition BAYESIAN_CONSTANTS (b : band) : bayesian_constants :=
  match b with
  | BAYESIAN_LOW =>
      {| RESULT_QUALIFIER := "Bayesian low";
         UNCERTAINTY_TYPE := "Bayesian posterior inferred percentile point";
         UNCERTAINTY_VALUE := 5;
         UNCERTAINTY_UOM := "percent";
         SP_REMARKS := "Water content and uncertainty inferred from inverting SMR data using Bayesian probabilistic methods. The credible interval (u) is 90%, where u = high - low." |}
  | BAYESIAN_MEDIAN =>
      {| RESULT_QUALIFIER := "Bayesian median";
         UNCERTAINTY_TYPE := "Bayesian posterior inferred percentile point";
         UNCERTAINTY_VALUE := 50;
         UNCERTAINTY_UOM := "percent";
         SP_REMARKS := "Water content and uncertainty inferred from inverting SMR data using Bayesian probabilistic methods." |}
  | BAYESIAN_HIGH =>
      {| RESULT_QUALIFIER := "Bayesian high";
         UNCERTAINTY_TYPE := "Bayesian posterior inferred percentile point";
         UNCERTAINTY_VALUE := 95;
         UNCERTAINTY_UOM := "percent";
         SP_REMARKS := "Water content and uncertainty inferred from inverting SMR data using Bayesian probabilistic methods. The credible interval (u) is 90%, where u = high - low." |}
  end.

End Config.

Import Config.

(** ** Cells, rows, sheets and the workbook *)

(** A cell value as the loader writes it: a string (the empty string for a
    column left blank), an int or a float. *)
Inductive cell : Type :=
| CStr (s : string)
| CInt (n : Z)
| CFloat (x : float).

Definition row : Type := list cell.
Definition sheet : Type := list row.

(** The four sheets of the loading template the program writes to. *)
Record Workbook : Type := {
  SECTION_INTERVAL_COLLECTION : sheet;
  SECTION_INTERVALS : sheet;
  SAMPLES : sheet;
  SCALAR_PROPERTIES : sheet
}.

(** [ws.append(new_row)] on each of the four sheets. *)
Definition append_collection (r : row) (wb : Workbook) : Workbook :=
  {| SECTION_INTERVAL_COLLECTION := wb.(SECTION_INTERVAL_COLLECTION) ++ [r];
     SECTION_INTERVALS := wb.(SECTION_INTERVALS);
     SAMPLES := wb.(SAMPLES);
     SCALAR_PROPERTIES := wb.(SCALAR_PROPERTIES) |}.

Definition append_interval (r : row) (wb : Workbook) : Workbook :=
  {| SECTION_INTERVAL_COLLECTION := wb.(SECTION_INTERVAL_COLLECTION);
     SECTION_INTERVALS := wb.(SECTION_INTERVALS) ++ [r];
     SAMPLES := wb.(SAMPLES);
     SCALAR_PROPERTIES := wb.(SCALAR_PROPERTIES) |}.

Definition append_sample (r : row) (wb : Workbook) : Workbook :=
  {| SECTION_INTERVAL_COLLECTION := wb.(SECTION_INTERVAL_COLLECTION);
     SECTION_INTERVALS := wb.(SECTION_INTERVALS);
     SAMPLES := wb.(SAMPLES) ++ [r];
     SCALAR_PROPERTIES := wb.(SCALAR_PROPERTIES) |}.

Definition append_scalar (r : row) (wb : Workbook) : Workbook :=
  {| SECTION_INTERVAL_COLLECTION := wb.(SECTION_INTERVAL_COLLECTION);
     SECTION_INTERVALS := wb.(SECTION_INTERVALS);
     SAMPLES := wb.(SAMPLES);
     SCALAR_PROPERTIES := wb.(SCALAR_PROPERTIES) ++ [r] |}.

(** ** The workbook monad: state with exceptions

    A computation takes the workbook and gives a result or an exception,
    together with the workbook as it then is. *)

Definition M (A : Type) : Type := Workbook -> result A * Workbook.

Definition ret {A} (a : A) : M A := fun wb => (Ok a, wb).

Definition bind {A B} (m : M A) (k : A -> M B) : M B :=
  fun wb =>
    match m wb with
    | (Ok a, wb') => k a wb'
    | (Raise e, wb') => (Raise e, wb')
    end.

Definition lift {A} (r : result A) : M A := fun wb => (r, wb).

Definition modify (f : Workbook -> Workbook) : M unit :=
  fun wb => (Ok tt, f wb).

Notation "x <- m ;; k" := (bind m (fun x => k))
  (at level 61, m at next level, right associativity).
Notation "m ;;; k" := (bind m (fun _ => k))
  (at level 61, right associativity).

(** ** Input tables *)

(** One row of the site metadata sheet ([config_file]). *)
Record site_metadata : Type := {
  Measured_section_name : string;
  ENO : cell;
  Dep_ref_point : cell;
  Acq_date : cell
}.

(** One row of the processed SMR CSV: columns
    [site_name, depth_from, depth_to, p5, p50, p95]. The depth and
    percentile columns are read as float columns; an empty cell is a NaN. *)
Record csv_row : Type := {
  csv_site_name : string;
  csv_depth_from : float;
  csv_depth_to : float;
  p5 : float;
  p50 : float;
  p95 : float
}.

(** One row of the frame [get_smr_df] returns: percentile columns renamed
    through [lmh]. *)
Record smr_row : Type := {
  site_name : string;
  depth_from : float;
  depth_to : float;
  low : float;
  median : float;
  high : float
}.

(** [smr_results_row[bayesian_percentile]]. *)
Definition get_band (r : smr_row) (b : band) : float :=
  match b with
  | BAYESIAN_LOW => r.(low)
  | BAYESIAN_MEDIAN => r.(median)
  | BAYESIAN_HIGH => r.(high)
  end.

(** ** get_smr_df (lines 85-110): rename the percentile columns, round the
    two depth columns to 2 decimals with [DataFrame.round]. *)
Definition get_smr_df (smr_data : list csv_row) : list smr_row :=
  map (fun r =>
         {| site_name := r.(csv_site_name);
            depth_from := np_round r.(csv_depth_from) 2;
            depth_to := np_round r.(csv_depth_to) 2;
            low := r.(p5);
            median := r.(p50);
            high := r.(p95) |})
      smr_data.

(** ** add_section_interval_collection (lines 113-157)

    Appends one row to SECTION INTERVAL COLLECTION and returns, with the
    workbook, [site_name]. *)
Definition collection_row (inputs : site_metadata) : row :=
  let site_name := inputs.(Measured_section_name) in
  let collection_name := (site_name ++ COLLECTION_NAME_POSTFIX)%string in
  [ inputs.(ENO);                    (* Section ENO *)
    CStr inputs.(Measured_section_name); (* Measured section name *)
    inputs.(Dep_ref_point);          (* Depth reference point ID *)
    CStr "";                         (* Interval collection id *)
    CStr collection_name;            (* Collection name *)
    CStr COLLECTION_TYPE;            (* Collection type *)
    CInt ORIGINATOR_NUMBER;          (* Originator number *)
    CStr PREFERRED_COLLECTION;       (* Preferred collection *)
    CStr "";                         (* Collection source document id *)
    CStr "" ].                       (* Source comments *)

Definition add_section_interval_collection (inputs : site_metadata) : M string :=
  let site_name := inputs.(Measured_section_name) in
  modify (append_collection (collection_row inputs)) ;;;
  ret site_name.

(** ** add_scalar_properties (lines 302-363) *)

Definition scalar_row (sample_id : string) (b : band) (measurement : cell) : row :=
  let current_bayesian_constants := BAYESIAN_CONSTANTS b in
  [ CStr sample_id;                  (* SAMPLEID *)
    CStr "";                         (* Sample number *)
    CStr "";                         (* Resultno *)
    CStr "";                         (* Resultid *)
    CStr ACCESS_CODE;                (* Access code *)
    CStr "";                         (* Confidential until date *)
    CStr QA_STATUS;                  (* QA status *)
    CInt ORIGNO;                     (* Originator *)
    CStr SOURCE_TYPE;                (* Source type *)
    CStr SOURCE;                     (* Source *)
    CStr LOAD_APPROVED;              (* Load approved *)
    CInt PROCESS_TYPE;               (* Process type *)
    CStr PETROPHYSICAL_PROPERTY;     (* Petrophysical property *)
    measurement;                     (* Value *)
    CStr UOM;                        (* UOM *)
    CStr current_bayesian_constants.(RESULT_QUALIFIER);
    CStr current_bayesian_constants.(UNCERTAINTY_TYPE);
    CInt current_bayesian_constants.(UNCERTAINTY_VALUE);
    CStr current_bayesian_constants.(UNCERTAINTY_UOM);
    CStr "";                         (* RESULT DATE/TIME *)
    CStr "";                         (* OBSERVATION LOCATION *)
    CStr current_bayesian_constants.(SP_REMARKS);
    CStr NUMERICAL_CONFIDENCE;       (* Numerical confidence *)
    CStr METADATA_QUALITY;           (* Metadata quality *)
    CStr SUMMARY_CONFIDENCE ].       (* Summary confidence *)

(** The body of [for _, (_, bayesian_percentile) in enumerate(lmh.items())]:
    [round_up] is called on the raw value first; the [np.isnan] test is on
    its result. *)
Fixpoint scalar_properties_loop (sample_id : string) (smr_results_row : smr_row)
    (items : list (string * band)) : M unit :=
  match items with
  | [] => ret tt
  | (_, bayesian_percentile) :: items' =>
      measurement <- lift (round_up (get_band smr_results_row bayesian_percentile) 4) ;;
      let measurement :=
        if isnan measurement then CInt NULL_VALUE else CFloat measurement in
      modify (append_scalar (scalar_row sample_id bayesian_percentile measurement)) ;;;
      scalar_properties_loop sample_id smr_results_row items'
  end.

Definition add_scalar_properties (sample_id : string) (smr_results_row : smr_row)
    : M unit :=
  scalar_properties_loop sample_id smr_results_row lmh.

(** ** add_samples (lines 227-299) *)

Definition make_sample_id (site : string) (smr_results_idx : nat) : string :=
  (site ++ "_L" ++ py_str (Z.of_nat smr_results_idx + 1))%string.

Definition sample_row (working_info : site_metadata) (collection_name interval_id
    sample_id : string) : row :=
  [ working_info.(ENO);              (* Section eno *)
    CStr collection_name;            (* Collection name *)
    CStr "";                         (* Intervalno *)
    CStr "";                         (* Sampleno *)
    CStr interval_id;                (* Interval id *)
    CStr sample_id;                  (* Sample id *)
    working_info.(Acq_date);         (* Acquisition date *)
    CStr "";                         (* Parent sampleno *)
    CStr "";                         (* Parent sample id *)
    CInt ANO;                        (* ANO *)
    CStr ACCESS_CODE;                (* Access code *)
    CStr "";                         (* Confidential until date *)
    CStr QA_STATUS;                  (* QA status *)
    CStr ACTIVITY_CODE;              (* Activity code *)
    CStr SAMPLE_TYPE;                (* Sample type *)
    CStr SAMPLING_METHOD;            (* Sampling method *)
    CStr MATERIAL_CLASS;             (* Material class *)
    CStr "";                         (* Procedure no *)
    CInt PROJECT_NO;                 (* Project no *)
    CStr ""; CStr ""; CStr ""; CStr ""; CStr "";
    CStr ""; CStr ""; CStr ""; CStr "" ].

Definition add_samples (working_info : site_metadata) (collection_name
    interval_id : string) (smr_results_idx : nat) (smr_results_row : smr_row)
    : M unit :=
  let sample_id := make_sample_id smr_results_row.(site_name) smr_results_idx in
  modify (append_sample (sample_row working_info collection_name interval_id sample_id)) ;;;
  add_scalar_properties sample_id smr_results_row.

(** ** add_section_intervals (lines 160-224) *)

Definition make_interval_id (site : string) (depth_from depth_to : Z) : string :=
  (site ++ "_" ++ py_str depth_from ++ "-" ++ py_str depth_to ++ "m")%string.

Definition interval_row (collection_name interval_id : string) (r : smr_row) : row :=
  [ CStr "";                         (* Collection no. *)
    CStr collection_name;            (* Collection name *)
    CStr "";                         (* Interval no. *)
    CStr interval_id;                (* Interval ID *)
    CFloat r.(depth_from);           (* Interval start depth *)
    CFloat r.(depth_to);             (* Interval end depth *)
    CStr INTERVAL_UNIT_OF_MEASURE ]. (* Interval unit of measure *)

(** [smr_data[smr_data["site_name"] == site_name]]. *)
Definition select_site (site : string) (smr_data : list smr_row) : list smr_row :=
  filter (fun r => String.eqb r.(site_name) site) smr_data.

(** [reset_index] then [iterrows]: the rows with their new index 0, 1, ... *)
Definition iterrows (rows : list smr_row) : list (nat * smr_row) :=
  combine (seq 0 (List.length rows)) rows.

(** The [for idx, row in current_results.iterrows()] loop, with its [break]. *)
Fixpoint section_intervals_loop (working_info : site_metadata) (site
    collection_name : string) (rows : list (nat * smr_row)) : M unit :=
  match rows with
  | [] => ret tt
  | (idx, r) :: rows' =>
      depth_from <- lift (py_int r.(depth_from)) ;;
      depth_to <- lift (py_int r.(depth_to)) ;;
      if depth_to >? MAX_DEPTH then ret tt
      else
        let interval_id := make_interval_id site depth_from depth_to in
        modify (append_interval (interval_row collection_name interval_id r)) ;;;
        add_samples working_info collection_name interval_id idx r ;;;
        section_intervals_loop working_info site collection_name rows'
  end.

(** [smr_data] stands for the content of the CSV file at
    [smr_water_data_path], read again on every call. *)
Definition add_section_intervals (working_info : site_metadata) (site : string)
    (smr_data : list csv_row) : M unit :=
  let collection_name := (site ++ COLLECTION_NAME_POSTFIX)%string in
  let smr_df := get_smr_df smr_data in
  let current_results := select_site site smr_df in
  section_intervals_loop working_info site collection_name (iterrows current_results).

(** ** main (lines 366-398): the loop over the metadata rows. The workbook
    the loop starts from is the cleaned template. *)
Fixpoint main_loop (smr_data : list csv_row) (smr_metadata : list site_metadata)
    : M unit :=
  match smr_metadata with
  | [] => ret tt
  | working_info :: rest =>
      site <- add_section_interval_collection working_info ;;
      add_section_intervals working_info site smr_data ;;;
      main_loop smr_data rest
  end.

Definition main (smr_data : list csv_row) (smr_metadata : list site_metadata)
    (clean_template_wb : Workbook) : result unit * Workbook :=
  main_loop smr_data smr_metadata clean_template_wb.

(** * Vocabulary of the properties

    Definitions used to state what the emitters append: workbooks as lists of
    appended rows, the retained bins of a site, identifiers, columns. *)

(** ** Workbooks as appended rows *)

Definition empty_wb : Workbook :=
  {| SECTION_INTERVAL_COLLECTION := [];
     SECTION_INTERVALS := [];
     SAMPLES := [];
     SCALAR_PROPERTIES := [] |}.

(** [wb_app wb out]: the workbook [wb] after the rows of [out] were appended,
    sheet by sheet. *)
Definition wb_app (wb out : Workbook) : Workbook :=
  {| SECTION_INTERVAL_COLLECTION :=
       wb.(SECTION_INTERVAL_COLLECTION) ++ out.(SECTION_INTERVAL_COLLECTION);
     SECTION_INTERVALS := wb.(SECTION_INTERVALS) ++ out.(SECTION_INTERVALS);
     SAMPLES := wb.(SAMPLES) ++ out.(SAMPLES);
     SCALAR_PROPERTIES := wb.(SCALAR_PROPERTIES) ++ out.(SCALAR_PROPERTIES) |}.

Definition wb_concat (outs : list Workbook) : Workbook :=
  fold_right wb_app empty_wb outs.

Definition collections_only (rows : list row) : Workbook :=
  {| SECTION_INTERVAL_COLLECTION := rows;
     SECTION_INTERVALS := [];
     SAMPLES := [];
     SCALAR_PROPERTIES := [] |}.

Definition scalars_only (rows : list row) : Workbook :=
  {| SECTION_INTERVAL_COLLECTION := [];
     SECTION_INTERVALS := [];
     SAMPLES := [];
     SCALAR_PROPERTIES := rows |}.

(** The rows one iteration of the interval loop appends for a retained bin. *)
Definition bin_rows (irow srow : row) (scalars : list row) : Workbook :=
  {| SECTION_INTERVAL_COLLECTION := [];
     SECTION_INTERVALS := [irow];
     SAMPLES := [srow];
     SCALAR_PROPERTIES := scalars |}.

(** A computation is _framed_ when it only appends rows, and which rows does
    not depend on what the workbook already holds. *)
Definition framed {A} (m : M A) : Prop :=
  forall wb, m wb = (fst (m empty_wb), wb_app wb (snd (m empty_wb))).

(** What a computation does on its own: its outcome, and the rows it emits. *)
Definition outcome {A} (m : M A) : result A := fst (m empty_wb).
Definition emitted {A} (m : M A) : Workbook := snd (m empty_wb).

(** The cell in column [n] (from 0) of a row. *)
Definition column (n : nat) (r : row) : cell := nth n r (CStr "").

(** The row has the string [s] in column [col]. *)
Definition has_str (col : nat) (s : string) (r : row) : bool :=
  match column col r with
  | CStr t => String.eqb t s
  | _ => false
  end.

(** How many of the rows have the string [s] in column [col]. *)
Definition count_str (col : nat) (s : string) (rows : list row) : nat :=
  List.length (filter (has_str col s) rows).

(** Some cell of the row is the string [s]. *)
Definition carries_str (s : string) (r : row) : bool :=
  existsb (fun c => match c with CStr t => String.eqb t s | _ => false end) r.

(** ** Integers of floats *)

(** The int [int(x)] returns, where it returns one. *)
Definition int_of (x : float) : Z :=
  match py_int x with Ok n => n | Raise _ => 0 end.

(** [A] is the float [x] with its fractional part dropped (toward zero),
    stated on the mantissa and exponent of [x] without using [py_int]. *)
Definition truncates_to (x : float) (A : Z) : Prop :=
  match x with
  | S754_zero _ => A = 0
  | S754_finite _ _ _ =>
      if 0 <=? expo x then A = mant x * 2 ^ expo x
      else Z.abs A * 2 ^ (- expo x) <= Z.abs (mant x)
           /\ Z.abs (mant x) < (Z.abs A + 1) * 2 ^ (- expo x)
           /\ 0 <= A * mant x
  | _ => False
  end.

(** [c] is the least integer not below the float [x], stated on the mantissa
    and exponent of [x] without using [math_ceil]. *)
Definition is_ceiling (x : float) (c : Z) : Prop :=
  match x with
  | S754_zero _ => c = 0
  | S754_finite _ _ _ =>
      if 0 <=? expo x then c = mant x * 2 ^ expo x
      else mant x <= c * 2 ^ (- expo x) /\ (c - 1) * 2 ^ (- expo x) < mant x
  | _ => False
  end.

Definition is_digit (a : ascii) : bool :=
  ((48 <=? nat_of_ascii a) && (nat_of_ascii a <=? 57))%nat.

(** ** The rows of one sample *)

(** The rows [add_scalar_properties] appends for the bands of [items], up to
    the first band on which [round_up] raises, and the outcome of the loop. *)
Fixpoint scalar_rows (sample_id : string) (r : smr_row)
    (items : list (string * band)) : list row :=
  match items with
  | [] => []
  | (_, b) :: items' =>
      match round_up (get_band r b) 4 with
      | Ok y => scalar_row sample_id b (CFloat y) :: scalar_rows sample_id r items'
      | Raise _ => []
      end
  end.

Fixpoint scalar_outcome (r : smr_row) (items : list (string * band)) : result unit :=
  match items with
  | [] => Ok tt
  | (_, b) :: items' =>
      match round_up (get_band r b) 4 with
      | Ok _ => scalar_outcome r items'
      | Raise e => Raise e
      end
  end.

(** ** The bins of one site *)

(** The bin's [depth_to] truncates to an int above [MAX_DEPTH]: the loop
    stops there. *)
Definition exceeds (r : smr_row) : bool :=
  match py_int r.(depth_to) with Ok B => B >? MAX_DEPTH | Raise _ => false end.

(** The retained depth bins: those before the first one that exceeds
    [MAX_DEPTH]. *)
Fixpoint retained (rows : list (nat * smr_row)) : list (nat * smr_row) :=
  match rows with
  | [] => []
  | ir :: rows' => if exceeds (snd ir) then [] else ir :: retained rows'
  end.

(** Both depths of the bin convert to ints. *)
Definition depths_convert (r : smr_row) : Prop :=
  exists A B, py_int r.(depth_from) = Ok A /\ py_int r.(depth_to) = Ok B.

Definition bin_interval_id (site : string) (r : smr_row) : string :=
  make_interval_id site (int_of r.(depth_from)) (int_of r.(depth_to)).

Definition bin_sample_id (ir : nat * smr_row) : string :=
  make_sample_id (snd ir).(site_name) (fst ir).

(** All the rows the loop appends for one bin whose depths convert. *)
Definition bin_out (wi : site_metadata) (site coll : string)
    (ir : nat * smr_row) : Workbook :=
  let iid := bin_interval_id site (snd ir) in
  bin_rows (interval_row coll iid (snd ir))
           (sample_row wi coll iid (bin_sample_id ir))
           (scalar_rows (bin_sample_id ir) (snd ir) lmh).

(** The site's rows of the frame with their index, and the retained bins. *)
Definition site_rows (site : string) (smr_data : list csv_row)
    : list (nat * smr_row) :=
  iterrows (select_site site (get_smr_df smr_data)).

Definition retained_bins (site : string) (smr_data : list csv_row)
    : list (nat * smr_row) :=
  retained (site_rows site smr_data).

(** ** One pass over a site *)

(** The body of the loop of [main]: the collection row, then the intervals
    of the site with their samples and scalar properties. *)
Definition site_pass (smr_data : list csv_row) (working_info : site_metadata)
    : M unit :=
  site <- add_section_interval_collection working_info ;;
  add_section_intervals working_info site smr_data.

(** All that a completed pass over the site of [wi] appends. *)
Definition site_out (smr_data : list csv_row) (wi : site_metadata) : Workbook :=
  let site := wi.(Measured_section_name) in
  let coll := (site ++ COLLECTION_NAME_POSTFIX)%string in
  wb_app (collections_only [collection_row wi])
         (wb_concat (map (bin_out wi site coll) (retained_bins site smr_data))).

(** The sample ids of the retained bins of a site. *)
Definition site_sample_ids (smr_data : list csv_row) (wi : site_metadata)
    : list string :=
  map bin_sample_id (retained_bins wi.(Measured_section_name) smr_data).

(** ** Sample inputs *)

Module Examples.

Definition meta (s : string) : site_metadata :=
  {| Measured_section_name := s;
     ENO := CInt 618001;
     Dep_ref_point := CInt 1;
     Acq_date := CStr "2023-05-17" |}.

(** A CSV row: depths in centimetres, percentiles as floats. *)
Definition bin (s : string) (from_cm to_cm : Z) (a b c : float) : csv_row :=
  {| csv_site_name := s;
     csv_depth_from := of_dec from_cm 2;
     csv_depth_to := of_dec to_cm 2;
     p5 := a; p50 := b; p95 := c |}.

(** The floats 0.05, 0.12345 and 0.3. *)
Definition w05 : float := of_dec 5 2.
Definition w12 : float := of_dec 12345 5.
Definition w30 : float := of_dec 3 1.

(** Site S1 with [depth_to] 10, 50, 105 and then 60; site S2 with one bin. *)
Definition four_bins : list csv_row :=
  [ bin "S1" 0 1000 w05 w12 w30;
    bin "S1" 1000 5000 w05 w12 w30;
    bin "S2" 0 2000 w05 w12 w30;
    bin "S1" 5000 10500 w05 w12 w30;
    bin "S1" 10500 6000 w05 w12 w30 ].

(** Site S1 with one bin whose [p5] is missing. *)
Definition nan_low : list csv_row := [ bin "S1" 0 1000 S754_nan w12 w30 ].

(** The rows of the frame for a bin of S1 from 0 to 10 m whose low, or
    median, percentile is missing. *)
Definition nan_low_row : smr_row :=
  {| site_name := "S1";
     depth_from := of_dec 0 2; depth_to := of_dec 1000 2;
     low := S754_nan; median := w12; high := w30 |}.

Definition nan_median_row : smr_row :=
  {| site_name := "S1";
     depth_from := of_dec 0 2; depth_to := of_dec 1000 2;
     low := w05; median := S754_nan; high := w30 |}.

End Examples.

(** ** Proof automation *)

Create HintDb framed.

Ltac run_monad := unfold bind, lift, modify, ret; simpl.

(** * The script around the emitters *)

(** ** File locations (Config/SMR_config.py, lines 5-27) *)

Module Paths.

Definition STAGE : string := "final".

Definition full_template_file : string :=
  ".\Templates\Measure_Section-Samples-downhole intervals-rockprops_2023.10.XLSX".

Definition test_output_file : string :=
  "Test_ROCKPROPS_UDF_SMR_loader_May2024.XLSX".
Definition final_output_file : string :=
  "ROCKPROPS_reloader_UDF_SMR_acquired_2022-2023.XLSX".
Definition output_dir : string := ".\Outputs\\".

End Paths.

Import Paths.

(** ** Excel workbooks and files

    An openpyxl workbook is its sheets by title, in their order. A sheet is
    its cells; it is written as the list of its rows 1, 2, ..., a row that
    holds no cell being the empty list. The rows written after the last one
    that holds a cell are no part of the sheet: [trim] drops them, and a
    sheet is read through [trim]. The file system maps a path to the workbook
    saved there. *)

Definition xlsx : Type := list (string * sheet).

(** The rows up to the last one that holds a cell. *)
Fixpoint trim (ws : sheet) : sheet :=
  match ws with
  | [] => []
  | r :: ws' =>
      match r, trim ws' with
      | [], [] => []
      | _, t => r :: t
      end
  end.

(** The rows written for the first sheet of that title, if any. *)
Fixpoint stored_sheet (title : string) (x : xlsx) : option sheet :=
  match x with
  | [] => None
  | (t, ws) :: x' =>
      if String.eqb t title then Some ws else stored_sheet title x'
  end.

(** [workbook[title]]: the first sheet of that title, if any. *)
Definition get_sheet (title : string) (x : xlsx) : option sheet :=
  option_map trim (stored_sheet title x).

(** The workbook after the sheet [title] was mutated into [ws]. *)
Fixpoint set_sheet (title : string) (ws : sheet) (x : xlsx) : xlsx :=
  match x with
  | [] => []
  | (t, ws0) :: x' =>
      if String.eqb t title then (t, ws) :: x'
      else (t, ws0) :: set_sheet title ws x'
  end.

(** [ws.max_row]: the number of the last row that holds a cell, 1 for a
    sheet without cells. *)
Definition max_row (ws : sheet) : nat := Nat.max 1 (List.length (trim ws)).

(** [ws.delete_rows(idx)]: the cells of row [idx] (from 1) are removed and
    the rows below move up. *)
Definition delete_rows (idx : nat) (ws : sheet) : sheet :=
  trim (firstn (idx - 1) ws ++ skipn idx ws).

(** [range(start, stop, -1)]: [start, start - 1, ..., stop + 1]. *)
Definition range_down (start stop : nat) : list nat :=
  List.rev (seq (S stop) (start - stop)).

(** What the script can raise outside the emitters, and the emitters'
    exceptions as they reach the top level. *)
Inductive run_error : Type :=
| UnboundLocalError
| FileNotFoundError (path : string)
| KeyError (key : string)
| DateValueError (text : string)  (* ValueError: a date that does not parse *)
| EmitterError (e : exn).

Inductive run_result (A : Type) : Type :=
| Done (a : A)
| Failed (e : run_error).
Arguments Done {A} a.
Arguments Failed {A} e.

Definition filesystem : Type := string -> option xlsx.

(** [os.path.exists], [os.remove] and [Workbook.save]. The directory of the
    path is taken to exist and the file to be writable: saving does not
    fail. *)
Definition fs_exists (path : string) (fs : filesystem) : bool :=
  match fs path with Some _ => true | None => false end.

Definition fs_remove (path : string) (fs : filesystem) : filesystem :=
  fun p => if String.eqb p path then None else fs p.

Definition fs_save (path : string) (x : xlsx) (fs : filesystem) : filesystem :=
  fun p => if String.eqb p path then Some x else fs p.

(** [load_workbook(filename=path)]. *)
Definition load_workbook (path : string) (fs : filesystem) : run_result xlsx :=
  match fs path with
  | Some x => Done x
  | None => Failed (FileNotFoundError path)
  end.

(** ** remove_hints_from_template (lines 43-70) *)

Definition worksheets : list string :=
  [ "SECTION INTERVAL COLLECTION";
    "SECTION INTERVALS";
    "SAMPLES";
    "SCALAR PROPERTIES" ].

(** [for row_nr in range(ws.max_row, 5, -1): ws.delete_rows(row_nr)]. *)
Definition remove_hints_from_sheet (ws : sheet) : sheet :=
  fold_left (fun ws row_nr => delete_rows row_nr ws)
            (range_down (max_row ws) 5) ws.

(** [for sheet in worksheets]: [template_xlsx[sheet]] raises [KeyError] on a
    title the workbook does not have. *)
Fixpoint remove_hints_loop (sheets : list string) (template_xlsx : xlsx)
    : run_result xlsx :=
  match sheets with
  | [] => Done template_xlsx
  | sheet :: sheets' =>
      match get_sheet sheet template_xlsx with
      | None => Failed (KeyError sheet)
      | Some ws =>
          remove_hints_loop sheets'
            (set_sheet sheet (remove_hints_from_sheet ws) template_xlsx)
      end
  end.

Definition remove_hints_from_template (template_xlsx : xlsx) : run_result xlsx :=
  remove_hints_loop worksheets template_xlsx.

(** ** create_output_loader (lines 73-82) *)

Definition create_output_loader (outfile : string) (loading_template : xlsx)
    (fs : filesystem) : string * filesystem :=
  let fs := if fs_exists outfile fs then fs_remove outfile fs else fs in
  (outfile, fs_save outfile loading_template fs).

(** ** main (lines 366-398), with its files

    The four sheets the emitters write to, taken out of the workbook and put
    back into it. [ws.append] writes the row after the last row that holds a
    cell. *)
Definition open_sheets (x : xlsx) : run_result Workbook :=
  match get_sheet "SECTION INTERVAL COLLECTION" x with
  | None => Failed (KeyError "SECTION INTERVAL COLLECTION")
  | Some collections =>
      match get_sheet "SECTION INTERVALS" x with
      | None => Failed (KeyError "SECTION INTERVALS")
      | Some intervals =>
          match get_sheet "SAMPLES" x with
          | None => Failed (KeyError "SAMPLES")
          | Some samples =>
              match get_sheet "SCALAR PROPERTIES" x with
              | None => Failed (KeyError "SCALAR PROPERTIES")
              | Some scalars =>
                  Done {| SECTION_INTERVAL_COLLECTION := collections;
                          SECTION_INTERVALS := intervals;
                          SAMPLES := samples;
                          SCALAR_PROPERTIES := scalars |}
              end
          end
      end
  end.

Definition store_sheets (wb : Workbook) (x : xlsx) : xlsx :=
  set_sheet "SCALAR PROPERTIES" wb.(SCALAR_PROPERTIES)
    (set_sheet "SAMPLES" wb.(SAMPLES)
       (set_sheet "SECTION INTERVALS" wb.(SECTION_INTERVALS)
          (set_sheet "SECTION INTERVAL COLLECTION"
             wb.(SECTION_INTERVAL_COLLECTION) x))).

(** The [if]/[elif] on [development_stage]: for any other value neither
    [template_file] nor [output_file] is bound. *)
Definition stage_files (development_stage : string) : option (string * string) :=
  if String.eqb development_stage "final"
  then Some (full_template_file, final_output_file)
  else if String.eqb development_stage "test"
  then Some (full_template_file, test_output_file)
  else None.

(** [config] is the outcome of lines 386-387, [pd.read_excel(config_file)]
    and [pd.to_datetime(smr_metadata["Acq_date"], dayfirst=True)]: the table
    of the sites, or the exception one of the two raises (no file at
    [config_file], no column [Acq_date], a date that does not parse).
    [smr_data] stands for the table [pd.read_csv] reads from
    [smr_water_data_path]. *)
Definition main_script (development_stage : string)
    (config : run_result (list site_metadata)) (smr_data : list csv_row)
    (fs : filesystem) : run_result unit * filesystem :=
  match stage_files development_stage with
  | None => (Failed UnboundLocalError, fs)
  | Some (template_file, output_file) =>
      match load_workbook template_file fs with
      | Failed e => (Failed e, fs)
      | Done full_wb =>
          match remove_hints_from_template full_wb with
          | Failed e => (Failed e, fs)
          | Done clean_template_wb =>
              let output_path := (output_dir ++ output_file)%string in
              let (output_loader, fs1) :=
                create_output_loader output_path clean_template_wb fs in
              match load_workbook output_loader fs1 with
              | Failed e => (Failed e, fs1)
              | Done wb =>
                  match config with
                  | Failed e => (Failed e, fs1)
                  | Done smr_metadata =>
                      match open_sheets wb with
                      | Failed e => (Failed e, fs1)
                      | Done sheets =>
                          match main smr_data smr_metadata sheets with
                          | (Ok _, sheets') =>
                              (Done tt,
                               fs_save output_loader
                                 (store_sheets sheets' wb) fs1)
                          | (Raise e, _) => (Failed (EmitterError e), fs1)
                          end
                      end
                  end
              end
          end
      end
  end.

(** * create_SMR_intervals.py

    The script that writes the CSV the loader reads: one depth grid for all
    sites, and for each results file the three percentiles of each bin.
    The depths and the percentiles are float arrays. *)

Definition fadd (x y : float) : float := SFadd prec emax x y.
Definition fsub (x y : float) : float := SFsub prec emax x y.

Inductive intervals_error : Type :=
| IndexError     (* index out of bounds *)
| LengthError.   (* ValueError: length of values does not match length of index *)

Inductive built (A : Type) : Type :=
| Built (a : A)
| Fails (e : intervals_error).
Arguments Built {A} a.
Arguments Fails {A} e.

(** [l[-k]] for [k >= 1]. *)
Definition neg_index {A} (l : list A) (k : nat) : option A :=
  if (k <=? List.length l)%nat then nth_error l (List.length l - k) else None.

(** Lines 12-15: [depth_to] starts as NaNs, takes [depth_from[1:]] in
    [depth_to[:-1]], and its last value is extrapolated from the last bin. *)
Definition make_depth_to (depth_from : list float) : built (list float) :=
  let n := List.length depth_from in
  let depth_to := repeat (fmul S754_nan (of_Z 1)) n in
  let depth_to := tl depth_from ++ skipn (n - 1) depth_to in
  match neg_index depth_to 2, neg_index depth_from 1, neg_index depth_from 2 with
  | Some t2, Some f1, Some f2 =>
      Built (removelast depth_to
               ++ [fadd t2 (fmul (fsub f1 f2) (of_dec 1028 3))])
  | _, _, _ => Fails IndexError
  end.

(** [s.startswith(p)]. *)
Fixpoint starts_with (p s : string) : bool :=
  match p, s with
  | EmptyString, _ => true
  | String a p', String b s' => Ascii.eqb a b && starts_with p' s'
  | String _ _, EmptyString => false
  end.

Fixpoint drop (n : nat) (s : string) : string :=
  match n, s with
  | O, _ => s
  | S n', String _ s' => drop n' s'
  | S _, EmptyString => EmptyString
  end.

(** The text before and after the first occurrence of [sep] in [s]. *)
Fixpoint cut (sep s : string) : option (string * string) :=
  match s with
  | EmptyString => None
  | String c s' =>
      if starts_with sep s then Some (EmptyString, drop (String.length sep) s)
      else match cut sep s' with
           | Some (a, b) => Some (String c a, b)
           | None => None
           end
  end.

Fixpoint split_fuel (fuel : nat) (sep s : string) : list string :=
  match fuel with
  | O => [s]
  | S fuel' =>
      match cut sep s with
      | None => [s]
      | Some (a, b) => a :: split_fuel fuel' sep b
      end
  end.

(** [s.split(sep)] for a non-empty [sep]: every cut removes a character at
    least, so the length of [s] bounds their number. *)
Definition py_split (sep s : string) : list string :=
  split_fuel (String.length s) sep s.

(** Line 24: [file.split("\\")[-1].split("_FID")[0]]. *)
Definition site_name_of_file (file : string) : string :=
  hd EmptyString (py_split "_FID" (last (py_split "\" file) EmptyString)).

(** Lines 26-30: the frame of one results file, whose rows (one at least)
    are the triples [p5, p50, p95] that [read_csv] returns; assigning a column
    of another length raises. *)
Definition site_frame (site : string) (percentiles : list (float * float * float))
    (depth_from depth_to : list float) : built (list csv_row) :=
  if negb (List.length depth_from =? List.length percentiles)%nat
  then Fails LengthError
  else if negb (List.length depth_to =? List.length percentiles)%nat
  then Fails LengthError
  else
    Built (map (fun pft : (float * float * float) * (float * float) =>
                  {| csv_site_name := site;
                     csv_depth_from := fst (snd pft);
                     csv_depth_to := snd (snd pft);
                     p5 := fst (fst (fst pft));
                     p50 := snd (fst (fst pft));
                     p95 := snd (fst pft) |})
               (combine percentiles (combine depth_from depth_to))).

(** Lines 23-31: the loop over the results files, each given by its path
    and its rows; [df_smr.append] puts the frame of the file after the rows
    gathered so far. *)
Fixpoint frames_loop (files : list (string * list (float * float * float)))
    (depth_from depth_to : list float) (df_smr : list csv_row)
    : built (list csv_row) :=
  match files with
  | [] => Built df_smr
  | (file, percentiles) :: files' =>
      let site := site_name_of_file file in
      match site_frame site percentiles depth_from depth_to with
      | Fails e => Fails e
      | Built df_site =>
          frames_loop files' depth_from depth_to (df_smr ++ df_site)
      end
  end.

(** The script: the rows it writes to the CSV. *)
Definition create_SMR_intervals (depth_from : list float)
    (files : list (string * list (float * float * float)))
    : built (list csv_row) :=
  match make_depth_to depth_from with
  | Fails e => Fails e
  | Built depth_to => frames_loop files depth_from depth_to []
  end.

(** ** Vocabulary of the scripts' properties *)

(** The text [sep] does not occur in [s]. *)
Definition free_of (sep s : string) : Prop :=
  forall a b : string, s <> (a ++ sep ++ b)%string.

(** The float [x] is a finite number and at least the integer [k], stated on
    the mantissa and exponent of [x] without using [py_int]. *)
Definition at_least (x : float) (k : Z) : Prop :=
  match x with
  | S754_zero _ => k <= 0
  | S754_finite _ _ _ =>
      if 0 <=? expo x then k <= mant x * 2 ^ expo x
      else k * 2 ^ (- expo x) <= mant x
  | _ => False
  end.

(** The header region of each of the four sheets: of its first five rows,
    those up to the last one that holds a cell. *)
Definition header_rows (wb : Workbook) : Workbook :=
  {| SECTION_INTERVAL_COLLECTION := trim (firstn 5 wb.(SECTION_INTERVAL_COLLECTION));
     SECTION_INTERVALS := trim (firstn 5 wb.(SECTION_INTERVALS));
     SAMPLES := trim (firstn 5 wb.(SAMPLES));
     SCALAR_PROPERTIES := trim (firstn 5 wb.(SCALAR_PROPERTIES)) |}.

(** ** Sample template and files *)

Module ScriptExamples.

(** A sheet with five header rows and two rows of hints. *)
Definition hinted_sheet (title : string) : sheet :=
  [ [CStr title]; [CStr "header 2"]; [CStr "header 3"]; [CStr "header 4"];
    [CStr "header 5"]; [CStr "hint: text"]; [CStr "hint: number"] ].

Definition template : xlsx :=
  [ ("SECTION INTERVAL COLLECTION", hinted_sheet "SECTION INTERVAL COLLECTION");
    ("SECTION INTERVALS", hinted_sheet "SECTION INTERVALS");
    ("SAMPLES", hinted_sheet "SAMPLES");
    ("SCALAR PROPERTIES", hinted_sheet "SCALAR PROPERTIES");
    ("MAGNETIC REMANENCE", hinted_sheet "MAGNETIC REMANENCE") ].

(** A sheet whose rows 4 and 5 hold no cell: three header rows, two rows
    without cells, two rows of hints. *)
Definition sparse_sheet (title : string) : sheet :=
  [ [CStr title]; [CStr "header 2"]; [CStr "header 3"]; []; [];
    [CStr "hint: text"]; [CStr "hint: number"] ].

Definition sparse_template : xlsx :=
  [ ("SECTION INTERVAL COLLECTION", sparse_sheet "SECTION INTERVAL COLLECTION");
    ("SECTION INTERVALS", sparse_sheet "SECTION INTERVALS");
    ("SAMPLES", sparse_sheet "SAMPLES");
    ("SCALAR PROPERTIES", sparse_sheet "SCALAR PROPERTIES");
    ("MAGNETIC REMANENCE", sparse_sheet "MAGNETIC REMANENCE") ].

(** The template without its SAMPLES sheet. *)
Definition template_without_samples : xlsx :=
  [ ("SECTION INTERVAL COLLECTION", hinted_sheet "SECTION INTERVAL COLLECTION");
    ("SECTION INTERVALS", hinted_sheet "SECTION INTERVALS");
    ("SCALAR PROPERTIES", hinted_sheet "SCALAR PROPERTIES") ].

(** A file system that holds the template only. *)
Definition template_only : filesystem :=
  fun p => if String.eqb p full_template_file then Some template else None.

Definition sparse_template_only : filesystem :=
  fun p => if String.eqb p full_template_file then Some sparse_template else None.

(** A depth grid of three bins, and two results files of three rows. *)
Definition depths : list float := [of_dec 0 1; of_dec 5 1; of_dec 15 1].

Definition results : list (float * float * float) :=
  [ (Examples.w05, Examples.w12, Examples.w30);
    (Examples.w05, Examples.w12, Examples.w30);
    (Examples.w05, Examples.w12, Examples.w30) ].

Definition results_files : list (string * list (float * float * float)) :=
  [ ("\\prod.lan\results\Bore_12_FID0042_CI_results.csv", results);
    ("\\prod.lan\results\Dam_FID0107_CI_results.csv", results) ].

End ScriptExamples.

(** * Properties *)

(** ** round_up and the data frame's round on the values of the specification *)

Example round_up_2001 : round_up (of_dec 2001 3) 2 = Ok (of_dec 201 2).
Proof. vm_compute. reflexivity. Qed.
Example round_up_200 : round_up (of_dec 200 2) 2 = Ok (of_dec 200 2).
Proof. vm_compute. reflexivity. Qed.
Example round_up_neg2001 : round_up (of_dec (-2001) 3) 2 = Ok (of_dec (-200) 2).
Proof. vm_compute. reflexivity. Qed.
Example np_round_2001 : np_round (of_dec 2001 3) 2 = of_dec 200 2.
Proof. vm_compute. reflexivity. Qed.

(** ** Floats: rounding never produces a NaN from non-negative mantissas *)

Section FloatFacts.

Lemma shr_1_nonneg (mrs : shr_record) :
  0 <= shr_m mrs -> 0 <= shr_m (shr_1 mrs).
Proof.
  destruct mrs as [m r s]; simpl.
  destruct m as [|p|p]; simpl; try lia; destruct p; simpl; lia.
Qed.

Lemma iter_shr_1_nonneg (p : positive) :
  forall mrs, 0 <= shr_m mrs -> 0 <= shr_m (SpecFloat.iter_pos shr_1 p mrs).
Proof.
  induction p as [p IH|p IH|]; intros mrs H; simpl.
  - apply IH, IH, shr_1_nonneg, H.
  - apply IH, IH, H.
  - apply shr_1_nonneg, H.
Qed.

Lemma shr_nonneg mrs e n :
  0 <= shr_m mrs -> 0 <= shr_m (fst (shr mrs e n)).
Proof.
  intros H. unfold shr. destruct n; simpl; auto using iter_shr_1_nonneg.
Qed.

Lemma shr_fexp_nonneg m e l :
  0 <= m -> 0 <= shr_m (fst (shr_fexp prec emax m e l)).
Proof.
  intros H. unfold shr_fexp. apply shr_nonneg.
  destruct l as [|[| |]]; simpl; exact H.
Qed.

Lemma round_nearest_even_nonneg m l :
  0 <= m -> 0 <= round_nearest_even m l.
Proof.
  intros H. unfold round_nearest_even.
  destruct l as [|[| |]]; try destruct (Z.even m); lia.
Qed.

Lemma binary_round_aux_not_nan sx mx ex lx :
  0 <= mx -> isnan (binary_round_aux prec emax sx mx ex lx) = false.
Proof.
  intros H. unfold binary_round_aux.
  pose proof (shr_fexp_nonneg mx ex lx H) as H1.
  destruct (shr_fexp prec emax mx ex lx) as [mrs' e'] eqn:E1. simpl in H1.
  pose proof (shr_fexp_nonneg
                (round_nearest_even (shr_m mrs') (loc_of_shr_record mrs'))
                e' loc_Exact
                (round_nearest_even_nonneg _ _ H1)) as H2.
  destruct (shr_fexp prec emax _ e' loc_Exact) as [mrs'' e''] eqn:E2.
  simpl in H2.
  destruct (shr_m mrs'') as [|p|p]; simpl; try reflexivity.
  - destruct (e'' <=? _); reflexivity.
  - lia.
Qed.

Lemma of_Z_not_nan (n : Z) : isnan (of_Z n) = false.
Proof.
  unfold of_Z, binary_normalize.
  destruct n as [|p|p]; try reflexivity; unfold binary_round;
    destruct (shl_align _ _ _) as [mz ez];
    apply binary_round_aux_not_nan; lia.
Qed.

(** Dividing a non-NaN float by a finite non-zero one is not a NaN. *)
Lemma fdiv_finite_not_nan (x : float) sy my ey :
  isnan x = false -> isnan (fdiv x (S754_finite sy my ey)) = false.
Proof.
  intros Hx. destruct x as [s|s| |s m e]; try reflexivity; try discriminate.
  unfold fdiv, SFdiv.
  destruct (SFdiv_core_binary prec emax (Z.pos m) e (Z.pos my) ey)
    as [[mz ez] lz] eqn:E.
  apply binary_round_aux_not_nan.
  unfold SFdiv_core_binary in E.
  set (s' := (e - ey - _)) in E.
  set (m' := match s' with Z.pos _ => _ | _ => _ end) in E.
  assert (Hm' : 0 <= m').
  { subst m'. destruct s'; try lia. apply Z.shiftl_nonneg. lia. }
  pose proof (Z.div_pos m' (Z.pos my) Hm' ltac:(lia)) as Hq.
  unfold Z.div in Hq.
  destruct (Z.div_eucl m' (Z.pos my)) as [q r].
  simpl in Hq. inversion E; subst. exact Hq.
Qed.

(** The value [round_up] returns is never a NaN: it is the quotient of an
    int by [10**4]. *)
Lemma round_up_not_nan (n y : float) :
  round_up n 4 = Ok y -> isnan y = false.
Proof.
  unfold round_up. destruct (math_ceil _) as [c|e]; [|discriminate].
  intros [= <-].
  change (of_Z (10 ^ Z.of_nat 4)) with (S754_finite false 5497558138880000 (-39)).
  apply fdiv_finite_not_nan, of_Z_not_nan.
Qed.

(** [round_up] raises exactly when the product [n * 10**decimals] is a
    NaN or an infinity. *)
Lemma round_up_ok_iff (n : float) (decimals : nat) :
  (exists y, round_up n decimals = Ok y) <->
  is_finite (fmul n (of_Z (10 ^ Z.of_nat decimals))) = true.
Proof.
  unfold round_up.
  destruct (fmul n _) as [s|s| |s m e]; simpl; split;
    try discriminate; try (intros [y Hy]; discriminate); eauto.
Qed.

Lemma round_up_nan (n : float) (decimals : nat) :
  isnan n = true -> round_up n decimals = Raise ValueError.
Proof.
  destruct n; try discriminate. intros _. unfold round_up.
  replace (fmul S754_nan _) with S754_nan; [reflexivity|].
  unfold fmul, SFmul. reflexivity.
Qed.

End FloatFacts.

(** ** Integer conversions: ceiling and truncation *)

Section IntegerConversions.

Lemma pow2_pos (k : Z) : 0 <= k -> 0 < 2 ^ k.
Proof. intros H. apply Z.pow_pos_nonneg; lia. Qed.

(** For a negative exponent, [ceil_m2e m e] is the least integer [c] with
    [m * 2^e <= c], written without fractions. *)
Lemma ceil_m2e_least (m e : Z) :
  e < 0 ->
  m <= ceil_m2e m e * 2 ^ (- e) /\ (ceil_m2e m e - 1) * 2 ^ (- e) < m.
Proof.
  intros He. unfold ceil_m2e.
  destruct (Z.leb_spec 0 e) as [H|_]; [lia|].
  pose proof (pow2_pos (- e) ltac:(lia)) as Hd.
  set (d := 2 ^ (- e)) in *.
  pose proof (Z.div_mod (- m) d ltac:(lia)) as Hdm.
  pose proof (Z.mod_pos_bound (- m) d Hd) as Hb.
  set (q := (- m) / d) in *. set (r := (- m) mod d) in *.
  split; nia.
Qed.

Lemma ceil_m2e_integral (m e : Z) : 0 <= e -> ceil_m2e m e = m * 2 ^ e.
Proof.
  intros He. unfold ceil_m2e.
  destruct (Z.leb_spec 0 e); [reflexivity|lia].
Qed.

(** For a negative exponent, [trunc_m2e m e] is [m * 2^e] with its
    fractional part dropped: toward zero, for either sign. *)
Lemma trunc_m2e_toward_zero (m e : Z) :
  e < 0 ->
  Z.abs (trunc_m2e m e) * 2 ^ (- e) <= Z.abs m
  /\ Z.abs m < (Z.abs (trunc_m2e m e) + 1) * 2 ^ (- e)
  /\ 0 <= trunc_m2e m e * m.
Proof.
  intros He. unfold trunc_m2e.
  destruct (Z.leb_spec 0 e) as [H|_]; [lia|].
  pose proof (pow2_pos (- e) ltac:(lia)) as Hd.
  set (d := 2 ^ (- e)) in *.
  pose proof (Z.quot_rem' m d) as Hqr.
  destruct (Z.le_gt_cases 0 m) as [Hm|Hm].
  - pose proof (Z.rem_bound_pos m d Hm Hd) as Hb.
    pose proof (Z.quot_pos m d Hm Hd) as Hq.
    rewrite (Z.abs_eq m) by lia.
    rewrite (Z.abs_eq (Z.quot m d)) by lia.
    set (q := Z.quot m d) in *. set (r := Z.rem m d) in *.
    repeat split; nia.
  - pose proof (Z.rem_bound_pos (- m) d ltac:(lia) Hd) as Hb.
    pose proof (Z.quot_pos (- m) d ltac:(lia) Hd) as Hq.
    rewrite Z.rem_opp_l in Hb by lia. rewrite Z.quot_opp_l in Hq by lia.
    rewrite (Z.abs_neq m) by lia.
    rewrite (Z.abs_neq (Z.quot m d)) by lia.
    set (q := Z.quot m d) in *. set (r := Z.rem m d) in *.
    repeat split; nia.
Qed.

Lemma math_ceil_finite (x : float) :
  is_finite x = true -> exists c, math_ceil x = Ok c.
Proof. destruct x; simpl; try discriminate; eauto. Qed.

Lemma py_int_finite (x : float) :
  is_finite x = true -> exists n, py_int x = Ok n.
Proof. destruct x; simpl; try discriminate; eauto. Qed.

Lemma py_int_ok_finite (x : float) (n : Z) :
  py_int x = Ok n -> is_finite x = true.
Proof. destruct x; simpl; try discriminate; auto. Qed.

End IntegerConversions.

(** ** Appending to the workbook *)

Section Appending.

Lemma wb_app_empty (wb : Workbook) : wb_app wb empty_wb = wb.
Proof.
  destruct wb; unfold wb_app; simpl. now rewrite !app_nil_r.
Qed.

Lemma wb_app_assoc (a b c : Workbook) :
  wb_app (wb_app a b) c = wb_app a (wb_app b c).
Proof. unfold wb_app; simpl. now rewrite !app_assoc. Qed.

Lemma wb_app_inj (wb a b : Workbook) : wb_app wb a = wb_app wb b -> a = b.
Proof.
  destruct a, b; unfold wb_app; simpl. intros [= H1 H2 H3 H4].
  apply app_inv_head in H1, H2, H3, H4. now subst.
Qed.

Lemma append_collection_app r wb out :
  append_collection r (wb_app wb out) = wb_app wb (append_collection r out).
Proof. unfold append_collection, wb_app; simpl. now rewrite app_assoc. Qed.

Lemma append_interval_app r wb out :
  append_interval r (wb_app wb out) = wb_app wb (append_interval r out).
Proof. unfold append_interval, wb_app; simpl. now rewrite app_assoc. Qed.

Lemma append_sample_app r wb out :
  append_sample r (wb_app wb out) = wb_app wb (append_sample r out).
Proof. unfold append_sample, wb_app; simpl. now rewrite app_assoc. Qed.

Lemma append_scalar_app r wb out :
  append_scalar r (wb_app wb out) = wb_app wb (append_scalar r out).
Proof. unfold append_scalar, wb_app; simpl. now rewrite app_assoc. Qed.

End Appending.

Section Framing.

Lemma framed_at {A} (m : M A) (wb out : Workbook) :
  framed m ->
  m (wb_app wb out) = (fst (m out), wb_app wb (snd (m out))).
Proof.
  intros F. rewrite (F (wb_app wb out)), (F out).
  simpl. now rewrite wb_app_assoc.
Qed.

Lemma framed_ret {A} (a : A) : framed (ret a).
Proof. intros wb. unfold ret. simpl. now rewrite wb_app_empty. Qed.

Lemma framed_lift {A} (r : result A) : framed (lift r).
Proof. intros wb. unfold lift. simpl. now rewrite wb_app_empty. Qed.

Lemma framed_bind {A B} (m : M A) (k : A -> M B) :
  framed m -> (forall a, framed (k a)) -> framed (bind m k).
Proof.
  intros Fm Fk wb. unfold bind. rewrite (Fm wb).
  destruct (m empty_wb) as [[a|e] out]; simpl.
  - rewrite (framed_at (k a) wb out (Fk a)).
    rewrite <- (wb_app_empty out) at 2 3.
    rewrite (framed_at (k a) out empty_wb (Fk a)). simpl.
    rewrite (Fk a out). simpl. reflexivity.
  - reflexivity.
Qed.

End Framing.

Section Emitters.

Lemma run_framed {A} (m : M A) (wb : Workbook) :
  framed m -> m wb = (outcome m, wb_app wb (emitted m)).
Proof. intros F. apply F. Qed.

Lemma outcome_bind {A B} (m : M A) (k : A -> M B) :
  framed m -> (forall a, framed (k a)) ->
  outcome (bind m k) =
    match outcome m with Ok a => outcome (k a) | Raise e => Raise e end.
Proof.
  intros Fm Fk. unfold outcome, bind.
  destruct (m empty_wb) as [[a|e] out]; simpl; [|reflexivity].
  now rewrite (Fk a out).
Qed.

Lemma emitted_bind {A B} (m : M A) (k : A -> M B) :
  framed m -> (forall a, framed (k a)) ->
  emitted (bind m k) =
    match outcome m with
    | Ok a => wb_app (emitted m) (emitted (k a))
    | Raise _ => emitted m
    end.
Proof.
  intros Fm Fk. unfold emitted, outcome, bind.
  destruct (m empty_wb) as [[a|e] out]; simpl; [|reflexivity].
  now rewrite (Fk a out).
Qed.

Lemma framed_modify_collection r : framed (modify (append_collection r)).
Proof.
  intros wb. unfold modify; simpl.
  now rewrite <- append_collection_app, wb_app_empty.
Qed.

Lemma framed_modify_interval r : framed (modify (append_interval r)).
Proof.
  intros wb. unfold modify; simpl.
  now rewrite <- append_interval_app, wb_app_empty.
Qed.

Lemma framed_modify_sample r : framed (modify (append_sample r)).
Proof.
  intros wb. unfold modify; simpl.
  now rewrite <- append_sample_app, wb_app_empty.
Qed.

Lemma framed_modify_scalar r : framed (modify (append_scalar r)).
Proof.
  intros wb. unfold modify; simpl.
  now rewrite <- append_scalar_app, wb_app_empty.
Qed.

Hint Resolve framed_ret framed_lift framed_bind framed_modify_collection
  framed_modify_interval framed_modify_sample framed_modify_scalar : framed.

Lemma framed_add_section_interval_collection inputs :
  framed (add_section_interval_collection inputs).
Proof. unfold add_section_interval_collection. auto with framed. Qed.

Lemma framed_scalar_properties_loop sid r items :
  framed (scalar_properties_loop sid r items).
Proof.
  induction items as [|[c b] items IH]; simpl; auto 6 with framed.
Qed.

Lemma framed_add_scalar_properties sid r : framed (add_scalar_properties sid r).
Proof. apply framed_scalar_properties_loop. Qed.

Lemma framed_add_samples wi coll iid idx r :
  framed (add_samples wi coll iid idx r).
Proof.
  unfold add_samples. auto using framed_add_scalar_properties with framed.
Qed.

Lemma framed_section_intervals_loop wi site coll rows :
  framed (section_intervals_loop wi site coll rows).
Proof.
  induction rows as [|[idx r] rows IH]; simpl; auto with framed.
  apply framed_bind; auto with framed. intros A.
  apply framed_bind; auto with framed. intros B.
  destruct (B >? MAX_DEPTH); auto 6 using framed_add_samples with framed.
Qed.

Lemma framed_add_section_intervals wi site smr_data :
  framed (add_section_intervals wi site smr_data).
Proof. apply framed_section_intervals_loop. Qed.

(** X5. A run only appends rows to the four sheets, and which rows it
    appends does not depend on what the workbook already holds. *)
Lemma framed_main_loop smr_data smr_metadata :
  framed (main_loop smr_data smr_metadata).
Proof.
  induction smr_metadata as [|wi rest IH]; simpl; auto with framed.
  apply framed_bind; [apply framed_add_section_interval_collection|].
  intros site. apply framed_bind; [apply framed_add_section_intervals|auto].
Qed.

End Emitters.

(** ** What the scalar-property and sample emitters append *)

Section ScalarAndSample.

Lemma scalar_properties_loop_run sid r items :
  forall wb,
    scalar_properties_loop sid r items wb =
      (scalar_outcome r items, wb_app wb (scalars_only (scalar_rows sid r items))).
Proof.
  induction items as [|[c b] items IH]; intros wb; simpl.
  - unfold ret. now rewrite wb_app_empty.
  - run_monad.
    destruct (round_up (get_band r b) 4) as [y|e] eqn:E.
    + rewrite (round_up_not_nan _ _ E), IH.
      f_equal. destruct wb; unfold wb_app, append_scalar; simpl.
      now rewrite <- !app_assoc, !app_nil_r.
    + now rewrite wb_app_empty.
Qed.

Lemma add_scalar_properties_run sid r wb :
  add_scalar_properties sid r wb =
    (scalar_outcome r lmh, wb_app wb (scalars_only (scalar_rows sid r lmh))).
Proof. apply scalar_properties_loop_run. Qed.

Lemma add_samples_run wi coll iid idx r wb :
  let sid := make_sample_id r.(site_name) idx in
  add_samples wi coll iid idx r wb =
    (scalar_outcome r lmh,
     wb_app wb {| SECTION_INTERVAL_COLLECTION := [];
                  SECTION_INTERVALS := [];
                  SAMPLES := [sample_row wi coll iid sid];
                  SCALAR_PROPERTIES := scalar_rows sid r lmh |}).
Proof.
  intros sid. unfold add_samples. run_monad.
  fold sid. rewrite add_scalar_properties_run. f_equal.
  destruct wb; unfold wb_app, append_sample; simpl.
  now rewrite !app_nil_r.
Qed.

(** The scalar rows of one sample: never more than three, and three exactly
    when the loop completes. *)
Lemma scalar_rows_length_le sid r items :
  (List.length (scalar_rows sid r items) <= List.length items)%nat.
Proof.
  induction items as [|[c b] items IH]; simpl; [lia|].
  destruct (round_up _ 4); simpl; lia.
Qed.

Lemma scalar_rows_length_ok sid r items :
  scalar_outcome r items = Ok tt ->
  List.length (scalar_rows sid r items) = List.length items.
Proof.
  induction items as [|[c b] items IH]; simpl; [reflexivity|].
  destruct (round_up _ 4); [|discriminate]. intros H. simpl. now rewrite IH.
Qed.

Lemma scalar_rows_length_raise sid r items e :
  scalar_outcome r items = Raise e ->
  (List.length (scalar_rows sid r items) < List.length items)%nat.
Proof.
  induction items as [|[c b] items IH]; simpl; [discriminate|].
  destruct (round_up _ 4); intros H; simpl; [|lia].
  specialize (IH H). lia.
Qed.

(** [scalar_outcome] is [Ok] exactly when every band's product with
    [10**4] is finite. *)
Lemma scalar_outcome_ok_iff r items :
  scalar_outcome r items = Ok tt <->
  Forall (fun it => is_finite (fmul (get_band r (snd it)) (of_Z (10 ^ Z.of_nat 4))) = true)
         items.
Proof.
  induction items as [|[c b] items IH]; simpl.
  - split; auto.
  - pose proof (round_up_ok_iff (get_band r b) 4) as Hiff.
    destruct (round_up (get_band r b) 4) as [y|e].
    + rewrite IH. split.
      * intros H. constructor; [apply Hiff; eauto|exact H].
      * intros H. now inversion H.
    + split; [discriminate|]. intros H. inversion H; subst. simpl in *.
      apply Hiff in H2. destruct H2; discriminate.
Qed.

(** Every scalar row appended carries the sample id, the constants of its
    band, and as value the float [round_up] returned: never the sentinel. *)
Lemma scalar_rows_shape sid r items row :
  In row (scalar_rows sid r items) ->
  exists b y, In b (map snd items)
              /\ round_up (get_band r b) 4 = Ok y
              /\ row = scalar_row sid b (CFloat y).
Proof.
  induction items as [|[c b] items IH]; simpl; [tauto|].
  destruct (round_up (get_band r b) 4) as [y|e] eqn:E; simpl; [|tauto].
  intros [<-|H].
  - exists b, y. auto.
  - destruct (IH H) as (b' & y' & Hin & Hr & ->). exists b', y'. auto.
Qed.

End ScalarAndSample.

(** ** What the interval loop appends *)

Section IntervalLoop.

Variable wi : site_metadata.
Variables site coll : string.

Lemma wb_app_empty_l (wb : Workbook) : wb_app empty_wb wb = wb.
Proof. destruct wb; reflexivity. Qed.

(** One iteration of the loop. *)
Lemma section_intervals_loop_step idx r rows wb :
  section_intervals_loop wi site coll ((idx, r) :: rows) wb =
    match py_int r.(depth_from), py_int r.(depth_to) with
    | Raise e, _ => (Raise e, wb)
    | Ok _, Raise e => (Raise e, wb)
    | Ok _, Ok B =>
        if B >? MAX_DEPTH then (Ok tt, wb)
        else
          let wb1 := wb_app wb (bin_out wi site coll (idx, r)) in
          match scalar_outcome r lmh with
          | Ok _ => section_intervals_loop wi site coll rows wb1
          | Raise e => (Raise e, wb1)
          end
    end.
Proof.
  cbn [section_intervals_loop]. unfold bind at 1, lift at 1.
  destruct (py_int r.(depth_from)) as [A|e] eqn:EA; [|reflexivity].
  unfold bind at 1, lift at 1.
  destruct (py_int r.(depth_to)) as [B|e] eqn:EB; [|reflexivity].
  destruct (B >? MAX_DEPTH); [reflexivity|].
  unfold bind at 1, modify at 1. unfold bind at 1.
  rewrite add_samples_run.
  assert (Hwb : wb_app (append_interval
                          (interval_row coll (make_interval_id site A B) r) wb)
                  {| SECTION_INTERVAL_COLLECTION := [];
                     SECTION_INTERVALS := [];
                     SAMPLES := [sample_row wi coll (make_interval_id site A B)
                                   (make_sample_id r.(site_name) idx)];
                     SCALAR_PROPERTIES :=
                       scalar_rows (make_sample_id r.(site_name) idx) r lmh |}
                = wb_app wb (bin_out wi site coll (idx, r))).
  { unfold bin_out, bin_rows, bin_interval_id, bin_sample_id, int_of; simpl.
    rewrite EA, EB. destruct wb; unfold wb_app, append_interval; simpl.
    now rewrite !app_nil_r. }
  rewrite Hwb. cbv zeta.
  destruct (scalar_outcome r lmh) as [[]|e]; reflexivity.
Qed.

(** The loop stops at the first bin that exceeds [MAX_DEPTH]: the rows
    after it play no part. *)
Lemma section_intervals_loop_cutoff pre ir post wb :
  (exists A, py_int (snd ir).(depth_from) = Ok A) ->
  exceeds (snd ir) = true ->
  section_intervals_loop wi site coll (pre ++ ir :: post) wb =
  section_intervals_loop wi site coll pre wb.
Proof.
  intros [A HA] Hex. revert wb.
  induction pre as [|[idx r] pre IH]; intros wb.
  - destruct ir as [idx r]. rewrite app_nil_l, section_intervals_loop_step.
    simpl in HA, Hex. unfold exceeds in Hex. rewrite HA.
    destruct (py_int r.(depth_to)) as [B|e]; [|discriminate].
    now rewrite Hex.
  - rewrite <- app_comm_cons, !section_intervals_loop_step.
    destruct (py_int r.(depth_from)); [|reflexivity].
    destruct (py_int r.(depth_to)) as [B|e]; [|reflexivity].
    destruct (B >? MAX_DEPTH); [reflexivity|]. cbv zeta.
    destruct (scalar_outcome r lmh); [apply IH|reflexivity].
Qed.

(** The same for the workbook alone, also when the [depth_from] of the bin
    that exceeds does not convert and [int] raises there. *)
Lemma section_intervals_loop_cutoff_state pre ir post wb :
  exceeds (snd ir) = true ->
  snd (section_intervals_loop wi site coll (pre ++ ir :: post) wb) =
  snd (section_intervals_loop wi site coll pre wb).
Proof.
  intros Hex. revert wb.
  induction pre as [|[idx r] pre IH]; intros wb.
  - destruct ir as [idx r]. rewrite app_nil_l, section_intervals_loop_step.
    simpl in Hex. unfold exceeds in Hex.
    destruct (py_int r.(depth_from)); [|reflexivity].
    destruct (py_int r.(depth_to)) as [B|e]; [|discriminate].
    now rewrite Hex.
  - rewrite <- app_comm_cons, !section_intervals_loop_step.
    destruct (py_int r.(depth_from)); [|reflexivity].
    destruct (py_int r.(depth_to)) as [B|e]; [|reflexivity].
    destruct (B >? MAX_DEPTH); [reflexivity|]. cbv zeta.
    destruct (scalar_outcome r lmh); [apply IH|reflexivity].
Qed.

(** Whatever the outcome, the loop has appended the rows of the first [n]
    retained bins, for some [n]; all of them when it completes. *)
Lemma section_intervals_loop_trace rows :
  forall wb, exists n,
    (n <= List.length (retained rows))%nat
    /\ snd (section_intervals_loop wi site coll rows wb) =
         wb_app wb (wb_concat (map (bin_out wi site coll)
                                   (firstn n (retained rows))))
    /\ Forall (fun ir => depths_convert (snd ir)) (firstn n (retained rows))
    /\ (fst (section_intervals_loop wi site coll rows wb) = Ok tt ->
        n = List.length (retained rows)
        /\ Forall (fun ir => scalar_outcome (snd ir) lmh = Ok tt) (retained rows)).
Proof.
  induction rows as [|[idx r] rows IH]; intros wb.
  - exists 0%nat. simpl. unfold ret; simpl. rewrite wb_app_empty. auto.
  - rewrite section_intervals_loop_step. simpl retained. unfold exceeds.
    destruct (py_int r.(depth_from)) as [A|e] eqn:EA.
    2:{ exists 0%nat. simpl. rewrite wb_app_empty.
        repeat split; auto; try lia; discriminate. }
    destruct (py_int r.(depth_to)) as [B|e] eqn:EB.
    2:{ exists 0%nat. simpl. rewrite wb_app_empty.
        repeat split; auto; try lia; discriminate. }
    destruct (B >? MAX_DEPTH) eqn:EM.
    { exists 0%nat. simpl. rewrite wb_app_empty. auto. }
    cbv zeta.
    destruct (scalar_outcome r lmh) as [[]|e] eqn:ES.
    + destruct (IH (wb_app wb (bin_out wi site coll (idx, r))))
        as (n & Hn & Hsnd & Hconv & Hok).
      exists (S n). simpl. repeat split.
      * lia.
      * rewrite Hsnd, wb_app_assoc. reflexivity.
      * constructor; [exists A, B; auto|exact Hconv].
      * destruct (Hok H). lia.
      * destruct (Hok H). constructor; auto.
    + exists 1%nat. simpl. rewrite wb_app_empty. repeat split.
      * lia.
      * constructor; [exists A, B; auto|constructor].
      * discriminate.
      * discriminate.
Qed.

(** The loop completes when the depth columns hold finite numbers and, for
    each retained bin, each percentile times [10**4] is finite. *)
Lemma section_intervals_loop_completes rows :
  Forall (fun ir => is_finite (snd ir).(depth_from) = true
                    /\ is_finite (snd ir).(depth_to) = true) rows ->
  Forall (fun ir => scalar_outcome (snd ir) lmh = Ok tt) (retained rows) ->
  forall wb, fst (section_intervals_loop wi site coll rows wb) = Ok tt.
Proof.
  induction rows as [|[idx r] rows IH]; intros Hd Hs wb.
  - reflexivity.
  - rewrite section_intervals_loop_step.
    inversion Hd as [|? ? [Hf Ht] Hd']; subst. simpl in Hf, Ht.
    destruct (py_int_finite _ Hf) as [A ->].
    destruct (py_int_finite _ Ht) as [B EB]. rewrite EB.
    cbn [retained] in Hs. unfold exceeds in Hs. cbn [snd] in Hs.
    rewrite EB in Hs.
    destruct (B >? MAX_DEPTH); [reflexivity|]. cbv zeta.
    inversion Hs as [|? ? Hs1 Hs2]; subst. cbn [snd] in Hs1. rewrite Hs1.
    now apply IH.
Qed.

End IntervalLoop.

(** ** The sheets of what a site's bins append *)

Section BinSheets.

Variable wi : site_metadata.
Variables site coll : string.

Lemma wb_concat_collection (bins : list (nat * smr_row)) :
  SECTION_INTERVAL_COLLECTION (wb_concat (map (bin_out wi site coll) bins)) = [].
Proof. induction bins as [|ir bins IH]; simpl; auto. Qed.

Lemma wb_concat_intervals (bins : list (nat * smr_row)) :
  SECTION_INTERVALS (wb_concat (map (bin_out wi site coll) bins)) =
    map (fun ir => interval_row coll (bin_interval_id site (snd ir)) (snd ir)) bins.
Proof. induction bins as [|ir bins IH]; simpl; [|rewrite IH]; auto. Qed.

Lemma wb_concat_samples (bins : list (nat * smr_row)) :
  SAMPLES (wb_concat (map (bin_out wi site coll) bins)) =
    map (fun ir => sample_row wi coll (bin_interval_id site (snd ir))
                     (bin_sample_id ir)) bins.
Proof. induction bins as [|ir bins IH]; simpl; [|rewrite IH]; auto. Qed.

Lemma wb_concat_scalars (bins : list (nat * smr_row)) :
  SCALAR_PROPERTIES (wb_concat (map (bin_out wi site coll) bins)) =
    flat_map (fun ir => scalar_rows (bin_sample_id ir) (snd ir) lmh) bins.
Proof. induction bins as [|ir bins IH]; simpl; [|rewrite IH]; auto. Qed.

(** Three scalar rows for each bin whose three values round. *)
Lemma scalars_length_complete (bins : list (nat * smr_row)) :
  Forall (fun ir => scalar_outcome (snd ir) lmh = Ok tt) bins ->
  List.length (flat_map (fun ir => scalar_rows (bin_sample_id ir) (snd ir) lmh) bins)
  = (3 * List.length bins)%nat.
Proof.
  induction 1 as [|ir bins Hir _ IH]; [reflexivity|].
  cbn [flat_map]. rewrite length_app, IH.
  rewrite (scalar_rows_length_ok _ _ _ Hir). simpl. lia.
Qed.

End BinSheets.

(** ** The site's rows and their index *)

Section SiteRows.

Lemma combine_seq_app {A} (a b : list A) (k : nat) :
  combine (seq k (List.length (a ++ b))) (a ++ b) =
  combine (seq k (List.length a)) a
    ++ combine (seq (k + List.length a) (List.length b)) b.
Proof.
  revert k. induction a as [|x a IH]; intros k; simpl.
  - now rewrite Nat.add_0_r.
  - rewrite IH. now rewrite Nat.add_succ_r.
Qed.

Lemma iterrows_app (a b : list smr_row) :
  iterrows (a ++ b) =
  iterrows a ++ combine (seq (List.length a) (List.length b)) b.
Proof. unfold iterrows. now rewrite combine_seq_app. Qed.

Lemma iterrows_length (l : list smr_row) :
  List.length (iterrows l) = List.length l.
Proof.
  unfold iterrows. rewrite length_combine, length_seq. lia.
Qed.

Lemma combine_seq_nth_error {A} (l : list A) (k j i : nat) (x : A) :
  nth_error (combine (seq k (List.length l)) l) j = Some (i, x) ->
  i = (k + j)%nat /\ nth_error l j = Some x.
Proof.
  revert k j. induction l as [|y l IH]; intros k j; simpl.
  - destruct j; discriminate.
  - destruct j as [|j]; simpl.
    + intros [= <- <-]. split; [lia|reflexivity].
    + intros H. destruct (IH _ _ H) as [-> Hx]. split; [lia|exact Hx].
Qed.

(** The [k]-th pair of [iterrows] is the [k]-th row with index [k]. *)
Lemma iterrows_nth_error (l : list smr_row) (j i : nat) (r : smr_row) :
  nth_error (iterrows l) j = Some (i, r) -> i = j /\ nth_error l j = Some r.
Proof. intros H. now apply (combine_seq_nth_error l 0 j i r) in H. Qed.

Lemma select_site_name (site : string) (smr_df : list smr_row) (r : smr_row) :
  In r (select_site site smr_df) -> r.(site_name) = site /\ In r smr_df.
Proof.
  unfold select_site. rewrite filter_In. intros [Hin Heq].
  apply String.eqb_eq in Heq. auto.
Qed.

Lemma select_site_none (site : string) (smr_df : list smr_row) :
  (forall r, In r smr_df -> r.(site_name) <> site) ->
  select_site site smr_df = [].
Proof.
  intros H. unfold select_site.
  induction smr_df as [|r l IH]; simpl; [reflexivity|].
  destruct (String.eqb_spec r.(site_name) site) as [E|_].
  - exfalso. apply (H r); simpl; auto.
  - apply IH. intros r' Hr'. apply H. simpl; auto.
Qed.

Lemma in_get_smr_df (smr_data : list csv_row) (r : smr_row) :
  In r (get_smr_df smr_data) ->
  exists c, In c smr_data
            /\ r.(site_name) = c.(csv_site_name)
            /\ r.(depth_from) = np_round c.(csv_depth_from) 2
            /\ r.(depth_to) = np_round c.(csv_depth_to) 2
            /\ r.(low) = c.(p5) /\ r.(median) = c.(p50) /\ r.(high) = c.(p95).
Proof.
  unfold get_smr_df. rewrite in_map_iff. intros (c & <- & Hc).
  exists c. simpl. auto 10.
Qed.

(** The retained bins are a prefix of the rows. *)
Lemma retained_prefix (rows : list (nat * smr_row)) :
  exists rest, rows = retained rows ++ rest.
Proof.
  induction rows as [|ir rows [rest IH]]; simpl.
  - now exists [].
  - destruct (exceeds (snd ir)).
    + now exists (ir :: rows).
    + exists rest. simpl. now rewrite <- IH.
Qed.

Lemma retained_all (rows : list (nat * smr_row)) :
  Forall (fun ir => exceeds (snd ir) = false) rows -> retained rows = rows.
Proof.
  induction 1 as [|ir rows H _ IH]; simpl; [reflexivity|].
  now rewrite H, IH.
Qed.

Lemma retained_not_exceeds (rows : list (nat * smr_row)) :
  Forall (fun ir => exceeds (snd ir) = false) (retained rows).
Proof.
  induction rows as [|ir rows IH]; simpl; [constructor|].
  destruct (exceeds (snd ir)) eqn:E; constructor; auto.
Qed.

Lemma retained_length (rows : list (nat * smr_row)) :
  (List.length (retained rows) <= List.length rows)%nat.
Proof.
  destruct (retained_prefix rows) as [rest H].
  rewrite H at 2. rewrite length_app. lia.
Qed.

Lemma nth_error_retained (rows : list (nat * smr_row)) (n j : nat) ir :
  nth_error (firstn n (retained rows)) j = Some ir ->
  nth_error rows j = Some ir.
Proof.
  intros H.
  assert (Hj : nth_error (retained rows) j = Some ir).
  { destruct (Nat.lt_ge_cases j n) as [Hlt|Hge].
    - now rewrite nth_error_firstn in H;
        destruct (Nat.ltb_spec j n); [|lia].
    - assert (Hnone : nth_error (firstn n (retained rows)) j = None).
      { apply nth_error_None. rewrite length_firstn. lia. }
      congruence. }
  destruct (retained_prefix rows) as [rest Hr]. rewrite Hr.
  rewrite nth_error_app1; [exact Hj|].
  apply nth_error_Some. congruence.
Qed.

End SiteRows.

(** ** Identifiers: the strings built from site names and ints *)

Section Identifiers.

Lemma list_of_append (a b : string) :
  list_ascii_of_string (a ++ b)%string =
  list_ascii_of_string a ++ list_ascii_of_string b.
Proof. induction a as [|c a IH]; simpl; [|rewrite IH]; reflexivity. Qed.

Lemma list_of_string_inj (a b : string) :
  list_ascii_of_string a = list_ascii_of_string b -> a = b.
Proof.
  intros H. rewrite <- (string_of_list_ascii_of_string a).
  rewrite <- (string_of_list_ascii_of_string b). now rewrite H.
Qed.

Lemma append_inv_tail (a b s : string) :
  (a ++ s)%string = (b ++ s)%string -> a = b.
Proof.
  intros H. apply list_of_string_inj.
  apply (f_equal list_ascii_of_string) in H.
  rewrite !list_of_append in H. now apply app_inv_tail in H.
Qed.

Lemma append_inv_head (s a b : string) :
  (s ++ a)%string = (s ++ b)%string -> a = b.
Proof.
  intros H. apply list_of_string_inj.
  apply (f_equal list_ascii_of_string) in H.
  rewrite !list_of_append in H. now apply app_inv_head in H.
Qed.

(** A collection name determines its site. *)
Lemma collection_name_inj (s s' : string) :
  (s ++ COLLECTION_NAME_POSTFIX)%string = (s' ++ COLLECTION_NAME_POSTFIX)%string ->
  s = s'.
Proof. apply append_inv_tail. Qed.

(** A site name is never its own collection name. *)
Lemma site_name_not_collection_name (s : string) :
  s <> (s ++ COLLECTION_NAME_POSTFIX)%string.
Proof.
  intros H. apply (f_equal list_ascii_of_string) in H.
  rewrite list_of_append in H.
  rewrite <- (app_nil_r (list_ascii_of_string s)) in H at 1.
  apply app_inv_head in H. discriminate.
Qed.

Lemma string_of_uint_digits (d : Decimal.uint) :
  Forall (fun a => is_digit a = true)
         (list_ascii_of_string (NilEmpty.string_of_uint d)).
Proof. induction d; simpl; constructor; auto. Qed.

Lemma py_str_inj (m n : Z) : py_str m = py_str n -> m = n.
Proof.
  unfold py_str. intros H. apply DecimalZ.to_int_inj.
  apply (f_equal NilEmpty.int_of_string) in H.
  rewrite !NilEmpty.isi in H. now injection H.
Qed.

Lemma py_str_pos_digits (p : positive) :
  Forall (fun a => is_digit a = true) (list_ascii_of_string (py_str (Z.pos p))).
Proof. unfold py_str. simpl. apply string_of_uint_digits. Qed.

(** Two lists that agree and are cut at the first element failing [P]
    are cut at the same place. *)
Lemma cut_at_first {A} (P : A -> Prop) (x : A) (l1 l2 r1 r2 : list A) :
  Forall P l1 -> Forall P l2 -> ~ P x ->
  l1 ++ x :: r1 = l2 ++ x :: r2 -> l1 = l2 /\ r1 = r2.
Proof.
  intros H1. revert l2. induction H1 as [|a l1 Ha _ IH]; intros l2 H2 Hx E.
  - destruct H2 as [|b l2 Hb _]; simpl in E.
    + injection E as ->. auto.
    + injection E as -> _. contradiction.
  - destruct H2 as [|b l2 Hb H2]; simpl in E.
    + injection E as <- _. contradiction.
    + injection E as -> E. destruct (IH l2 H2 Hx E) as [-> ->]. auto.
Qed.

(** A sample id determines its site name and its sequence number. *)
Lemma make_sample_id_inj (s s' : string) (k k' : nat) :
  make_sample_id s k = make_sample_id s' k' -> s = s' /\ k = k'.
Proof.
  unfold make_sample_id. intros H.
  apply (f_equal list_ascii_of_string) in H.
  rewrite !list_of_append in H.
  apply (f_equal (@List.rev ascii)) in H.
  rewrite !rev_app_distr in H. simpl in H. rewrite <- !app_assoc in H.
  simpl in H.
  assert (Hp : forall n : nat, exists p, Z.of_nat n + 1 = Z.pos p).
  { intros n. exists (Pos.of_succ_nat n). lia. }
  destruct (Hp k) as [p Ep]. destruct (Hp k') as [p' Ep'].
  rewrite Ep, Ep' in H.
  apply (cut_at_first (fun a => is_digit a = true)) in H.
  - destruct H as [Hd Hs]. injection Hs as Hs.
    apply (f_equal (@List.rev ascii)) in Hd, Hs.
    rewrite !rev_involutive in Hd, Hs.
    apply list_of_string_inj in Hd, Hs.
    apply py_str_inj in Hd. split; [exact Hs|lia].
  - apply Forall_rev, py_str_pos_digits.
  - apply Forall_rev, py_str_pos_digits.
  - discriminate.
Qed.

End Identifiers.

(** ** One pass over a site *)

Section SitePass.

Lemma append_collection_wb_app r wb :
  append_collection r wb = wb_app wb (collections_only [r]).
Proof.
  destruct wb; unfold append_collection, wb_app; simpl.
  now rewrite !app_nil_r.
Qed.

Lemma site_pass_run smr_data wi wb :
  site_pass smr_data wi wb =
    add_section_intervals wi wi.(Measured_section_name) smr_data
      (append_collection (collection_row wi) wb).
Proof. reflexivity. Qed.

Lemma main_loop_cons smr_data wi rest wb :
  main_loop smr_data (wi :: rest) wb =
    match site_pass smr_data wi wb with
    | (Ok _, wb') => main_loop smr_data rest wb'
    | (Raise e, wb') => (Raise e, wb')
    end.
Proof.
  rewrite site_pass_run. cbn [main_loop].
  unfold add_section_interval_collection. run_monad.
  destruct (add_section_intervals wi _ smr_data _) as [[[]|e] wb']; reflexivity.
Qed.

(** The run over [before ++ after] is the run over [before] and then, when
    that one completes, the run over [after]. *)
Lemma main_loop_app smr_data before after :
  forall wb,
    main_loop smr_data (before ++ after) wb =
      match main_loop smr_data before wb with
      | (Ok _, wb') => main_loop smr_data after wb'
      | (Raise e, wb') => (Raise e, wb')
      end.
Proof.
  induction before as [|wi before IH]; intros wb; [reflexivity|].
  rewrite <- app_comm_cons, !main_loop_cons.
  destruct (site_pass smr_data wi wb) as [[[]|e] wb1]; [apply IH|reflexivity].
Qed.

(** The run only appends, and what it appends does not depend on the
    workbook it starts from. *)
Lemma main_only_appends (smr_data : list csv_row)
    (smr_metadata : list site_metadata) (wb : Workbook) :
  main smr_data smr_metadata wb
  = (fst (main smr_data smr_metadata empty_wb),
     wb_app wb (snd (main smr_data smr_metadata empty_wb))).
Proof.
  unfold main. revert wb. change (framed (main_loop smr_data smr_metadata)).
  induction smr_metadata as [|wi rest IH]; simpl.
  - apply framed_ret.
  - apply framed_bind; [apply framed_add_section_interval_collection|].
    intros site. apply framed_bind; [apply framed_add_section_intervals|].
    intros _. exact IH.
Qed.

(** Whatever its outcome, a pass has appended the collection row and the
    rows of the first [n] retained bins; all of them when it completes. *)
Lemma site_pass_trace smr_data wi wb :
  let site := wi.(Measured_section_name) in
  let coll := (site ++ COLLECTION_NAME_POSTFIX)%string in
  exists n,
    (n <= List.length (retained_bins site smr_data))%nat
    /\ snd (site_pass smr_data wi wb) =
         wb_app wb
           (wb_app (collections_only [collection_row wi])
              (wb_concat (map (bin_out wi site coll)
                            (firstn n (retained_bins site smr_data)))))
    /\ Forall (fun ir => depths_convert (snd ir))
              (firstn n (retained_bins site smr_data))
    /\ (fst (site_pass smr_data wi wb) = Ok tt ->
        n = List.length (retained_bins site smr_data)
        /\ Forall (fun ir => scalar_outcome (snd ir) lmh = Ok tt)
                  (retained_bins site smr_data)).
Proof.
  intros site coll. rewrite site_pass_run. unfold add_section_intervals.
  fold site. fold coll. fold (site_rows site smr_data).
  destruct (section_intervals_loop_trace wi site coll (site_rows site smr_data)
              (append_collection (collection_row wi) wb))
    as (n & Hn & Hsnd & Hconv & Hok).
  exists n. repeat split; auto.
  - rewrite Hsnd, append_collection_wb_app, wb_app_assoc. reflexivity.
  - now apply Hok.
  - now apply Hok.
Qed.

(** X1. A completed pass appends 1 collection row and, for [N] retained
    bins, [N] interval rows, [N] sample rows and [3N] scalar property rows. *)
Lemma site_pass_counts_completed smr_data wi wb wb' :
  site_pass smr_data wi wb = (Ok tt, wb') ->
  let N := List.length (retained_bins wi.(Measured_section_name) smr_data) in
  exists out,
    wb' = wb_app wb out
    /\ List.length out.(SECTION_INTERVAL_COLLECTION) = 1%nat
    /\ List.length out.(SECTION_INTERVALS) = N
    /\ List.length out.(SAMPLES) = N
    /\ List.length out.(SCALAR_PROPERTIES) = (3 * N)%nat.
Proof.
  intros Hrun N.
  destruct (site_pass_trace smr_data wi wb) as (n & Hn & Hsnd & _ & Hok).
  rewrite Hrun in Hsnd, Hok. cbn [fst snd] in Hsnd, Hok.
  destruct (Hok eq_refl) as [-> Hs]. rewrite firstn_all in Hsnd.
  eexists. split; [exact Hsnd|].
  cbn [wb_app collections_only SECTION_INTERVAL_COLLECTION SECTION_INTERVALS
       SAMPLES SCALAR_PROPERTIES app].
  rewrite wb_concat_collection, wb_concat_intervals, wb_concat_samples,
    wb_concat_scalars, !app_nil_l, !length_map.
  rewrite (scalars_length_complete _ Hs). auto.
Qed.

(** X2. A pass completes when the site's depths are finite numbers and each
    retained percentile times [10**4] is finite. *)
Lemma site_pass_completes smr_data wi wb :
  let site := wi.(Measured_section_name) in
  Forall (fun ir => is_finite (snd ir).(depth_from) = true
                    /\ is_finite (snd ir).(depth_to) = true)
         (site_rows site smr_data) ->
  Forall (fun ir => scalar_outcome (snd ir) lmh = Ok tt)
         (retained_bins site smr_data) ->
  fst (site_pass smr_data wi wb) = Ok tt.
Proof.
  intros site Hd Hs. rewrite site_pass_run.
  now apply section_intervals_loop_completes.
Qed.

End SitePass.

(** X1, witness: the pass over site S1, which has two retained bins. *)
Lemma site_pass_counts_witness :
  let run := site_pass Examples.four_bins (Examples.meta "S1") empty_wb in
  run = (Ok tt, snd run)
  /\ List.length (retained_bins "S1" Examples.four_bins) = 2%nat
  /\ exists out,
       snd run = wb_app empty_wb out
       /\ List.length out.(SECTION_INTERVAL_COLLECTION) = 1%nat
       /\ List.length out.(SECTION_INTERVALS)
          = List.length (retained_bins "S1" Examples.four_bins)
       /\ List.length out.(SAMPLES)
          = List.length (retained_bins "S1" Examples.four_bins)
       /\ List.length out.(SCALAR_PROPERTIES)
          = (3 * List.length (retained_bins "S1" Examples.four_bins))%nat.
Proof.
  intros run.
  assert (Hrun : run = (Ok tt, snd run)) by (vm_compute; reflexivity).
  split; [exact Hrun|]. split; [vm_compute; reflexivity|].
  exact (site_pass_counts_completed Examples.four_bins (Examples.meta "S1")
           empty_wb (snd run) Hrun).
Defined.

(** X2, witness: the pass over site S1. *)
Lemma site_pass_completes_witness :
  Forall (fun ir => is_finite (snd ir).(depth_from) = true
                    /\ is_finite (snd ir).(depth_to) = true)
         (site_rows "S1" Examples.four_bins)
  /\ Forall (fun ir => scalar_outcome (snd ir) lmh = Ok tt)
            (retained_bins "S1" Examples.four_bins)
  /\ fst (site_pass Examples.four_bins (Examples.meta "S1") empty_wb) = Ok tt.
Proof.
  assert (H1 : Forall (fun ir => is_finite (snd ir).(depth_from) = true
                                 /\ is_finite (snd ir).(depth_to) = true)
                      (site_rows "S1" Examples.four_bins)).
  { set (rows := site_rows "S1" Examples.four_bins).
    vm_compute in rows. subst rows.
    repeat constructor. }
  assert (H2 : Forall (fun ir => scalar_outcome (snd ir) lmh = Ok tt)
                      (retained_bins "S1" Examples.four_bins)).
  { set (bins := retained_bins "S1" Examples.four_bins).
    vm_compute in bins. subst bins.
    repeat constructor; vm_compute; reflexivity. }
  split; [exact H1|]. split; [exact H2|].
  exact (site_pass_completes Examples.four_bins (Examples.meta "S1") empty_wb
           H1 H2).
Defined.

(** * The claims *)

(** ** C9: the collection emitter *)

(** C9, counterexample. The claim has the collection emitter return the
    generated collection name. For site "S1" the call returns "S1", which is
    the site name and not the collection name "S1 water content profile". *)
Lemma C9_returns_site_name :
  fst (add_section_interval_collection (Examples.meta "S1") empty_wb) = Ok "S1"
  /\ column 4 (collection_row (Examples.meta "S1"))
     = CStr "S1 water content profile"
  /\ "S1" <> "S1 water content profile".
Proof. repeat split. discriminate. Qed.

(** C9, as amended. Each call of the collection emitter appends exactly one
    row to the Collection sheet and leaves the other sheets as they are; the
    row's collection name is the site name followed by the fixed suffix
    " water content profile"; the call returns the site name (not the
    collection name), and it never raises. *)
Theorem C9_collection_emitter (inputs : site_metadata) (wb : Workbook) :
  exists new_row wb',
    add_section_interval_collection inputs wb
      = (Ok inputs.(Measured_section_name), wb')
    /\ SECTION_INTERVAL_COLLECTION wb'
       = SECTION_INTERVAL_COLLECTION wb ++ [new_row]
    /\ SECTION_INTERVALS wb' = SECTION_INTERVALS wb
    /\ SAMPLES wb' = SAMPLES wb
    /\ SCALAR_PROPERTIES wb' = SCALAR_PROPERTIES wb
    /\ column 4 new_row
       = CStr (inputs.(Measured_section_name) ++ " water content profile")%string
    /\ inputs.(Measured_section_name)
       <> (inputs.(Measured_section_name) ++ COLLECTION_NAME_POSTFIX)%string.
Proof.
  exists (collection_row inputs), (append_collection (collection_row inputs) wb).
  repeat split. apply site_name_not_collection_name.
Qed.

(** ** C10: a site without measurements *)

(** C10. For a metadata site whose name matches no row of the measurement
    frame, the pass completes, appends exactly one Collection row (that of
    the site) and no Interval, Sample or Scalar Property row. A run over this
    site alone returns normally with that one row appended. In a run over
    [before ++ wi :: rest], once the sites of [before] are done, the run has
    appended the Collection row of the site to what [before] left and goes
    on with [rest]: its outcome is that of the run over [rest], and the rows
    it appends after the Collection row are those of [rest]. *)
Theorem C10_site_without_measurements
    (smr_data : list csv_row) (wi : site_metadata)
    (rest : list site_metadata) (wb : Workbook) :
  (forall c, In c smr_data -> c.(csv_site_name) <> wi.(Measured_section_name)) ->
  let wb1 := append_collection (collection_row wi) wb in
  site_pass smr_data wi wb = (Ok tt, wb1)
  /\ SECTION_INTERVAL_COLLECTION wb1
     = SECTION_INTERVAL_COLLECTION wb ++ [collection_row wi]
  /\ SECTION_INTERVALS wb1 = SECTION_INTERVALS wb
  /\ SAMPLES wb1 = SAMPLES wb
  /\ SCALAR_PROPERTIES wb1 = SCALAR_PROPERTIES wb
  /\ main_loop smr_data (wi :: rest) wb = main_loop smr_data rest wb1
  /\ main smr_data [wi] wb = (Ok tt, wb1)
  /\ (forall (before : list site_metadata) (wb' : Workbook),
        main smr_data before wb = (Ok tt, wb') ->
        main smr_data (before ++ wi :: rest) wb
        = (fst (main smr_data rest empty_wb),
           wb_app (append_collection (collection_row wi) wb')
                  (snd (main smr_data rest empty_wb)))).
Proof.
  intros Hnone wb1.
  assert (Hsel : select_site wi.(Measured_section_name) (get_smr_df smr_data) = []).
  { apply select_site_none. intros r Hr.
    destruct (in_get_smr_df _ _ Hr) as (c & Hc & -> & _). now apply Hnone. }
  assert (Hpass : forall w, site_pass smr_data wi w
                            = (Ok tt, append_collection (collection_row wi) w)).
  { intros w. rewrite site_pass_run. unfold add_section_intervals.
    rewrite Hsel. reflexivity. }
  repeat split; auto.
  - now rewrite main_loop_cons, Hpass.
  - unfold main. now rewrite main_loop_cons, Hpass.
  - intros before wb' Hbefore. unfold main in Hbefore |- *.
    rewrite main_loop_app, Hbefore, main_loop_cons, Hpass.
    apply main_only_appends.
Qed.

(** C10, witness: site S3 is in the metadata, between S1 and S2, and has no
    row in the CSV. The run over S1, S3, S2 completes; it has appended the
    Collection rows of the three sites in that order, and no Interval or
    Sample row that carries the collection name of S3. *)
Lemma C10_witness :
  let run := main Examples.four_bins
               [Examples.meta "S1"; Examples.meta "S3"; Examples.meta "S2"]
               empty_wb in
  (forall c, In c Examples.four_bins ->
             c.(csv_site_name) <> (Examples.meta "S3").(Measured_section_name))
  /\ fst run = Ok tt
  /\ map (column 4) (SECTION_INTERVAL_COLLECTION (snd run))
     = [ CStr "S1 water content profile"; CStr "S3 water content profile";
         CStr "S2 water content profile" ]
  /\ count_str 1 "S3 water content profile" (SECTION_INTERVALS (snd run)) = 0%nat
  /\ count_str 1 "S3 water content profile" (SAMPLES (snd run)) = 0%nat.
Proof.
  intros run.
  assert (H : forall c, In c Examples.four_bins ->
                c.(csv_site_name) <> (Examples.meta "S3").(Measured_section_name)).
  { intros c Hc. simpl in Hc.
    repeat (destruct Hc as [<-|Hc]; [discriminate|]). contradiction. }
  split; [exact H|].
  pose proof (proj2 (proj2 (proj2 (proj2 (proj2 (proj2 (proj2
                (C10_site_without_measurements Examples.four_bins
                   (Examples.meta "S3") [Examples.meta "S2"] empty_wb H)))))))
                [Examples.meta "S1"]
                (snd (main Examples.four_bins [Examples.meta "S1"] empty_wb)))
    as Hrun.
  assert (Hbefore : main Examples.four_bins [Examples.meta "S1"] empty_wb
                    = (Ok tt, snd (main Examples.four_bins [Examples.meta "S1"]
                                     empty_wb)))
    by (vm_compute; reflexivity).
  specialize (Hrun Hbefore).
  change (main Examples.four_bins
            ([Examples.meta "S1"] ++ [Examples.meta "S3"; Examples.meta "S2"])
            empty_wb) with run in Hrun.
  rewrite Hrun. cbn [fst snd]. vm_compute. repeat split.
Defined.

(** What the interval emitter has appended, whatever its outcome. *)
Lemma add_section_intervals_trace wi site smr_data wb :
  let coll := (site ++ COLLECTION_NAME_POSTFIX)%string in
  exists n,
    (n <= List.length (retained_bins site smr_data))%nat
    /\ snd (add_section_intervals wi site smr_data wb)
       = wb_app wb (wb_concat (map (bin_out wi site coll)
                                   (firstn n (retained_bins site smr_data))))
    /\ Forall (fun ir => depths_convert (snd ir))
              (firstn n (retained_bins site smr_data))
    /\ (fst (add_section_intervals wi site smr_data wb) = Ok tt ->
        n = List.length (retained_bins site smr_data)
        /\ Forall (fun ir => scalar_outcome (snd ir) lmh = Ok tt)
                  (retained_bins site smr_data)).
Proof.
  intros coll. unfold add_section_intervals. fold coll.
  apply section_intervals_loop_trace.
Qed.

(** ** C2: the loop stops at the first bin beyond MAX_DEPTH *)

(** C2. Let the site's rows of the frame, in their original order, be [pre],
    then a row [r] whose truncated [depth_to] exceeds [MAX_DEPTH = 100], then
    [post], where no row of [pre] exceeds it. The interval emitter then leaves
    the workbook exactly as it does on [pre] alone: the loop ends at [r], and
    neither [r] nor any row of [post] is emitted to any sheet, whatever the
    depths of [post]. What is appended are the rows of the first [n] bins of
    [pre] in their order, all of [pre] when the loop completes. The outcome
    too is that of the loop on [pre] alone when the [depth_from] of [r]
    converts to an int. When the depths of the rows of [pre] convert and
    their percentiles round, the emitter appends exactly the rows of all the
    bins of [pre], in their order, and nothing else, and it returns normally
    when the [depth_from] of [r] converts. *)
Theorem C2_stops_at_first_bin_beyond_max_depth
    (wi : site_metadata) (site : string) (smr_data : list csv_row)
    (wb : Workbook) (pre : list smr_row) (r : smr_row) (post : list smr_row) :
  select_site site (get_smr_df smr_data) = pre ++ r :: post ->
  Forall (fun x => exceeds x = false) pre ->
  exceeds r = true ->
  let coll := (site ++ COLLECTION_NAME_POSTFIX)%string in
  snd (add_section_intervals wi site smr_data wb)
    = snd (section_intervals_loop wi site coll (iterrows pre) wb)
  /\ (exists n,
        (n <= List.length pre)%nat
        /\ snd (add_section_intervals wi site smr_data wb)
           = wb_app wb (wb_concat (map (bin_out wi site coll)
                                       (firstn n (iterrows pre))))
        /\ (fst (add_section_intervals wi site smr_data wb) = Ok tt ->
            n = List.length pre))
  /\ ((exists A, py_int r.(depth_from) = Ok A) ->
      add_section_intervals wi site smr_data wb
      = section_intervals_loop wi site coll (iterrows pre) wb)
  /\ (Forall (fun x => depths_convert x /\ scalar_outcome x lmh = Ok tt) pre ->
      snd (add_section_intervals wi site smr_data wb)
      = wb_app wb (wb_concat (map (bin_out wi site coll) (iterrows pre)))
      /\ ((exists A, py_int r.(depth_from) = Ok A) ->
          fst (add_section_intervals wi site smr_data wb) = Ok tt)).
Proof.
  intros Hsel Hpre Hr coll.
  assert (Hrows : iterrows (select_site site (get_smr_df smr_data))
                  = iterrows pre
                    ++ (List.length pre, r)
                       :: combine (seq (S (List.length pre)) (List.length post)) post).
  { rewrite Hsel, iterrows_app. reflexivity. }
  assert (Hstate : snd (add_section_intervals wi site smr_data wb)
                   = snd (section_intervals_loop wi site coll (iterrows pre) wb)).
  { unfold add_section_intervals. fold coll. rewrite Hrows.
    now apply section_intervals_loop_cutoff_state. }
  assert (Hrun : (exists A, py_int r.(depth_from) = Ok A) ->
                 add_section_intervals wi site smr_data wb
                 = section_intervals_loop wi site coll (iterrows pre) wb).
  { intros HA. unfold add_section_intervals. fold coll. rewrite Hrows.
    now apply section_intervals_loop_cutoff. }
  assert (Hret : retained (iterrows pre) = iterrows pre).
  { apply retained_all. apply Forall_forall. intros [i x] Hin.
    apply in_combine_r in Hin. rewrite Forall_forall in Hpre. now apply Hpre. }
  split; [exact Hstate|]. split; [|split; [exact Hrun|]].
  - assert (Hall : retained_bins site smr_data = iterrows pre).
    { unfold retained_bins, site_rows. rewrite Hrows. clear - Hret Hr.
      induction (iterrows pre) as [|ir l IH]; simpl.
      - now rewrite Hr.
      - simpl in Hret. destruct (exceeds (snd ir)); [discriminate|].
        injection Hret as Hret. now rewrite IH. }
    destruct (add_section_intervals_trace wi site smr_data wb)
      as (n & Hn & Hsnd & _ & Hok).
    rewrite Hall in Hn, Hsnd, Hok. rewrite iterrows_length in Hn, Hok.
    exists n. repeat split; auto. intros H. now apply Hok.
  - intros Hhealthy.
    assert (Hdone : fst (section_intervals_loop wi site coll (iterrows pre) wb)
                    = Ok tt).
    { apply section_intervals_loop_completes.
      - apply Forall_forall. intros [i x] Hin. apply in_combine_r in Hin.
        rewrite Forall_forall in Hhealthy.
        destruct (Hhealthy x Hin) as ((A & B & HA & HB) & _). cbn [snd].
        split; eapply py_int_ok_finite; eassumption.
      - rewrite Hret. apply Forall_forall. intros [i x] Hin.
        apply in_combine_r in Hin. rewrite Forall_forall in Hhealthy.
        now destruct (Hhealthy x Hin). }
    destruct (section_intervals_loop_trace wi site coll (iterrows pre) wb)
      as (n & _ & Hsnd & _ & Hok).
    destruct (Hok Hdone) as (-> & _). rewrite Hret, firstn_all in Hsnd.
    split.
    + now rewrite Hstate.
    + intros HA. now rewrite (Hrun HA).
Qed.

(** C2, witness: site S1 with [depth_to] 10, 50, 105, 60. The emitter returns
    normally and appends the rows of the first two bins, and no other: the
    Interval sheet has the two rows S1_0-10m and S1_10-50m, the Sample sheet
    the two samples S1_L1 and S1_L2, the Scalar Property sheet their six
    rows. *)
Lemma C2_witness :
  let rows := select_site "S1" (get_smr_df Examples.four_bins) in
  let pre := firstn 2 rows in
  let r := nth 2 rows Examples.nan_low_row in
  let post := skipn 3 rows in
  let run := add_section_intervals (Examples.meta "S1") "S1" Examples.four_bins
               empty_wb in
  map (fun x => int_of x.(depth_to)) rows = [10; 50; 105; 60]
  /\ rows = pre ++ r :: post
  /\ Forall (fun x => exceeds x = false) pre
  /\ exceeds r = true
  /\ Forall (fun x => depths_convert x /\ scalar_outcome x lmh = Ok tt) pre
  /\ run = (Ok tt,
            wb_app empty_wb
              (wb_concat (map (bin_out (Examples.meta "S1") "S1"
                                 ("S1" ++ COLLECTION_NAME_POSTFIX)%string)
                              (iterrows pre))))
  /\ map (column 3) (SECTION_INTERVALS (snd run))
     = [CStr "S1_0-10m"; CStr "S1_10-50m"]
  /\ map (column 5) (SAMPLES (snd run)) = [CStr "S1_L1"; CStr "S1_L2"]
  /\ map (column 0) (SCALAR_PROPERTIES (snd run))
     = [CStr "S1_L1"; CStr "S1_L1"; CStr "S1_L1";
        CStr "S1_L2"; CStr "S1_L2"; CStr "S1_L2"].
Proof.
  intros rows pre r post run.
  assert (H1 : rows = pre ++ r :: post) by (vm_compute; reflexivity).
  assert (H2 : Forall (fun x => exceeds x = false) pre) by (repeat constructor).
  assert (H3 : exceeds r = true) by (vm_compute; reflexivity).
  assert (H4 : Forall (fun x => depths_convert x /\ scalar_outcome x lmh = Ok tt)
                      pre).
  { set (l := pre). vm_compute in l. subst l.
    repeat constructor; try (vm_compute; reflexivity);
      (eexists _, _; split; vm_compute; reflexivity). }
  assert (H5 : exists A, py_int r.(depth_from) = Ok A)
    by (eexists; vm_compute; reflexivity).
  split; [vm_compute; reflexivity|].
  split; [exact H1|]. split; [exact H2|]. split; [exact H3|]. split; [exact H4|].
  destruct (proj2 (proj2 (proj2
              (C2_stops_at_first_bin_beyond_max_depth
                 (Examples.meta "S1") "S1" Examples.four_bins empty_wb
                 pre r post H1 H2 H3))) H4) as (Hsnd & Hfst).
  specialize (Hfst H5). fold run in Hsnd, Hfst.
  assert (Hrun : run = (Ok tt,
            wb_app empty_wb
              (wb_concat (map (bin_out (Examples.meta "S1") "S1"
                                 ("S1" ++ COLLECTION_NAME_POSTFIX)%string)
                              (iterrows pre))))).
  { destruct run as [o w]. cbn [fst snd] in Hsnd, Hfst. now subst. }
  split; [exact Hrun|]. rewrite Hrun. cbn [snd].
  vm_compute. repeat split.
Defined.

(** For [depth_to] values 10, 50, 105 (and a later 60) exactly the first two
    bins are emitted: two interval rows, two sample rows, six scalar rows. *)
Example four_bins_emitted :
  let run := add_section_intervals (Examples.meta "S1") "S1" Examples.four_bins
               empty_wb in
  fst run = Ok tt
  /\ map (column 3) (SECTION_INTERVALS (snd run))
     = [CStr "S1_0-10m"; CStr "S1_10-50m"]
  /\ map (column 5) (SAMPLES (snd run)) = [CStr "S1_L1"; CStr "S1_L2"]
  /\ map (column 0) (SCALAR_PROPERTIES (snd run))
     = [CStr "S1_L1"; CStr "S1_L1"; CStr "S1_L1";
        CStr "S1_L2"; CStr "S1_L2"; CStr "S1_L2"].
Proof. vm_compute. repeat split. Qed.

(** ** C6 and C7: interval and sample identifiers *)

Lemma py_int_truncates (x : float) (A : Z) :
  py_int x = Ok A -> truncates_to x A.
Proof.
  destruct x as [s|s| |s m e]; simpl; try discriminate.
  - now intros [= <-].
  - intros [= <-]. destruct (Z.leb_spec 0 e) as [H|H].
    + unfold trunc_m2e. destruct (Z.leb_spec 0 e); [reflexivity|lia].
    + apply trunc_m2e_toward_zero. exact H.
Qed.

(** A bin among the first retained ones is a row of the site, at the
    position its index gives. *)
Lemma retained_bin_origin site smr_data n k ir :
  nth_error (firstn n (retained_bins site smr_data)) k = Some ir ->
  fst ir = k
  /\ nth_error (select_site site (get_smr_df smr_data)) k = Some (snd ir)
  /\ (snd ir).(site_name) = site.
Proof.
  intros H. apply nth_error_retained in H. destruct ir as [i r].
  apply iterrows_nth_error in H. destruct H as [-> Hr]. simpl.
  repeat split; auto.
  apply nth_error_In in Hr. now apply select_site_name in Hr.
Qed.

(** C6. Every row the interval emitter appends to the Intervals sheet comes
    from a CSV row [c] of the site; it carries the depths of [c] rounded to 2
    decimals by the frame builder, and its interval id is
    "{site}_{A}-{B}m" where [A] and [B] are those rounded depths with the
    fractional part dropped ([int], truncation and not rounding). *)
Theorem C6_interval_id
    (wi : site_metadata) (site : string) (smr_data : list csv_row)
    (wb : Workbook) :
  exists new_rows,
    SECTION_INTERVALS (snd (add_section_intervals wi site smr_data wb))
      = SECTION_INTERVALS wb ++ new_rows
    /\ Forall
         (fun new_row =>
            exists c A B,
              In c smr_data /\ c.(csv_site_name) = site
              /\ column 4 new_row = CFloat (np_round c.(csv_depth_from) 2)
              /\ column 5 new_row = CFloat (np_round c.(csv_depth_to) 2)
              /\ py_int (np_round c.(csv_depth_from) 2) = Ok A
              /\ truncates_to (np_round c.(csv_depth_from) 2) A
              /\ py_int (np_round c.(csv_depth_to) 2) = Ok B
              /\ truncates_to (np_round c.(csv_depth_to) 2) B
              /\ column 3 new_row
                 = CStr (site ++ "_" ++ py_str A ++ "-" ++ py_str B ++ "m")%string)
         new_rows.
Proof.
  destruct (add_section_intervals_trace wi site smr_data wb)
    as (n & _ & Hsnd & Hconv & _).
  rewrite Hsnd. cbn [wb_app SECTION_INTERVALS]. rewrite wb_concat_intervals.
  eexists. split; [reflexivity|].
  rewrite Forall_map, Forall_forall. intros ir Hin.
  rewrite Forall_forall in Hconv. destruct (Hconv ir Hin) as (A & B & HA & HB).
  destruct (In_nth_error _ _ Hin) as [k Hk].
  destruct (retained_bin_origin _ _ _ _ _ Hk) as (_ & Hr & Hsite).
  apply nth_error_In, select_site_name in Hr. destruct Hr as [_ Hr].
  destruct (in_get_smr_df _ _ Hr) as (c & Hc & Hs & Hf & Ht & _).
  exists c, A, B. rewrite <- Hf, <- Ht.
  repeat split; auto using py_int_truncates.
  - congruence.
  - unfold column, interval_row, bin_interval_id, make_interval_id, int_of.
    cbn [nth]. now rewrite HA, HB.
Qed.

(** Depths 0.5 to 9.994 and 9.994 to 9.996: the frame builder rounds them to
    0.5, 9.99 and 10.0, and the ids truncate these to 0, 9 and 10. *)
Example interval_id_truncates :
  let data := [ Examples.bin "S1" 50 0 Examples.w05 Examples.w12 Examples.w30 ] in
  let c1 := {| csv_site_name := "S1";
               csv_depth_from := of_dec 5 1; csv_depth_to := of_dec 9994 3;
               p5 := Examples.w05; p50 := Examples.w12; p95 := Examples.w30 |} in
  let c2 := {| csv_site_name := "S1";
               csv_depth_from := of_dec 9994 3; csv_depth_to := of_dec 9996 3;
               p5 := Examples.w05; p50 := Examples.w12; p95 := Examples.w30 |} in
  map (column 3)
      (SECTION_INTERVALS
         (snd (add_section_intervals (Examples.meta "S1") "S1" [c1; c2] empty_wb)))
  = [CStr "S1_0-9m"; CStr "S1_9-10m"].
Proof. vm_compute. reflexivity. Qed.

(** C7. The [k]-th row the interval emitter appends to the Samples sheet
    (from 0) belongs to the [k]-th row of the site's subset of the frame, in
    its order, and its sample id is "{site}_L{k+1}". Hence the sample ids of
    one site are pairwise distinct and their numbers grow with the position
    of the bin: the ids of positions 0, 1, 2 end in _L1, _L2, _L3. *)
Theorem C7_sample_ids
    (wi : site_metadata) (site : string) (smr_data : list csv_row)
    (wb : Workbook) :
  exists new_rows,
    SAMPLES (snd (add_section_intervals wi site smr_data wb))
      = SAMPLES wb ++ new_rows
    /\ (List.length new_rows
        <= List.length (select_site site (get_smr_df smr_data)))%nat
    /\ (forall k new_row,
          nth_error new_rows k = Some new_row ->
          column 5 new_row = CStr (site ++ "_L" ++ py_str (Z.of_nat k + 1))%string
          /\ exists r,
               nth_error (select_site site (get_smr_df smr_data)) k = Some r
               /\ column 5 new_row
                  = CStr (r.(site_name) ++ "_L" ++ py_str (Z.of_nat k + 1))%string
               /\ column 4 new_row = CStr (bin_interval_id site r))
    /\ NoDup (map (column 5) new_rows)
    /\ (forall new_row, nth_error new_rows 0 = Some new_row ->
                        column 5 new_row = CStr (site ++ "_L1")%string)
    /\ (forall new_row, nth_error new_rows 1 = Some new_row ->
                        column 5 new_row = CStr (site ++ "_L2")%string)
    /\ (forall new_row, nth_error new_rows 2 = Some new_row ->
                        column 5 new_row = CStr (site ++ "_L3")%string).
Proof.
  destruct (add_section_intervals_trace wi site smr_data wb)
    as (n & Hn & Hsnd & _ & _).
  rewrite Hsnd. cbn [wb_app SAMPLES]. rewrite wb_concat_samples.
  eexists. split; [reflexivity|].
  set (bins := firstn n (retained_bins site smr_data)).
  set (f := fun ir : nat * smr_row =>
              sample_row wi (site ++ COLLECTION_NAME_POSTFIX)%string
                (bin_interval_id site (snd ir)) (bin_sample_id ir)).
  assert (Hid : forall k new_row,
             nth_error (map f bins) k = Some new_row ->
             column 5 new_row = CStr (make_sample_id site k)
             /\ exists r,
                  nth_error (select_site site (get_smr_df smr_data)) k = Some r
                  /\ column 5 new_row = CStr (make_sample_id r.(site_name) k)
                  /\ column 4 new_row = CStr (bin_interval_id site r)).
  { intros k new_row Hk. rewrite nth_error_map in Hk.
    destruct (nth_error bins k) as [ir|] eqn:E; [|discriminate].
    injection Hk as <-.
    destruct (retained_bin_origin _ _ _ _ _ E) as (Hi & Hr & Hs).
    assert (Hc : column 5 (f ir) = CStr (make_sample_id site k)).
    { unfold f, column, sample_row, bin_sample_id. cbn [nth].
      now rewrite Hi, Hs. }
    split; [exact Hc|]. exists (snd ir).
    rewrite Hc, Hs. repeat split; auto. }
  repeat split.
  - rewrite length_map. unfold bins. rewrite length_firstn.
    pose proof (retained_length (site_rows site smr_data)) as H1.
    unfold retained_bins in *. unfold site_rows in H1 at 2.
    rewrite iterrows_length in H1. lia.
  - now apply Hid.
  - now apply Hid.
  - apply NoDup_nth_error. intros i j Hi E.
    rewrite length_map in Hi. apply nth_error_Some in Hi.
    rewrite nth_error_map in E.
    destruct (nth_error (map f bins) i) as [ri|] eqn:Ei; [|now elim Hi].
    rewrite nth_error_map in E.
    destruct (nth_error (map f bins) j) as [rj|] eqn:Ej; [|discriminate].
    destruct (Hid _ _ Ei) as [Hci _]. destruct (Hid _ _ Ej) as [Hcj _].
    simpl in E. rewrite Hci, Hcj in E. injection E as E.
    now apply make_sample_id_inj in E.
  - intros new_row H. now apply Hid in H.
  - intros new_row H. now apply Hid in H.
  - intros new_row H. now apply Hid in H.
Qed.

(** ** C5: which rounding rule is applied where *)

Lemma math_ceil_is_ceiling (x : float) (c : Z) :
  math_ceil x = Ok c -> is_ceiling x c.
Proof.
  destruct x as [s|s| |s m e]; simpl; try discriminate.
  - now intros [= <-].
  - intros [= <-]. destruct (Z.leb_spec 0 e) as [H|H].
    + now apply ceil_m2e_integral.
    + now apply ceil_m2e_least.
Qed.

(** [rint_m2e m e] is an integer nearest to [m * 2^e], and the even one of
    the two when [m * 2^e] lies half-way. *)
Lemma rint_m2e_nearest (m e : Z) :
  e < 0 ->
  let n := rint_m2e m e in
  2 * Z.abs (m - n * 2 ^ (- e)) <= 2 ^ (- e)
  /\ (2 * Z.abs (m - n * 2 ^ (- e)) = 2 ^ (- e) -> Z.even n = true).
Proof.
  intros He. unfold rint_m2e.
  destruct (Z.leb_spec 0 e) as [H|_]; [lia|].
  pose proof (pow2_pos (- e) ltac:(lia)) as Hd.
  set (d := 2 ^ (- e)) in *.
  pose proof (Z.div_mod m d ltac:(lia)) as Hdm.
  pose proof (Z.mod_pos_bound m d Hd) as Hb.
  set (q := m / d) in *. set (r := m mod d) in *. cbv zeta.
  destruct (Z.compare_spec (2 * r) d) as [E|E|E].
  - destruct (Z.even q) eqn:Eq.
    + split; [|auto]. replace (m - q * d) with r by lia. lia.
    + split.
      * replace (m - (q + 1) * d) with (r - d) by lia. lia.
      * intros _. rewrite Z.even_add, Eq. reflexivity.
  - replace (m - q * d) with r by lia. split; lia.
  - replace (m - (q + 1) * d) with (r - d) by lia. split; lia.
Qed.

(** C5, counterexample. The claim has the depths rounded by the ceiling
    rule at frame-build time. For a CSV depth of 2.001 the frame holds 2.0,
    where the ceiling rule gives 2.01. *)
Lemma C5_depth_rounded_to_nearest :
  let c := {| csv_site_name := "S1";
              csv_depth_from := of_dec 2001 3; csv_depth_to := of_dec 10006 3;
              p5 := Examples.w05; p50 := Examples.w12; p95 := Examples.w30 |} in
  map depth_from (get_smr_df [c]) = [of_dec 200 2]
  /\ round_up c.(csv_depth_from) 2 = Ok (of_dec 201 2)
  /\ of_dec 200 2 <> of_dec 201 2.
Proof. vm_compute. repeat split. discriminate. Qed.

(** C5, as amended. The scalar measurement values are rounded at emission
    time with [round_up] at 4 decimals: the row appended for a band holds the
    float quotient of [c] by [10^4], for [c] the least integer not below the
    float product of the measurement of that band by [10^4]. The product is
    itself rounded to a double before its ceiling is taken, so the value
    emitted is not always at or above the measurement: for the double next
    above 0.0009 it is the double 0.0009, which is lower. The depths do not
    go through [round_up]: the frame builder rounds [depth_from] and
    [depth_to] to 2 decimals with the data frame's own [round], which takes
    the integer nearest to [value * 10^2], the even one on a tie. *)
Theorem C5_rounding_rules :
  (forall (sample_id : string) (r : smr_row) (wb : Workbook),
      exists new_rows,
        SCALAR_PROPERTIES (snd (add_scalar_properties sample_id r wb))
          = SCALAR_PROPERTIES wb ++ new_rows
        /\ Forall
             (fun new_row =>
                exists b c,
                  math_ceil (fmul (get_band r b) (of_Z (10 ^ 4))) = Ok c
                  /\ is_ceiling (fmul (get_band r b) (of_Z (10 ^ 4))) c
                  /\ round_up (get_band r b) 4 = Ok (fdiv (of_Z c) (of_Z (10 ^ 4)))
                  /\ column 13 new_row = CFloat (fdiv (of_Z c) (of_Z (10 ^ 4)))
                  /\ new_row
                     = scalar_row sample_id b
                         (CFloat (fdiv (of_Z c) (of_Z (10 ^ 4)))))
             new_rows)
  /\ (let v := S754_finite false 8301034833169299 (-63) in
      let y := S754_finite false 8301034833169298 (-63) in
      fmul v (of_Z (10 ^ 4)) = of_Z 9
      /\ round_up v 4 = Ok y
      /\ y = of_dec 9 4
      /\ SFcompare y v = Some Lt)
  /\ (forall smr_data : list csv_row,
         map depth_from (get_smr_df smr_data)
           = map (fun c => np_round c.(csv_depth_from) 2) smr_data
         /\ map depth_to (get_smr_df smr_data)
            = map (fun c => np_round c.(csv_depth_to) 2) smr_data)
  /\ (forall (x : float) (decimals : nat),
         np_round x decimals
         = fdiv (np_rint (fmul x (of_Z (10 ^ Z.of_nat decimals))))
                (of_Z (10 ^ Z.of_nat decimals)))
  /\ (forall s m e,
         e < 0 ->
         let x := S754_finite s m e in
         let n := rint_m2e (mant x) (expo x) in
         np_rint x = binary_normalize prec emax n 0 s
         /\ 2 * Z.abs (mant x - n * 2 ^ (- e)) <= 2 ^ (- e)
         /\ (2 * Z.abs (mant x - n * 2 ^ (- e)) = 2 ^ (- e) -> Z.even n = true)).
Proof.
  split; [|split; [vm_compute; repeat split|]].
  - intros sid r wb. rewrite add_scalar_properties_run.
    cbn [snd wb_app scalars_only SCALAR_PROPERTIES].
    eexists. split; [reflexivity|].
    apply Forall_forall. intros new_row Hin.
    destruct (scalar_rows_shape _ _ _ _ Hin) as (b & y & _ & Hy & ->).
    unfold round_up in Hy.
    change (10 ^ Z.of_nat 4) with (10 ^ 4) in Hy.
    destruct (math_ceil (fmul (get_band r b) (of_Z (10 ^ 4)))) as [c|e] eqn:Ec;
      [|discriminate].
    injection Hy as <-. exists b, c.
    repeat split; auto using math_ceil_is_ceiling.
    unfold round_up. change (10 ^ Z.of_nat 4) with (10 ^ 4). now rewrite Ec.
  - repeat split.
    + unfold get_smr_df. now rewrite map_map.
    + unfold get_smr_df. now rewrite map_map.
    + apply (rint_m2e_nearest (mant (S754_finite s m e)) e H).
    + apply (rint_m2e_nearest (mant (S754_finite s m e)) e H).
Qed.

(** ** C4, C8 and C1: a measurement that is not a number *)

(** [round_up] is called before the [np.isnan] test: a NaN measurement makes
    [math.ceil] raise, so the emitter raises on the first NaN band (or on an
    earlier band that does not round). *)
Lemma nan_band_raises (sample_id : string) (r : smr_row) (b : band) (wb : Workbook) :
  isnan (get_band r b) = true ->
  exists e, fst (add_scalar_properties sample_id r wb) = Raise e.
Proof.
  intros Hnan. rewrite add_scalar_properties_run. cbn [fst].
  pose proof (round_up_nan _ 4 Hnan) as Hr.
  unfold lmh, scalar_outcome.
  destruct b; cbn [get_band] in Hr;
    repeat (destruct (round_up _ 4); try discriminate; eauto).
Qed.

(** X3. The [NULL_VALUE] branch is never taken. Every scalar row the emitter
    appends holds as its value the float [round_up] returned for the band of
    the row, and that float is never a NaN, so the [np.isnan] test that
    guards the substitution is false each time it is reached. The number
    -99999 still gets to the sheet, as a float, when it is the measurement
    itself: a low percentile of -99999.0 is emitted as -99999.0. *)
Lemma sentinel_branch_never_taken (sample_id : string) (r : smr_row)
    (wb : Workbook) :
  (exists new_rows,
     SCALAR_PROPERTIES (snd (add_scalar_properties sample_id r wb))
       = SCALAR_PROPERTIES wb ++ new_rows
     /\ Forall (fun new_row =>
                  exists b y,
                    round_up (get_band r b) 4 = Ok y
                    /\ isnan y = false
                    /\ new_row = scalar_row sample_id b (CFloat y)
                    /\ column 13 new_row = CFloat y)
               new_rows)
  /\ (let r0 := {| site_name := "S1";
                   depth_from := of_dec 0 2; depth_to := of_dec 1000 2;
                   low := of_Z NULL_VALUE; median := Examples.w12;
                   high := Examples.w30 |} in
      map (column 13)
          (SCALAR_PROPERTIES (snd (add_scalar_properties sample_id r0 empty_wb)))
      = [ CFloat (of_Z NULL_VALUE); CFloat (of_dec 1235 4); CFloat (of_dec 3 1) ]).
Proof.
  split.
  - rewrite add_scalar_properties_run.
    cbn [snd wb_app scalars_only SCALAR_PROPERTIES].
    eexists. split; [reflexivity|].
    apply Forall_forall. intros new_row Hin.
    destruct (scalar_rows_shape _ _ _ _ Hin) as (b & y & _ & Hy & ->).
    exists b, y. repeat split; [exact Hy|exact (round_up_not_nan _ _ Hy)].
  - intros r0. rewrite add_scalar_properties_run.
    cbn [snd wb_app scalars_only SCALAR_PROPERTIES empty_wb app].
    vm_compute. reflexivity.
Qed.

(** X4. When the three values round, the emitter appends exactly three rows,
    in the order low, median, high, each with the value [round_up] returned
    (see [scalar_row_constants] for the constants of the band). *)
Lemma add_scalar_properties_complete (sample_id : string) (r : smr_row)
    (wb : Workbook) (yl ym yh : float) :
  round_up r.(low) 4 = Ok yl ->
  round_up r.(median) 4 = Ok ym ->
  round_up r.(high) 4 = Ok yh ->
  add_scalar_properties sample_id r wb
  = (Ok tt,
     wb_app wb (scalars_only
                  [ scalar_row sample_id BAYESIAN_LOW (CFloat yl);
                    scalar_row sample_id BAYESIAN_MEDIAN (CFloat ym);
                    scalar_row sample_id BAYESIAN_HIGH (CFloat yh) ])).
Proof.
  intros Hl Hm Hh. rewrite add_scalar_properties_run.
  unfold lmh, scalar_outcome, scalar_rows. cbn [get_band].
  now rewrite Hl, Hm, Hh.
Qed.

(** The fields a scalar row takes from [BAYESIAN_CONSTANTS]. *)
Lemma scalar_row_constants (sample_id : string) (b : band) (v : cell) :
  let k := BAYESIAN_CONSTANTS b in
  column 0 (scalar_row sample_id b v) = CStr sample_id
  /\ column 13 (scalar_row sample_id b v) = v
  /\ column 15 (scalar_row sample_id b v) = CStr k.(RESULT_QUALIFIER)
  /\ column 16 (scalar_row sample_id b v) = CStr k.(UNCERTAINTY_TYPE)
  /\ column 17 (scalar_row sample_id b v) = CInt k.(UNCERTAINTY_VALUE)
  /\ column 18 (scalar_row sample_id b v) = CStr k.(UNCERTAINTY_UOM)
  /\ column 21 (scalar_row sample_id b v) = CStr k.(SP_REMARKS).
Proof. repeat split. Qed.

(** X4, witness: a bin with the percentiles 0.05, 0.12345 and 0.3, which
    round up to 0.05, 0.1235 and 0.3. *)
Lemma add_scalar_properties_complete_witness :
  let r := {| site_name := "S1";
              depth_from := of_dec 0 2; depth_to := of_dec 1000 2;
              low := Examples.w05; median := Examples.w12;
              high := Examples.w30 |} in
  round_up r.(low) 4 = Ok (of_dec 5 2)
  /\ round_up r.(median) 4 = Ok (of_dec 1235 4)
  /\ round_up r.(high) 4 = Ok (of_dec 3 1)
  /\ add_scalar_properties "S1_L1" r empty_wb
     = (Ok tt,
        wb_app empty_wb
          (scalars_only
             [ scalar_row "S1_L1" BAYESIAN_LOW (CFloat (of_dec 5 2));
               scalar_row "S1_L1" BAYESIAN_MEDIAN (CFloat (of_dec 1235 4));
               scalar_row "S1_L1" BAYESIAN_HIGH (CFloat (of_dec 3 1)) ])).
Proof.
  intros r.
  assert (Hl : round_up r.(low) 4 = Ok (of_dec 5 2)) by (vm_compute; reflexivity).
  assert (Hm : round_up r.(median) 4 = Ok (of_dec 1235 4))
    by (vm_compute; reflexivity).
  assert (Hh : round_up r.(high) 4 = Ok (of_dec 3 1)) by (vm_compute; reflexivity).
  split; [exact Hl|]. split; [exact Hm|]. split; [exact Hh|].
  exact (add_scalar_properties_complete "S1_L1" r empty_wb _ _ _ Hl Hm Hh).
Defined.

(** C4, at the failing input: a bin whose low percentile is NaN. The claim
    has the row of that band emitted with the value -99999 and the run go on.
    The emitter raises [ValueError] instead and appends no scalar row, and
    the exception ends the run: the next site is not processed. *)
Lemma C4_nan_measurement_raises :
  isnan (get_band Examples.nan_low_row BAYESIAN_LOW) = true
  /\ add_scalar_properties "S1_L1" Examples.nan_low_row empty_wb
     = (Raise ValueError, empty_wb)
  /\ fst (main Examples.nan_low [Examples.meta "S1"; Examples.meta "S2"] empty_wb)
     = Raise ValueError
  /\ List.length
       (SECTION_INTERVAL_COLLECTION
          (snd (main Examples.nan_low [Examples.meta "S1"; Examples.meta "S2"]
                  empty_wb))) = 1%nat.
Proof. vm_compute. repeat split. Qed.

(** C8, at the failing input: a bin whose median percentile is NaN. The
    claim has three rows appended whatever the number of valid values. The
    emitter appends the row of the low band only and raises [ValueError]. *)
Lemma C8_nan_median_one_row :
  let run := add_scalar_properties "S1_L1" Examples.nan_median_row empty_wb in
  isnan (get_band Examples.nan_median_row BAYESIAN_MEDIAN) = true
  /\ fst run = Raise ValueError
  /\ map (column 15) (SCALAR_PROPERTIES (snd run)) = [CStr "Bayesian low"].
Proof. vm_compute. repeat split. Qed.

(** C1, at the failing input: site S1 with one retained bin ([N = 1]) whose
    low percentile is NaN. The claim has 1, N, N and 3N rows appended. The
    pass appends 1 collection row, 1 interval row, 1 sample row and no scalar
    row, and raises [ValueError]. *)
Lemma C1_nan_site_counts :
  let run := site_pass Examples.nan_low (Examples.meta "S1") empty_wb in
  List.length (retained_bins "S1" Examples.nan_low) = 1%nat
  /\ fst run = Raise ValueError
  /\ List.length (SECTION_INTERVAL_COLLECTION (snd run)) = 1%nat
  /\ List.length (SECTION_INTERVALS (snd run)) = 1%nat
  /\ List.length (SAMPLES (snd run)) = 1%nat
  /\ List.length (SCALAR_PROPERTIES (snd run)) = 0%nat.
Proof. vm_compute. repeat split. Qed.

(** ** C3: rows trace to their collection and to their sample *)

Section Tracing.

Lemma count_str_ids (col : nat) (s : string) (rows : list row) :
  forall ids, map (column col) rows = map CStr ids ->
              count_str col s rows = count_occ string_dec ids s.
Proof.
  unfold count_str.
  induction rows as [|r rows IH]; intros [|i ids] H; try discriminate.
  - reflexivity.
  - simpl in H. injection H as Hr H. cbn [filter count_occ].
    unfold has_str at 1. rewrite Hr.
    destruct (String.eqb_spec i s) as [->|Hne].
    + destruct (string_dec s s); [|contradiction]. simpl. now rewrite (IH ids).
    + destruct (string_dec i s); [contradiction|]. now apply IH.
Qed.

Lemma count_occ_once (ids : list string) (s : string) :
  NoDup ids -> In s ids -> count_occ string_dec ids s = 1%nat.
Proof.
  intros Hnd Hin.
  pose proof (proj1 (NoDup_count_occ string_dec ids) Hnd s) as Hle.
  pose proof (proj1 (count_occ_In string_dec ids s) Hin) as Hgt. lia.
Qed.

Lemma NoDup_flat_map {A B} (f : A -> list B) (l : list A) :
  NoDup l ->
  (forall x, In x l -> NoDup (f x)) ->
  (forall x y b, In x l -> In y l -> In b (f x) -> In b (f y) -> x = y) ->
  NoDup (flat_map f l).
Proof.
  induction 1 as [|a l Ha Hnd IH]; intros Hin Hdis; simpl; [constructor|].
  apply NoDup_app.
  - apply Hin. now left.
  - apply IH.
    + intros x Hx. apply Hin. now right.
    + intros x y b Hx Hy. apply Hdis; now right.
  - intros b Hb Hb'. apply in_flat_map in Hb'. destruct Hb' as (y & Hy & Hby).
    assert (a = y) by (apply (Hdis a y b); simpl; auto). subst. contradiction.
Qed.

Lemma NoDup_map_injective {A B} (f : A -> B) (l : list A) :
  (forall a b, f a = f b -> a = b) -> NoDup l -> NoDup (map f l).
Proof.
  intros Hinj. induction 1 as [|a l Ha _ IH]; simpl; constructor; auto.
  rewrite in_map_iff. intros (b & E & Hb). apply Hinj in E. now subst.
Qed.

(** A completed run has appended, site after site, what each pass appends. *)
Lemma main_loop_completed (smr_data : list csv_row) :
  forall smr_metadata wb wb',
    main_loop smr_data smr_metadata wb = (Ok tt, wb') ->
    wb' = wb_app wb (wb_concat (map (site_out smr_data) smr_metadata)).
Proof.
  induction smr_metadata as [|wi rest IH]; intros wb wb' Hrun.
  - injection Hrun as <-. simpl. now rewrite wb_app_empty.
  - rewrite main_loop_cons in Hrun.
    destruct (site_pass_trace smr_data wi wb) as (n & Hn & Hsnd & _ & Hok).
    destruct (site_pass smr_data wi wb) as [[[]|e] wb1]; [|discriminate].
    cbn [fst snd] in Hsnd, Hok. destruct (Hok eq_refl) as [-> _].
    rewrite firstn_all in Hsnd. apply IH in Hrun. subst wb' wb1.
    cbn [map wb_concat fold_right]. fold (site_out smr_data wi).
    now rewrite wb_app_assoc.
Qed.

Lemma site_out_sheets (smr_data : list csv_row) (wi : site_metadata) :
  let site := wi.(Measured_section_name) in
  let coll := (site ++ COLLECTION_NAME_POSTFIX)%string in
  let bins := retained_bins site smr_data in
  SECTION_INTERVAL_COLLECTION (site_out smr_data wi) = [collection_row wi]
  /\ SECTION_INTERVALS (site_out smr_data wi)
     = map (fun ir => interval_row coll (bin_interval_id site (snd ir)) (snd ir)) bins
  /\ SAMPLES (site_out smr_data wi)
     = map (fun ir => sample_row wi coll (bin_interval_id site (snd ir))
                        (bin_sample_id ir)) bins
  /\ SCALAR_PROPERTIES (site_out smr_data wi)
     = flat_map (fun ir => scalar_rows (bin_sample_id ir) (snd ir) lmh) bins.
Proof.
  intros site coll bins. unfold site_out. fold site. fold coll. fold bins.
  cbn [wb_app collections_only SECTION_INTERVAL_COLLECTION SECTION_INTERVALS
       SAMPLES SCALAR_PROPERTIES].
  rewrite wb_concat_collection, wb_concat_intervals, wb_concat_samples,
    wb_concat_scalars. repeat split.
Qed.

Lemma wb_concat_sheets (outs : list Workbook) :
  SECTION_INTERVAL_COLLECTION (wb_concat outs)
    = flat_map SECTION_INTERVAL_COLLECTION outs
  /\ SECTION_INTERVALS (wb_concat outs) = flat_map SECTION_INTERVALS outs
  /\ SAMPLES (wb_concat outs) = flat_map SAMPLES outs
  /\ SCALAR_PROPERTIES (wb_concat outs) = flat_map SCALAR_PROPERTIES outs.
Proof.
  induction outs as [|o outs (H1 & H2 & H3 & H4)]; simpl; [auto|].
  now rewrite H1, H2, H3, H4.
Qed.

(** The sample ids of a site are those of its name and of the positions
    0, 1, ... of its bins. *)
Lemma site_sample_id_form (smr_data : list csv_row) (wi : site_metadata) (s : string) :
  In s (site_sample_ids smr_data wi) ->
  exists k, s = make_sample_id wi.(Measured_section_name) k.
Proof.
  unfold site_sample_ids. rewrite in_map_iff. intros (ir & <- & Hin).
  destruct (In_nth_error _ _ Hin) as [k Hk].
  rewrite <- (firstn_all (retained_bins _ smr_data)) in Hk.
  destruct (retained_bin_origin _ _ _ _ _ Hk) as (Hi & _ & Hs).
  exists k. unfold bin_sample_id. now rewrite Hi, Hs.
Qed.

Lemma site_sample_ids_NoDup (smr_data : list csv_row) (wi : site_metadata) :
  NoDup (site_sample_ids smr_data wi).
Proof.
  unfold site_sample_ids. apply NoDup_nth_error. intros i j Hi E.
  apply nth_error_Some in Hi. rewrite !nth_error_map in *.
  set (bins := retained_bins _ smr_data) in *.
  destruct (nth_error bins i) as [a|] eqn:Ea; [|now elim Hi].
  destruct (nth_error bins j) as [b|] eqn:Eb; [|discriminate].
  rewrite <- (firstn_all bins) in Ea, Eb. unfold bins in Ea, Eb.
  destruct (retained_bin_origin _ _ _ _ _ Ea) as (Hai & _ & Has).
  destruct (retained_bin_origin _ _ _ _ _ Eb) as (Hbi & _ & Hbs).
  simpl in E. injection E as E. unfold bin_sample_id in E.
  rewrite Hai, Has, Hbi, Hbs in E. now apply make_sample_id_inj in E.
Qed.

Lemma metadata_NoDup (smr_metadata : list site_metadata) :
  NoDup (map Measured_section_name smr_metadata) -> NoDup smr_metadata.
Proof. apply NoDup_map_inv. Qed.

(** With pairwise distinct site names, the sample ids of a run are pairwise
    distinct. *)
Lemma run_sample_ids_NoDup (smr_data : list csv_row)
    (smr_metadata : list site_metadata) :
  NoDup (map Measured_section_name smr_metadata) ->
  NoDup (flat_map (site_sample_ids smr_data) smr_metadata).
Proof.
  intros Hnd. apply NoDup_flat_map.
  - now apply metadata_NoDup.
  - intros wi _. apply site_sample_ids_NoDup.
  - intros x y s Hx Hy Hsx Hsy.
    apply site_sample_id_form in Hsx, Hsy.
    destruct Hsx as [k ->]. destruct Hsy as [k' E].
    apply make_sample_id_inj in E. destruct E as [E _].
    clear - Hnd Hx Hy E. induction smr_metadata as [|a l IH]; [contradiction|].
    simpl in Hnd. inversion Hnd as [|? ? Hna Hnl]; subst.
    destruct Hx as [->|Hx], Hy as [->|Hy]; auto.
    + exfalso. apply Hna. rewrite E. now apply in_map.
    + exfalso. apply Hna. rewrite <- E. now apply in_map.
Qed.

Lemma collection_names_NoDup (smr_metadata : list site_metadata) :
  NoDup (map Measured_section_name smr_metadata) ->
  NoDup (map (fun wi => (wi.(Measured_section_name) ++ COLLECTION_NAME_POSTFIX)%string)
             smr_metadata).
Proof.
  intros Hnd.
  rewrite <- (map_map Measured_section_name
                (fun s => (s ++ COLLECTION_NAME_POSTFIX)%string)).
  apply NoDup_map_injective; [|exact Hnd].
  intros a b. apply collection_name_inj.
Qed.

End Tracing.

Section RunSheets.

Variable smr_data : list csv_row.
Variable smr_metadata : list site_metadata.

Let out : Workbook := wb_concat (map (site_out smr_data) smr_metadata).
Let collection_name_of (wi : site_metadata) : string :=
  (wi.(Measured_section_name) ++ COLLECTION_NAME_POSTFIX)%string.

Lemma flat_map_of_map {A B C} (f : B -> list C) (g : A -> B) (l : list A) :
  flat_map f (map g l) = flat_map (fun x => f (g x)) l.
Proof. induction l as [|a l IH]; simpl; [|rewrite IH]; reflexivity. Qed.

Lemma run_collection_names :
  map (column 4) (SECTION_INTERVAL_COLLECTION out)
  = map CStr (map collection_name_of smr_metadata).
Proof.
  unfold out. rewrite (proj1 (wb_concat_sheets _)), flat_map_of_map.
  induction smr_metadata as [|wi l IH]; [reflexivity|].
  cbn [flat_map map]. rewrite (proj1 (site_out_sheets smr_data wi)).
  rewrite map_app, IH. reflexivity.
Qed.

Lemma run_sample_ids :
  map (column 5) (SAMPLES out)
  = map CStr (flat_map (site_sample_ids smr_data) smr_metadata).
Proof.
  unfold out.
  rewrite (proj1 (proj2 (proj2 (wb_concat_sheets _)))), flat_map_of_map.
  induction smr_metadata as [|wi l IH]; [reflexivity|].
  cbn [flat_map]. rewrite !map_app, IH. f_equal.
  rewrite (proj1 (proj2 (proj2 (site_out_sheets smr_data wi)))).
  unfold site_sample_ids. now rewrite !map_map.
Qed.

Lemma run_interval_row (new_row : row) :
  In new_row (SECTION_INTERVALS out) ->
  exists wi, In wi smr_metadata /\ column 1 new_row = CStr (collection_name_of wi).
Proof.
  unfold out. rewrite (proj1 (proj2 (wb_concat_sheets _))), in_flat_map.
  intros (o & Ho & Hin). apply in_map_iff in Ho. destruct Ho as (wi & <- & Hwi).
  rewrite (proj1 (proj2 (site_out_sheets smr_data wi))) in Hin.
  apply in_map_iff in Hin. destruct Hin as (ir & <- & _).
  now exists wi.
Qed.

Lemma run_sample_row (new_row : row) :
  In new_row (SAMPLES out) ->
  exists wi, In wi smr_metadata /\ column 1 new_row = CStr (collection_name_of wi).
Proof.
  unfold out. rewrite (proj1 (proj2 (proj2 (wb_concat_sheets _)))), in_flat_map.
  intros (o & Ho & Hin). apply in_map_iff in Ho. destruct Ho as (wi & <- & Hwi).
  rewrite (proj1 (proj2 (proj2 (site_out_sheets smr_data wi)))) in Hin.
  apply in_map_iff in Hin. destruct Hin as (ir & <- & _).
  now exists wi.
Qed.

Lemma run_scalar_row (new_row : row) :
  In new_row (SCALAR_PROPERTIES out) ->
  exists s, In s (flat_map (site_sample_ids smr_data) smr_metadata)
            /\ column 0 new_row = CStr s.
Proof.
  unfold out. rewrite (proj2 (proj2 (proj2 (wb_concat_sheets _)))), in_flat_map.
  intros (o & Ho & Hin). apply in_map_iff in Ho. destruct Ho as (wi & <- & Hwi).
  rewrite (proj2 (proj2 (proj2 (site_out_sheets smr_data wi)))) in Hin.
  apply in_flat_map in Hin. destruct Hin as (ir & Hir & Hin).
  destruct (scalar_rows_shape _ _ _ _ Hin) as (b & y & _ & _ & ->).
  exists (bin_sample_id ir). split; [|reflexivity].
  apply in_flat_map. exists wi. split; [exact Hwi|].
  unfold site_sample_ids. now apply in_map.
Qed.

End RunSheets.

(** C3, counterexample. The claim has every Scalar Property row carry a
    collection name. In the completed run over sites S1 and S2 no cell of any
    scalar row is the collection name of an emitted Collection row: a scalar
    row has no such column. *)
Lemma C3_scalar_rows_carry_no_collection_name :
  let run := main Examples.four_bins [Examples.meta "S1"; Examples.meta "S2"]
               empty_wb in
  fst run = Ok tt
  /\ map (column 4) (SECTION_INTERVAL_COLLECTION (snd run))
     = [CStr "S1 water content profile"; CStr "S2 water content profile"]
  /\ List.length (SCALAR_PROPERTIES (snd run)) = 9%nat
  /\ forallb (fun scalar_row =>
                negb (carries_str "S1 water content profile" scalar_row)
                && negb (carries_str "S2 water content profile" scalar_row))
             (SCALAR_PROPERTIES (snd run)) = true.
Proof. vm_compute. repeat split. Qed.

(** C3, as amended. In the output of a completed run over metadata rows with
    pairwise distinct site names, every appended Interval row and every
    appended Sample row carries (column 1) a collection name that is the
    collection name (column 4) of exactly one appended Collection row, and
    every appended Scalar Property row carries (column 0) a sample id that is
    the sample id (column 5) of exactly one appended Sample row. A Scalar
    Property row has no collection name of its own: it reaches its collection
    through that one Sample row. *)
Theorem C3_rows_trace_to_one_parent
    (smr_data : list csv_row) (smr_metadata : list site_metadata)
    (wb wb' : Workbook) :
  NoDup (map Measured_section_name smr_metadata) ->
  main smr_data smr_metadata wb = (Ok tt, wb') ->
  exists out,
    wb' = wb_app wb out
    /\ Forall (fun new_row =>
                 exists name, column 1 new_row = CStr name
                              /\ count_str 4 name out.(SECTION_INTERVAL_COLLECTION) = 1%nat)
              out.(SECTION_INTERVALS)
    /\ Forall (fun new_row =>
                 exists name, column 1 new_row = CStr name
                              /\ count_str 4 name out.(SECTION_INTERVAL_COLLECTION) = 1%nat)
              out.(SAMPLES)
    /\ Forall (fun new_row =>
                 exists id, column 0 new_row = CStr id
                            /\ count_str 5 id out.(SAMPLES) = 1%nat)
              out.(SCALAR_PROPERTIES).
Proof.
  intros Hnd Hrun. unfold main in Hrun. apply main_loop_completed in Hrun.
  exists (wb_concat (map (site_out smr_data) smr_metadata)).
  split; [exact Hrun|].
  assert (Hcoll : forall wi, In wi smr_metadata ->
            count_str 4 (wi.(Measured_section_name) ++ COLLECTION_NAME_POSTFIX)%string
              (SECTION_INTERVAL_COLLECTION
                 (wb_concat (map (site_out smr_data) smr_metadata))) = 1%nat).
  { intros wi Hwi.
    rewrite (count_str_ids _ _ _ _ (run_collection_names smr_data smr_metadata)).
    apply count_occ_once; [now apply collection_names_NoDup|].
    apply in_map_iff. now exists wi. }
  repeat split; apply Forall_forall; intros new_row Hin.
  - destruct (run_interval_row _ _ _ Hin) as (wi & Hwi & Hc).
    eexists. split; [exact Hc|now apply Hcoll].
  - destruct (run_sample_row _ _ _ Hin) as (wi & Hwi & Hc).
    eexists. split; [exact Hc|now apply Hcoll].
  - destruct (run_scalar_row _ _ _ Hin) as (s & Hs & Hc).
    exists s. split; [exact Hc|].
    rewrite (count_str_ids _ _ _ _ (run_sample_ids smr_data smr_metadata)).
    apply count_occ_once; [now apply run_sample_ids_NoDup|exact Hs].
Qed.

(** C3, witness: the run over sites S1 and S2. *)
Lemma C3_witness :
  let smr_metadata := [Examples.meta "S1"; Examples.meta "S2"] in
  let run := main Examples.four_bins smr_metadata empty_wb in
  NoDup (map Measured_section_name smr_metadata)
  /\ fst run = Ok tt
  /\ exists out,
       snd run = wb_app empty_wb out
       /\ Forall (fun new_row =>
                    exists name, column 1 new_row = CStr name
                                 /\ count_str 4 name out.(SECTION_INTERVAL_COLLECTION) = 1%nat)
                 out.(SECTION_INTERVALS)
       /\ Forall (fun new_row =>
                    exists name, column 1 new_row = CStr name
                                 /\ count_str 4 name out.(SECTION_INTERVAL_COLLECTION) = 1%nat)
                 out.(SAMPLES)
       /\ Forall (fun new_row =>
                    exists id, column 0 new_row = CStr id
                               /\ count_str 5 id out.(SAMPLES) = 1%nat)
                 out.(SCALAR_PROPERTIES).
Proof.
  intros smr_metadata run.
  assert (Hnd : NoDup (map Measured_section_name smr_metadata)).
  { simpl. repeat constructor; simpl; intuition discriminate. }
  assert (Hrun : main Examples.four_bins smr_metadata empty_wb = (Ok tt, snd run)).
  { vm_compute. reflexivity. }
  split; [exact Hnd|]. split; [vm_compute; reflexivity|].
  exact (C3_rows_trace_to_one_parent Examples.four_bins smr_metadata empty_wb
           (snd run) Hnd Hrun).
Defined.

(** * The script around the emitters: properties *)

(** ** Sheets of a workbook *)

Section Sheets.

Lemma trim_cons (r : row) (ws : sheet) :
  trim (r :: ws) = match r, trim ws with
                   | [], [] => []
                   | _, t => r :: t
                   end.
Proof. reflexivity. Qed.

Lemma trim_idem (ws : sheet) : trim (trim ws) = trim ws.
Proof.
  induction ws as [|r ws IH]; [reflexivity|]. rewrite trim_cons.
  destruct r as [|c r]; destruct (trim ws) as [|r' t] eqn:E;
    try reflexivity; now rewrite trim_cons, IH.
Qed.

Lemma trim_length (ws : sheet) : (List.length (trim ws) <= List.length ws)%nat.
Proof.
  induction ws as [|r ws IH]; [reflexivity|]. cbn [trim].
  destruct r; destruct (trim ws); simpl in *; lia.
Qed.

(** Rows without cells at the end of a sheet do not count. *)
Lemma trim_app_blank (ws : sheet) (k : nat) :
  trim (ws ++ @repeat row [] k) = trim ws.
Proof.
  assert (Hk : trim (@repeat row [] k) = []).
  { induction k as [|k IH]; [reflexivity|]. cbn [repeat trim]. now rewrite IH. }
  induction ws as [|r ws IH]; [exact Hk|].
  rewrite <- app_comm_cons. cbn [trim]. now rewrite IH.
Qed.

Lemma trim_blanks (ws : sheet) :
  exists k, ws = trim ws ++ @repeat row [] k.
Proof.
  induction ws as [|r ws (k & IH)]; [now exists 0%nat|]. cbn [trim].
  destruct r as [|c r]; destruct (trim ws) as [|r' t] eqn:E.
  - exists (S k). now rewrite IH at 1.
  - exists k. now rewrite IH at 1.
  - exists k. now rewrite IH at 1.
  - exists k. now rewrite IH at 1.
Qed.

Lemma firstn_repeat_blank (n k : nat) :
  exists j, firstn n (@repeat row [] k) = @repeat row [] j.
Proof.
  revert k. induction n as [|n IH]; intros k; [now exists 0%nat|].
  destruct k as [|k]; [now exists 0%nat|].
  destruct (IH k) as (j & E). exists (S j). cbn [repeat firstn]. now rewrite E.
Qed.

Lemma trim_firstn_trim (n : nat) (ws : sheet) :
  trim (firstn n (trim ws)) = trim (firstn n ws).
Proof.
  destruct (trim_blanks ws) as (k & E). rewrite E at 2.
  rewrite firstn_app.
  destruct (firstn_repeat_blank (n - List.length (trim ws)) k) as (j & ->).
  now rewrite trim_app_blank.
Qed.

(** A sheet whose last row holds a cell is all its rows. *)
Lemma trim_app_filled (a b : sheet) :
  Forall (fun r => r <> []) b -> trim a = a -> trim (a ++ b) = a ++ b.
Proof.
  intros Hb Ha.
  assert (Hfilled : trim b = b /\ (b <> [] -> trim b <> [])).
  { clear a Ha. induction Hb as [|r b Hr Hb [IH1 IH2]]; [split; auto|].
    cbn [trim]. rewrite IH1. destruct r; [contradiction|].
    split; [reflexivity|discriminate]. }
  destruct Hfilled as [Hb1 Hb2]. destruct b as [|r b].
  - now rewrite app_nil_r.
  - clear Ha. induction a as [|x a IH]; [exact Hb1|].
    rewrite <- app_comm_cons. cbn [trim]. rewrite IH.
    destruct x; [|reflexivity].
    destruct a; reflexivity.
Qed.

Lemma stored_set_sheet_same (t : string) (ws : sheet) (x : xlsx) :
  stored_sheet t x <> None -> stored_sheet t (set_sheet t ws x) = Some ws.
Proof.
  induction x as [|[t0 ws0] x IH]; simpl; [congruence|].
  destruct (String.eqb_spec t0 t) as [->|Hne]; simpl.
  - now rewrite String.eqb_refl.
  - destruct (String.eqb_spec t0 t); [contradiction|exact IH].
Qed.

Lemma stored_set_sheet_other (t t' : string) (ws : sheet) (x : xlsx) :
  t' <> t -> stored_sheet t' (set_sheet t ws x) = stored_sheet t' x.
Proof.
  intros Hne. induction x as [|[t0 ws0] x IH]; simpl; [reflexivity|].
  destruct (String.eqb_spec t0 t) as [->|H0]; simpl.
  - destruct (String.eqb_spec t t'); [congruence|reflexivity].
  - now rewrite IH.
Qed.

Lemma get_sheet_stored (t : string) (x : xlsx) :
  get_sheet t x <> None <-> stored_sheet t x <> None.
Proof. unfold get_sheet. destruct (stored_sheet t x); simpl; split; congruence. Qed.

Lemma get_set_sheet_same (t : string) (ws : sheet) (x : xlsx) :
  get_sheet t x <> None -> get_sheet t (set_sheet t ws x) = Some (trim ws).
Proof.
  intros H. apply get_sheet_stored in H. unfold get_sheet.
  now rewrite stored_set_sheet_same.
Qed.

Lemma get_set_sheet_other (t t' : string) (ws : sheet) (x : xlsx) :
  t' <> t -> get_sheet t' (set_sheet t ws x) = get_sheet t' x.
Proof. intros Hne. unfold get_sheet. now rewrite stored_set_sheet_other. Qed.

Lemma set_sheet_titles (t : string) (ws : sheet) (x : xlsx) :
  map fst (set_sheet t ws x) = map fst x.
Proof.
  induction x as [|[t0 ws0] x IH]; simpl; [reflexivity|].
  destruct (String.eqb t0 t); simpl; [reflexivity|now rewrite IH].
Qed.

(** Writing back the rows a sheet already has changes nothing. *)
Lemma set_sheet_unchanged (t : string) (ws : sheet) (x : xlsx) :
  stored_sheet t x = Some ws -> set_sheet t ws x = x.
Proof.
  induction x as [|[t0 ws0] x IH]; simpl; [reflexivity|].
  destruct (String.eqb t0 t).
  - now intros [= ->].
  - intros H. now rewrite IH.
Qed.

(** Deleting the rows from [5 + k] down to 6 of a sheet of at most [5 + k]
    rows. *)
Lemma delete_from_bottom (k : nat) :
  forall ws : sheet,
    trim ws = ws ->
    (List.length ws <= 5 + k)%nat ->
    fold_left (fun ws row_nr => delete_rows row_nr ws) (List.rev (seq 6 k)) ws
    = trim (firstn 5 ws).
Proof.
  induction k as [|k IH]; intros ws Hws Hlen.
  - cbn [seq List.rev fold_left]. rewrite firstn_all2 by lia. now rewrite Hws.
  - rewrite seq_S, rev_app_distr.
    change (List.rev [(6 + k)%nat]) with [(6 + k)%nat].
    rewrite <- app_comm_cons, app_nil_l. cbn [fold_left].
    unfold delete_rows at 2.
    rewrite (skipn_all2 ws) by lia. rewrite app_nil_r.
    replace (6 + k - 1)%nat with (5 + k)%nat by lia.
    rewrite IH.
    + rewrite trim_firstn_trim, firstn_firstn. reflexivity.
    + apply trim_idem.
    + etransitivity; [apply trim_length|]. rewrite length_firstn. lia.
Qed.

(** The loop over the rows of one sheet keeps, of its first five rows, those
    up to the last one that holds a cell. *)
Lemma remove_hints_from_sheet_header (ws : sheet) :
  trim ws = ws -> remove_hints_from_sheet ws = trim (firstn 5 ws).
Proof.
  intros Hws. unfold remove_hints_from_sheet, range_down, max_row.
  rewrite Hws. apply delete_from_bottom; [exact Hws|lia].
Qed.

Lemma header_at_most_five (ws : sheet) :
  (List.length (trim (firstn 5 ws)) <= 5)%nat.
Proof.
  etransitivity; [apply trim_length|]. rewrite length_firstn. lia.
Qed.

End Sheets.

(** ** remove_hints_from_template *)

Section RemoveHints.

Lemma worksheets_NoDup : NoDup worksheets.
Proof.
  unfold worksheets. repeat constructor; simpl; intuition discriminate.
Qed.

(** When every listed sheet is there, the loop completes: each listed sheet
    is cut to the header region, every other sheet and the order of the
    sheets are as before. *)
Lemma remove_hints_loop_done (sheets : list string) :
  NoDup sheets ->
  forall x : xlsx,
    (forall s, In s sheets -> get_sheet s x <> None) ->
    exists x',
      remove_hints_loop sheets x = Done x'
      /\ (forall s, In s sheets ->
                    stored_sheet s x'
                    = option_map (fun ws => trim (firstn 5 ws)) (get_sheet s x))
      /\ (forall s, ~ In s sheets -> stored_sheet s x' = stored_sheet s x)
      /\ map fst x' = map fst x.
Proof.
  induction 1 as [|s sheets Hs Hnd IH]; intros x Hall.
  - exists x. simpl. repeat split; auto. contradiction.
  - cbn [remove_hints_loop].
    destruct (get_sheet s x) as [ws|] eqn:Es.
    2:{ exfalso. apply (Hall s); simpl; auto. }
    assert (Hws : trim ws = ws).
    { unfold get_sheet in Es. destruct (stored_sheet s x); [|discriminate].
      injection Es as <-. apply trim_idem. }
    set (x1 := set_sheet s (remove_hints_from_sheet ws) x).
    assert (Hother : forall t, t <> s -> stored_sheet t x1 = stored_sheet t x).
    { intros t Ht. now apply stored_set_sheet_other. }
    destruct (IH x1) as (x' & Hrun & Hin & Hout & Htitles).
    { intros t Ht. unfold get_sheet. rewrite Hother.
      - apply (Hall t). now right.
      - intros ->. contradiction. }
    exists x'. split; [exact Hrun|]. repeat split.
    + intros t [<-|Ht].
      * rewrite (Hout s Hs). unfold x1.
        rewrite stored_set_sheet_same
          by (apply get_sheet_stored; congruence).
        rewrite Es, remove_hints_from_sheet_header by exact Hws. reflexivity.
      * rewrite (Hin t Ht). unfold get_sheet. rewrite Hother; [reflexivity|].
        intros ->. contradiction.
    + intros t Ht. rewrite Hout.
      * apply Hother. intros ->. apply Ht. now left.
      * intros Hin'. apply Ht. now right.
    + rewrite Htitles. apply set_sheet_titles.
Qed.

(** The loop fails on the first listed sheet that is missing. *)
Lemma remove_hints_loop_failed (sheets : list string) :
  NoDup sheets ->
  forall (x : xlsx) (e : run_error),
    remove_hints_loop sheets x = Failed e ->
    exists pre s post,
      sheets = pre ++ s :: post
      /\ e = KeyError s
      /\ get_sheet s x = None
      /\ (forall t, In t pre -> get_sheet t x <> None).
Proof.
  induction 1 as [|s sheets Hs Hnd IH]; intros x e Hrun.
  - discriminate.
  - cbn [remove_hints_loop] in Hrun.
    destruct (get_sheet s x) as [ws|] eqn:Es.
    + destruct (IH _ _ Hrun) as (pre & t & post & -> & -> & Ht & Hpre).
      assert (Hts : forall u, In u (pre ++ t :: post) -> u <> s).
      { intros u Hu ->. contradiction. }
      exists (s :: pre), t, post. repeat split.
      * rewrite get_set_sheet_other in Ht; [exact Ht|].
        apply Hts, in_elt.
      * intros u [<-|Hu]; [congruence|].
        specialize (Hpre u Hu).
        rewrite get_set_sheet_other in Hpre; [exact Hpre|].
        apply Hts, in_or_app. now left.
    + injection Hrun as <-. exists [], s, sheets. repeat split; auto.
Qed.

(** The loop completes only when every listed sheet is there. *)
Lemma remove_hints_loop_present (sheets : list string) :
  NoDup sheets ->
  forall x x' : xlsx,
    remove_hints_loop sheets x = Done x' ->
    forall s, In s sheets -> get_sheet s x <> None.
Proof.
  induction 1 as [|t sheets Ht Hnd IH]; intros x x' Hrun s Hs; [contradiction|].
  cbn [remove_hints_loop] in Hrun.
  destruct (get_sheet t x) as [ws|] eqn:Et; [|discriminate].
  destruct Hs as [<-|Hs]; [congruence|].
  specialize (IH _ _ Hrun s Hs).
  rewrite get_set_sheet_other in IH; [exact IH|].
  intros ->. contradiction.
Qed.

(** On a workbook whose listed sheets are written up to their last row that
    holds a cell, and have at most five rows, the loop changes nothing. *)
Lemma remove_hints_loop_fixed (sheets : list string) :
  forall x : xlsx,
    (forall s, In s sheets ->
               exists ws, stored_sheet s x = Some ws
                          /\ trim ws = ws /\ (List.length ws <= 5)%nat) ->
    remove_hints_loop sheets x = Done x.
Proof.
  induction sheets as [|s sheets IH]; intros x Hall; [reflexivity|].
  cbn [remove_hints_loop].
  destruct (Hall s) as (ws & Es & Hws & Hlen); [now left|].
  unfold get_sheet. rewrite Es. cbn [option_map]. rewrite Hws.
  rewrite remove_hints_from_sheet_header, firstn_all2, Hws by auto.
  rewrite (set_sheet_unchanged _ _ _ Es).
  apply IH. intros t Ht. apply Hall. now right.
Qed.

End RemoveHints.

(** X6. When the template has the four sheets the loader writes to, cleaning
    it completes; each of the four sheets keeps, of its first five rows,
    those up to the last one that holds a cell (all of its rows when it has
    at most five); every other sheet, with its hints, and the order of the
    sheets are unchanged. *)
Theorem remove_hints_keeps_header (template_xlsx : xlsx) :
  (forall s, In s worksheets -> get_sheet s template_xlsx <> None) ->
  exists clean,
    remove_hints_from_template template_xlsx = Done clean
    /\ (forall s ws, In s worksheets -> get_sheet s template_xlsx = Some ws ->
                     get_sheet s clean = Some (trim (firstn 5 ws)))
    /\ (forall s, ~ In s worksheets ->
                  get_sheet s clean = get_sheet s template_xlsx)
    /\ map fst clean = map fst template_xlsx.
Proof.
  intros Hall.
  destruct (remove_hints_loop_done worksheets worksheets_NoDup template_xlsx Hall)
    as (clean & Hrun & Hin & Hout & Ht).
  exists clean. repeat split; auto.
  - intros s ws Hs E. unfold get_sheet at 1. rewrite (Hin s Hs), E.
    cbn [option_map]. now rewrite trim_idem.
  - intros s Hs. unfold get_sheet. now rewrite Hout.
Qed.

(** X6, witness: the template whose sheets have three header rows, two rows
    without cells and two rows of hints. *)
Lemma remove_hints_keeps_header_witness :
  (forall s, In s worksheets -> get_sheet s ScriptExamples.sparse_template <> None)
  /\ exists clean,
       remove_hints_from_template ScriptExamples.sparse_template = Done clean
       /\ (forall s ws, In s worksheets ->
                        get_sheet s ScriptExamples.sparse_template = Some ws ->
                        get_sheet s clean = Some (trim (firstn 5 ws)))
       /\ (forall s, ~ In s worksheets ->
                     get_sheet s clean = get_sheet s ScriptExamples.sparse_template)
       /\ map fst clean = map fst ScriptExamples.sparse_template.
Proof.
  assert (H : forall s, In s worksheets ->
                        get_sheet s ScriptExamples.sparse_template <> None).
  { intros s Hs. simpl in Hs.
    repeat (destruct Hs as [<-|Hs]; [discriminate|]). contradiction. }
  split; [exact H|].
  exact (remove_hints_keeps_header ScriptExamples.sparse_template H).
Defined.

(** A sheet whose rows 4 and 5 hold no cell ends at row 3 once its hints are
    deleted. *)
Example sparse_sheet_cleaned :
  max_row (ScriptExamples.sparse_sheet "SAMPLES") = 7%nat
  /\ remove_hints_from_sheet (ScriptExamples.sparse_sheet "SAMPLES")
     = [ [CStr "SAMPLES"]; [CStr "header 2"]; [CStr "header 3"] ]
  /\ max_row (remove_hints_from_sheet (ScriptExamples.sparse_sheet "SAMPLES"))
     = 3%nat.
Proof. repeat split. Qed.

(** X7. Cleaning the template raises exactly when one of the four sheets is
    missing, and then it is [KeyError] on the first missing sheet in the
    order SECTION INTERVAL COLLECTION, SECTION INTERVALS, SAMPLES, SCALAR
    PROPERTIES. *)
Theorem remove_hints_missing_sheet (template_xlsx : xlsx) :
  match remove_hints_from_template template_xlsx with
  | Done _ => forall s, In s worksheets -> get_sheet s template_xlsx <> None
  | Failed e =>
      exists pre s post,
        worksheets = pre ++ s :: post
        /\ e = KeyError s
        /\ get_sheet s template_xlsx = None
        /\ (forall t, In t pre -> get_sheet t template_xlsx <> None)
  end.
Proof.
  destruct (remove_hints_from_template template_xlsx) as [clean|e] eqn:E.
  - apply (remove_hints_loop_present worksheets worksheets_NoDup _ _ E).
  - apply (remove_hints_loop_failed worksheets worksheets_NoDup _ _ E).
Qed.

(** X8. Cleaning is idempotent: cleaning a cleaned template completes and
    changes nothing. *)
Theorem remove_hints_idempotent (template_xlsx clean : xlsx) :
  remove_hints_from_template template_xlsx = Done clean ->
  remove_hints_from_template clean = Done clean.
Proof.
  intros Hrun.
  pose proof (remove_hints_loop_present _ worksheets_NoDup _ _ Hrun) as Hall.
  destruct (remove_hints_loop_done _ worksheets_NoDup _ Hall)
    as (clean' & Hrun' & Hin & _).
  unfold remove_hints_from_template in Hrun. rewrite Hrun in Hrun'.
  injection Hrun' as <-.
  apply remove_hints_loop_fixed. intros s Hs.
  rewrite (Hin s Hs).
  destruct (get_sheet s template_xlsx) as [ws|] eqn:E.
  - exists (trim (firstn 5 ws)). split; [reflexivity|].
    split; [apply trim_idem|apply header_at_most_five].
  - exfalso. now apply (Hall s Hs).
Qed.

(** X8, witness: the sample template. *)
Lemma remove_hints_idempotent_witness :
  exists clean,
    remove_hints_from_template ScriptExamples.template = Done clean
    /\ remove_hints_from_template clean = Done clean.
Proof.
  eexists. split; [vm_compute; reflexivity|].
  refine (remove_hints_idempotent ScriptExamples.template _ _).
  vm_compute. reflexivity.
Defined.

(** ** main with its files *)

Section MainScript.

Lemma stage_files_some (st tf outf : string) :
  stage_files st = Some (tf, outf) ->
  tf = full_template_file
  /\ (outf = final_output_file \/ outf = test_output_file)
  /\ String.eqb tf (output_dir ++ outf) = false.
Proof.
  unfold stage_files.
  destruct (String.eqb st "final"); [intros [= <- <-]; auto|].
  destruct (String.eqb st "test"); [intros [= <- <-]; auto|discriminate].
Qed.

(** After cleaning, the four sheets are there and hold the header rows. *)
Lemma open_sheets_clean (full clean : xlsx) :
  remove_hints_from_template full = Done clean ->
  exists tmpl,
    open_sheets full = Done tmpl
    /\ open_sheets clean = Done (header_rows tmpl).
Proof.
  intros Hrun.
  pose proof (remove_hints_loop_present _ worksheets_NoDup _ _ Hrun) as Hall.
  destruct (remove_hints_loop_done _ worksheets_NoDup _ Hall)
    as (clean' & Hrun' & Hin & _).
  unfold remove_hints_from_template in Hrun. rewrite Hrun in Hrun'.
  injection Hrun' as <-.
  assert (Hget : forall s, In s worksheets ->
            get_sheet s clean
            = option_map (fun ws => trim (firstn 5 ws)) (get_sheet s full)).
  { intros s Hs. unfold get_sheet at 1. rewrite (Hin s Hs).
    destruct (get_sheet s full); [|reflexivity].
    cbn [option_map]. now rewrite trim_idem. }
  unfold open_sheets.
  rewrite !Hget by (simpl; auto).
  destruct (get_sheet "SECTION INTERVAL COLLECTION" full) as [c|] eqn:Ec;
    [|exfalso; apply (Hall "SECTION INTERVAL COLLECTION"); simpl; auto].
  destruct (get_sheet "SECTION INTERVALS" full) as [i|] eqn:Ei;
    [|exfalso; apply (Hall "SECTION INTERVALS"); simpl; auto].
  destruct (get_sheet "SAMPLES" full) as [s|] eqn:Es;
    [|exfalso; apply (Hall "SAMPLES"); simpl; auto].
  destruct (get_sheet "SCALAR PROPERTIES" full) as [p|] eqn:Ep;
    [|exfalso; apply (Hall "SCALAR PROPERTIES"); simpl; auto].
  eexists. split; reflexivity.
Qed.

(** Putting four sheets into a workbook that has them and taking them out
    again gives them back, up to their last row that holds a cell; the other
    sheets and the titles stay. *)
Lemma open_store_sheets (wb wb0 : Workbook) (x : xlsx) :
  open_sheets x = Done wb0 ->
  open_sheets (store_sheets wb x)
  = Done {| SECTION_INTERVAL_COLLECTION := trim wb.(SECTION_INTERVAL_COLLECTION);
            SECTION_INTERVALS := trim wb.(SECTION_INTERVALS);
            SAMPLES := trim wb.(SAMPLES);
            SCALAR_PROPERTIES := trim wb.(SCALAR_PROPERTIES) |}
  /\ (forall s, ~ In s worksheets ->
                get_sheet s (store_sheets wb x) = get_sheet s x)
  /\ map fst (store_sheets wb x) = map fst x.
Proof.
  intros Hopen. unfold open_sheets in Hopen.
  destruct (get_sheet "SECTION INTERVAL COLLECTION" x) eqn:Ec; [|discriminate].
  destruct (get_sheet "SECTION INTERVALS" x) eqn:Ei; [|discriminate].
  destruct (get_sheet "SAMPLES" x) eqn:Es; [|discriminate].
  destruct (get_sheet "SCALAR PROPERTIES" x) eqn:Ep; [|discriminate].
  clear Hopen. unfold store_sheets. repeat split.
  - unfold open_sheets.
    repeat first
      [ rewrite get_set_sheet_other by discriminate
      | rewrite get_set_sheet_same
          by (repeat rewrite get_set_sheet_other by discriminate; congruence) ].
    reflexivity.
  - intros t Ht. rewrite !get_set_sheet_other; [reflexivity| | | |];
      intros ->; apply Ht; simpl; auto.
  - now rewrite !set_sheet_titles.
Qed.

(** Every row a completed run has appended holds cells. *)
Lemma completed_run_rows_filled (smr_data : list csv_row)
    (smr_metadata : list site_metadata) :
  fst (main smr_data smr_metadata empty_wb) = Ok tt ->
  let out := snd (main smr_data smr_metadata empty_wb) in
  Forall (fun r => r <> []) out.(SECTION_INTERVAL_COLLECTION)
  /\ Forall (fun r => r <> []) out.(SECTION_INTERVALS)
  /\ Forall (fun r => r <> []) out.(SAMPLES)
  /\ Forall (fun r => r <> []) out.(SCALAR_PROPERTIES).
Proof.
  intros Hok out.
  assert (Hout : out = wb_concat (map (site_out smr_data) smr_metadata)).
  { rewrite <- (wb_app_empty_l (wb_concat _)).
    apply (main_loop_completed smr_data smr_metadata empty_wb).
    subst out. unfold main in *.
    destruct (main_loop smr_data smr_metadata empty_wb) as [o w].
    cbn [fst snd] in *. now rewrite Hok. }
  rewrite Hout.
  destruct (wb_concat_sheets (map (site_out smr_data) smr_metadata))
    as (-> & -> & -> & ->).
  repeat split; apply Forall_forall; intros r Hr;
    apply in_flat_map in Hr; destruct Hr as (o & Ho & Hr);
    apply in_map_iff in Ho; destruct Ho as (wi & <- & _);
    destruct (site_out_sheets smr_data wi) as (Hc & Hi & Hs & Hp).
  - rewrite Hc in Hr. destruct Hr as [<-|[]]. discriminate.
  - rewrite Hi in Hr. apply in_map_iff in Hr. destruct Hr as (ir & <- & _).
    discriminate.
  - rewrite Hs in Hr. apply in_map_iff in Hr. destruct Hr as (ir & <- & _).
    discriminate.
  - rewrite Hp in Hr. apply in_flat_map in Hr. destruct Hr as (ir & _ & Hr).
    destruct (scalar_rows_shape _ _ _ _ Hr) as (b & y & _ & _ & ->).
    discriminate.
Qed.

End MainScript.

(** What the script does once the stage is known, the template is there and
    has the four sheets. *)
Lemma main_script_run (st tf outf : string) (full : xlsx) (fs : filesystem)
    (config : run_result (list site_metadata)) (smr_data : list csv_row) :
  stage_files st = Some (tf, outf) ->
  fs tf = Some full ->
  (forall s, In s worksheets -> get_sheet s full <> None) ->
  exists clean tmpl,
    remove_hints_from_template full = Done clean
    /\ open_sheets full = Done tmpl
    /\ open_sheets clean = Done (header_rows tmpl)
    /\ main_script st config smr_data fs
       = let output_path := (output_dir ++ outf)%string in
         let fs1 :=
           fs_save output_path clean
             (if fs_exists output_path fs then fs_remove output_path fs else fs) in
         match config with
         | Failed e => (Failed e, fs1)
         | Done smr_metadata =>
             match fst (main smr_data smr_metadata empty_wb) with
             | Ok _ =>
                 (Done tt,
                  fs_save output_path
                    (store_sheets
                       (wb_app (header_rows tmpl)
                          (snd (main smr_data smr_metadata empty_wb))) clean) fs1)
             | Raise e => (Failed (EmitterError e), fs1)
             end
         end.
Proof.
  intros Hst Htf Hall.
  destruct (remove_hints_loop_done _ worksheets_NoDup _ Hall)
    as (clean & Hclean & _).
  fold (remove_hints_from_template full) in Hclean.
  destruct (open_sheets_clean _ _ Hclean) as (tmpl & Hfull & Hopen).
  exists clean, tmpl. repeat split; auto.
  unfold main_script. rewrite Hst. unfold load_workbook at 1. rewrite Htf, Hclean.
  unfold create_output_loader. cbv zeta.
  unfold load_workbook, fs_save at 1. rewrite String.eqb_refl.
  destruct config as [smr_metadata|e]; [|reflexivity].
  rewrite Hopen.
  rewrite (main_only_appends smr_data smr_metadata (header_rows tmpl)).
  destruct (fst (main smr_data smr_metadata empty_wb)) as [[]|e]; reflexivity.
Qed.

(** Saving to the output path leaves every other file as it was. *)
Lemma output_saved_elsewhere (out_path p : string) (x y : xlsx) (fs : filesystem) :
  p <> out_path ->
  fs_save out_path y
    (fs_save out_path x
       (if fs_exists out_path fs then fs_remove out_path fs else fs)) p
  = fs p
  /\ fs_save out_path x
       (if fs_exists out_path fs then fs_remove out_path fs else fs) p
     = fs p.
Proof.
  intros Hne. unfold fs_save, fs_remove.
  destruct (String.eqb_spec p out_path) as [E|_]; [contradiction|].
  destruct (fs_exists out_path fs); auto.
  destruct (String.eqb_spec p out_path) as [E|_]; [contradiction|auto].
Qed.

(** X9. A run that completes. With a known stage, the template file in place
    with its four sheets, the table of the sites read without error and
    emitters that complete on the data, the script returns normally. The
    output file then holds, in each of the four sheets, the header region of
    the template's sheet (of its first five rows, those up to the last one
    that holds a cell) followed at once by the rows the emitters appended;
    its other sheets and the order of its sheets are the template's. Every
    other file, the template included, is as before. *)
Theorem main_script_completed (st tf outf : string) (full : xlsx)
    (fs : filesystem) (smr_metadata : list site_metadata)
    (smr_data : list csv_row) :
  stage_files st = Some (tf, outf) ->
  fs tf = Some full ->
  (forall s, In s worksheets -> get_sheet s full <> None) ->
  fst (main smr_data smr_metadata empty_wb) = Ok tt ->
  exists fs' x_out tmpl,
    main_script st (Done smr_metadata) smr_data fs = (Done tt, fs')
    /\ fs' (output_dir ++ outf)%string = Some x_out
    /\ open_sheets full = Done tmpl
    /\ open_sheets x_out
       = Done (wb_app (header_rows tmpl)
                 (snd (main smr_data smr_metadata empty_wb)))
    /\ (forall s, ~ In s worksheets -> get_sheet s x_out = get_sheet s full)
    /\ map fst x_out = map fst full
    /\ (forall p, p <> (output_dir ++ outf)%string -> fs' p = fs p)
    /\ fs' tf = Some full.
Proof.
  intros Hst Htf Hall Hok.
  destruct (main_script_run st tf outf full fs (Done smr_metadata) smr_data
              Hst Htf Hall)
    as (clean & tmpl & Hclean & Hfull & Hopen & Hrun).
  rewrite Hok in Hrun. cbv zeta in Hrun.
  destruct (open_store_sheets
              (wb_app (header_rows tmpl) (snd (main smr_data smr_metadata empty_wb)))
              _ clean Hopen) as (Hget & Hother & Htitles).
  destruct (completed_run_rows_filled smr_data smr_metadata Hok)
    as (Fc & Fi & Fs & Fp).
  assert (Hsame : {| SECTION_INTERVAL_COLLECTION :=
                       trim (SECTION_INTERVAL_COLLECTION
                          (wb_app (header_rows tmpl)
                             (snd (main smr_data smr_metadata empty_wb))));
                     SECTION_INTERVALS :=
                       trim (SECTION_INTERVALS
                          (wb_app (header_rows tmpl)
                             (snd (main smr_data smr_metadata empty_wb))));
                     SAMPLES :=
                       trim (SAMPLES
                          (wb_app (header_rows tmpl)
                             (snd (main smr_data smr_metadata empty_wb))));
                     SCALAR_PROPERTIES :=
                       trim (SCALAR_PROPERTIES
                          (wb_app (header_rows tmpl)
                             (snd (main smr_data smr_metadata empty_wb)))) |}
                  = wb_app (header_rows tmpl)
                      (snd (main smr_data smr_metadata empty_wb))).
  { unfold wb_app, header_rows.
    cbn [SECTION_INTERVAL_COLLECTION SECTION_INTERVALS SAMPLES SCALAR_PROPERTIES].
    now rewrite !trim_app_filled by (auto using trim_idem). }
  rewrite Hsame in Hget.
  destruct (remove_hints_loop_done _ worksheets_NoDup _ Hall)
    as (clean' & Hclean' & _ & Hout & Ht).
  fold (remove_hints_from_template full) in Hclean'.
  rewrite Hclean in Hclean'. injection Hclean' as <-.
  assert (Helse : forall p, p <> (output_dir ++ outf)%string ->
            fs_save (output_dir ++ outf)
              (store_sheets
                 (wb_app (header_rows tmpl)
                    (snd (main smr_data smr_metadata empty_wb))) clean)
              (fs_save (output_dir ++ outf) clean
                 (if fs_exists (output_dir ++ outf) fs
                  then fs_remove (output_dir ++ outf) fs else fs)) p = fs p).
  { intros p Hp. now apply output_saved_elsewhere. }
  eexists _, _, tmpl. split; [exact Hrun|].
  split; [unfold fs_save at 1; rewrite String.eqb_refl; reflexivity|].
  repeat split; auto.
  - intros s Hs. rewrite Hother by exact Hs. unfold get_sheet.
    now rewrite Hout.
  - now rewrite Htitles.
  - rewrite Helse; [exact Htf|].
    destruct (stage_files_some _ _ _ Hst) as (_ & _ & Hne).
    intros E. rewrite E, String.eqb_refl in Hne. discriminate.
Qed.

(** X9, witness: stage "final", the template whose rows 4 and 5 hold no
    cell, sites S1 and S2. The first row appended to the SAMPLES sheet is its
    row 4. *)
Lemma main_script_completed_witness :
  let smr_metadata := [Examples.meta "S1"; Examples.meta "S2"] in
  stage_files "final" = Some (full_template_file, final_output_file)
  /\ fst (main Examples.four_bins smr_metadata empty_wb) = Ok tt
  /\ exists fs' x_out tmpl,
       main_script "final" (Done smr_metadata) Examples.four_bins
         ScriptExamples.sparse_template_only = (Done tt, fs')
       /\ fs' (output_dir ++ final_output_file)%string = Some x_out
       /\ open_sheets ScriptExamples.sparse_template = Done tmpl
       /\ open_sheets x_out
          = Done (wb_app (header_rows tmpl)
                    (snd (main Examples.four_bins smr_metadata empty_wb)))
       /\ (forall s, ~ In s worksheets ->
                     get_sheet s x_out
                     = get_sheet s ScriptExamples.sparse_template)
       /\ map fst x_out = map fst ScriptExamples.sparse_template
       /\ (forall p, p <> (output_dir ++ final_output_file)%string ->
                     fs' p = ScriptExamples.sparse_template_only p)
       /\ fs' full_template_file = Some ScriptExamples.sparse_template.
Proof.
  intros smr_metadata.
  assert (Hst : stage_files "final" = Some (full_template_file, final_output_file))
    by reflexivity.
  assert (Hok : fst (main Examples.four_bins smr_metadata empty_wb) = Ok tt)
    by (vm_compute; reflexivity).
  split; [exact Hst|]. split; [exact Hok|].
  refine (main_script_completed "final" full_template_file final_output_file
            ScriptExamples.sparse_template ScriptExamples.sparse_template_only
            smr_metadata Examples.four_bins Hst _ _ Hok).
  - vm_compute. reflexivity.
  - intros s Hs. simpl in Hs.
    repeat (destruct Hs as [<-|Hs]; [discriminate|]). contradiction.
Defined.

(** On the template whose rows 4 and 5 hold no cell, the SAMPLES sheet of the
    output file has the three header rows and then, in rows 4 to 6, the
    samples of the run. *)
Example sparse_template_run :
  match main_script "final" (Done [Examples.meta "S1"; Examples.meta "S2"])
          Examples.four_bins ScriptExamples.sparse_template_only with
  | (Done _, fs') =>
      match fs' (output_dir ++ final_output_file)%string with
      | Some x_out =>
          option_map (firstn 3) (get_sheet "SAMPLES" x_out)
          = Some [ [CStr "SAMPLES"]; [CStr "header 2"]; [CStr "header 3"] ]
          /\ option_map (map (column 5)) (get_sheet "SAMPLES" x_out)
             = Some [CStr ""; CStr ""; CStr "";
                     CStr "S1_L1"; CStr "S1_L2"; CStr "S2_L1"]
      | None => False
      end
  | (Failed _, _) => False
  end.
Proof. vm_compute. split; reflexivity. Qed.

(** X10. A run whose emitters raise. With a known stage and the template in
    place with its four sheets, an exception of the emitters ends the script
    before the final save: the output file holds the cleaned template, with
    the header rows in its four sheets and not one of the rows appended
    before the exception. Every other file is as before. *)
Theorem main_script_failed_run (st tf outf : string) (full : xlsx)
    (fs : filesystem) (smr_metadata : list site_metadata)
    (smr_data : list csv_row) (e : exn) :
  stage_files st = Some (tf, outf) ->
  fs tf = Some full ->
  (forall s, In s worksheets -> get_sheet s full <> None) ->
  fst (main smr_data smr_metadata empty_wb) = Raise e ->
  exists fs' clean tmpl,
    main_script st (Done smr_metadata) smr_data fs
    = (Failed (EmitterError e), fs')
    /\ remove_hints_from_template full = Done clean
    /\ fs' (output_dir ++ outf)%string = Some clean
    /\ open_sheets full = Done tmpl
    /\ open_sheets clean = Done (header_rows tmpl)
    /\ (forall p, p <> (output_dir ++ outf)%string -> fs' p = fs p).
Proof.
  intros Hst Htf Hall Hraise.
  destruct (main_script_run st tf outf full fs (Done smr_metadata) smr_data
              Hst Htf Hall)
    as (clean & tmpl & Hclean & Hfull & Hopen & Hrun).
  rewrite Hraise in Hrun. cbv zeta in Hrun.
  eexists _, clean, tmpl. split; [exact Hrun|]. repeat split; auto.
  - unfold fs_save. now rewrite String.eqb_refl.
  - intros p Hp.
    apply (output_saved_elsewhere (output_dir ++ outf) p clean clean fs Hp).
Qed.

(** X10, witness: site S1 has a bin whose low percentile is missing. *)
Lemma main_script_failed_run_witness :
  let smr_metadata := [Examples.meta "S1"; Examples.meta "S2"] in
  fst (main Examples.nan_low smr_metadata empty_wb) = Raise ValueError
  /\ exists fs' clean tmpl,
       main_script "final" (Done smr_metadata) Examples.nan_low
         ScriptExamples.template_only = (Failed (EmitterError ValueError), fs')
       /\ remove_hints_from_template ScriptExamples.template = Done clean
       /\ fs' (output_dir ++ final_output_file)%string = Some clean
       /\ open_sheets ScriptExamples.template = Done tmpl
       /\ open_sheets clean = Done (header_rows tmpl)
       /\ (forall p, p <> (output_dir ++ final_output_file)%string ->
                     fs' p = ScriptExamples.template_only p).
Proof.
  intros smr_metadata.
  assert (Hraise : fst (main Examples.nan_low smr_metadata empty_wb)
                   = Raise ValueError) by (vm_compute; reflexivity).
  split; [exact Hraise|].
  refine (main_script_failed_run "final" full_template_file final_output_file
            ScriptExamples.template ScriptExamples.template_only
            smr_metadata Examples.nan_low ValueError _ _ _ Hraise).
  - reflexivity.
  - vm_compute. reflexivity.
  - intros s Hs. simpl in Hs.
    repeat (destruct Hs as [<-|Hs]; [discriminate|]). contradiction.
Defined.



(** * The cutoff of the interval loop *)

(** [int(x) > k] for a finite [x = m * 2^e] and [k >= 0]: [x >= k + 1]. *)
Lemma trunc_m2e_above (m e k : Z) :
  0 <= k ->
  (trunc_m2e m e >? k) = true
  <-> if 0 <=? e then k + 1 <= m * 2 ^ e else (k + 1) * 2 ^ (- e) <= m.
Proof.
  intros Hk. unfold trunc_m2e. rewrite Z.gtb_ltb, Z.ltb_lt.
  destruct (Z.leb_spec 0 e) as [He|He]; [lia|].
  pose proof (pow2_pos (- e) ltac:(lia)) as Hd.
  set (d := 2 ^ (- e)) in *.
  pose proof (Z.quot_rem' m d) as Hqr.
  destruct (Z.le_gt_cases 0 m) as [Hm|Hm].
  - pose proof (Z.rem_bound_pos m d Hm Hd) as Hb.
    set (q := Z.quot m d) in *. set (r := Z.rem m d) in *.
    split; intros H; nia.
  - pose proof (Z.quot_pos (- m) d ltac:(lia) Hd) as Hq.
    rewrite Z.quot_opp_l in Hq by lia.
    set (q := Z.quot m d) in *.
    split; intros H; nia.
Qed.

(** X15. Where the interval loop stops. [int(depth_to) > MAX_DEPTH] holds
    exactly when [depth_to] is a finite number that is at least
    [MAX_DEPTH + 1 = 101]: a bin that ends between 100 and 101 metres is
    retained, and a [depth_to] that is NaN or infinite is no cutoff. *)
Theorem cutoff_at_next_metre (r : smr_row) :
  exceeds r = true <-> at_least r.(depth_to) (MAX_DEPTH + 1).
Proof.
  unfold exceeds, at_least, py_int.
  destruct r.(depth_to) as [s|s| |s m e].
  - unfold MAX_DEPTH. split; [discriminate|lia].
  - split; [discriminate|contradiction].
  - split; [discriminate|contradiction].
  - apply trunc_m2e_above. unfold MAX_DEPTH. lia.
Qed.

(** A bin that ends at 100.99 m is retained, one that ends at 101 m is not. *)
Example bin_ending_at_100_99_retained :
  exceeds {| site_name := "S1"; depth_from := of_dec 9050 2;
             depth_to := of_dec 10099 2;
             low := Examples.w05; median := Examples.w12; high := Examples.w30 |}
  = false
  /\ exceeds {| site_name := "S1"; depth_from := of_dec 9050 2;
                depth_to := of_dec 10100 2;
                low := Examples.w05; median := Examples.w12; high := Examples.w30 |}
     = true.
Proof. vm_compute. split; reflexivity. Qed.

(** * create_SMR_intervals.py: properties *)

Section DepthGrid.

Lemma skipn_repeat {A} (x : A) (n : nat) :
  skipn n (repeat x (S n)) = [x].
Proof. induction n as [|n IH]; [reflexivity|exact IH]. Qed.

Lemma neg_index_last {A} (l : list A) (x : A) :
  neg_index (l ++ [x]) 1 = Some x.
Proof.
  unfold neg_index. rewrite length_app. cbn [List.length].
  destruct (Nat.leb_spec 1 (List.length l + 1)); [|lia].
  replace (List.length l + 1 - 1)%nat with (List.length l) by lia.
  rewrite nth_error_app2 by lia. rewrite Nat.sub_diag. reflexivity.
Qed.

Lemma neg_index_app {A} (l : list A) (x : A) (k : nat) :
  (1 <= k)%nat -> neg_index (l ++ [x]) (S k) = neg_index l k.
Proof.
  intros Hk. unfold neg_index. rewrite length_app. cbn [List.length].
  destruct (Nat.leb_spec k (List.length l)) as [H|H].
  - destruct (Nat.leb_spec (S k) (List.length l + 1)); [|lia].
    rewrite nth_error_app1 by lia. f_equal. lia.
  - destruct (Nat.leb_spec (S k) (List.length l + 1)); [lia|reflexivity].
Qed.

Lemma neg_index_tl {A} (a : A) (l : list A) (k : nat) :
  (1 <= k <= List.length l)%nat -> neg_index (a :: l) k = neg_index l k.
Proof.
  intros Hk. unfold neg_index. cbn [List.length].
  destruct (Nat.leb_spec k (S (List.length l))); [|lia].
  destruct (Nat.leb_spec k (List.length l)); [|lia].
  replace (S (List.length l) - k)%nat with (S (List.length l - k)) by lia.
  reflexivity.
Qed.

(** The array [depth_to] before its last value is set: the depths from the
    second one on, then one NaN. *)
Lemma depth_to_shifted (a : float) (l : list float) :
  tl (a :: l) ++ skipn (List.length (a :: l) - 1)
                   (repeat (fmul S754_nan (of_Z 1)) (List.length (a :: l)))
  = l ++ @cons float S754_nan nil.
Proof.
  simpl tl. simpl List.length. rewrite Nat.sub_1_r. simpl Nat.pred.
  now rewrite skipn_repeat.
Qed.

Lemma make_depth_to_two (a b : float) (l : list float) :
  exists f2 f1,
    neg_index (a :: b :: l) 2 = Some f2
    /\ neg_index (a :: b :: l) 1 = Some f1
    /\ make_depth_to (a :: b :: l)
       = Built ((b :: l) ++ [fadd f1 (fmul (fsub f1 f2) (of_dec 1028 3))]).
Proof.
  assert (Hf1 : exists f1, neg_index (a :: b :: l) 1 = Some f1
                           /\ neg_index (b :: l) 1 = Some f1).
  { rewrite neg_index_tl by (simpl; lia).
    destruct (neg_index (b :: l) 1) as [f1|] eqn:E; [eauto|].
    unfold neg_index in E. cbn [List.length] in E.
    destruct (Nat.leb_spec 1 (S (List.length l))); [|lia].
    apply nth_error_None in E. simpl in E. lia. }
  destruct Hf1 as (f1 & Hf1 & Hf1').
  assert (Hf2 : exists f2, neg_index (a :: b :: l) 2 = Some f2).
  { destruct (neg_index (a :: b :: l) 2) as [f2|] eqn:E; [eauto|].
    unfold neg_index in E. cbn [List.length] in E.
    destruct (Nat.leb_spec 2 (S (S (List.length l)))); [|lia].
    apply nth_error_None in E. simpl in E. lia. }
  destruct Hf2 as (f2 & Hf2).
  exists f2, f1. repeat split; auto.
  unfold make_depth_to. cbv zeta. rewrite !depth_to_shifted.
  rewrite (@neg_index_app float (b :: l) S754_nan 1) by lia.
  now rewrite Hf1', Hf1, Hf2, removelast_last.
Qed.

(** The end depths are as many as the start depths; there are none for a
    grid of fewer than two values. *)
Lemma make_depth_to_length (depth_from : list float) :
  match make_depth_to depth_from with
  | Built depth_to =>
      (2 <= List.length depth_from)%nat
      /\ List.length depth_to = List.length depth_from
  | Fails e => e = IndexError /\ (List.length depth_from < 2)%nat
  end.
Proof.
  destruct depth_from as [|a [|b l]];
    [split; [reflexivity|simpl; lia]..|].
  destruct (make_depth_to_two a b l) as (f2 & f1 & _ & _ & ->).
  rewrite length_app. simpl. lia.
Qed.

End DepthGrid.

(** X12. The end depths of the bins. A depth grid of fewer than two values
    makes the script raise [IndexError]. On a grid of [n >= 2] start depths
    it builds [n] end depths: every bin but the last ends where the next one
    starts, and the last bin ends at its start plus 1.028 times the thickness
    of the bin before it. *)
Theorem make_depth_to_contiguous (depth_from : list float) :
  if (List.length depth_from <? 2)%nat
  then make_depth_to depth_from = Fails IndexError
  else
    exists depth_to f2 f1,
      make_depth_to depth_from = Built depth_to
      /\ List.length depth_to = List.length depth_from
      /\ (forall i, (S i < List.length depth_from)%nat ->
                    nth_error depth_to i = nth_error depth_from (S i))
      /\ neg_index depth_from 2 = Some f2
      /\ neg_index depth_from 1 = Some f1
      /\ neg_index depth_to 1
         = Some (fadd f1 (fmul (fsub f1 f2) (of_dec 1028 3))).
Proof.
  destruct depth_from as [|a [|b l]]; try reflexivity.
  change (List.length (a :: b :: l) <? 2)%nat with false. cbv iota.
  destruct (make_depth_to_two a b l) as (f2 & f1 & Hf2 & Hf1 & Hmk).
  eexists _, f2, f1. split; [exact Hmk|]. repeat split; auto.
  - rewrite length_app. simpl. lia.
  - intros i Hi. simpl in Hi. rewrite nth_error_app1 by (simpl; lia).
    reflexivity.
  - apply neg_index_last.
Qed.

(** ** The site name of a results file *)

Section FilePaths.

Lemma starts_with_prefix (p t : string) : starts_with p (p ++ t) = true.
Proof.
  induction p as [|a p IH]; simpl; [reflexivity|].
  now rewrite Ascii.eqb_refl, IH.
Qed.

Lemma starts_with_drop (p s : string) :
  starts_with p s = true -> s = (p ++ drop (String.length p) s)%string.
Proof.
  revert s. induction p as [|a p IH]; intros s H; simpl in *; [reflexivity|].
  destruct s as [|b s]; [discriminate|].
  apply andb_true_iff in H as [Hab Hp].
  apply Ascii.eqb_eq in Hab as ->. now rewrite <- (IH s Hp).
Qed.

Lemma drop_prefix (p t : string) : drop (String.length p) (p ++ t) = t.
Proof. induction p as [|a p IH]; simpl; [now destruct t|exact IH]. Qed.

Lemma free_of_tail (sep : string) (c : ascii) (s : string) :
  free_of sep (String c s) -> free_of sep s.
Proof. intros H a b ->. now apply (H (String c a) b). Qed.

(** [cut] finds nothing exactly in the texts where [sep] does not occur. *)
Lemma cut_free (sep s : string) : free_of sep s -> cut sep s = None.
Proof.
  induction s as [|c s IH]; intros H; simpl; [reflexivity|].
  destruct (starts_with sep (String c s)) eqn:E.
  - exfalso. apply starts_with_drop in E.
    exact (H EmptyString (drop (String.length sep) (String c s)) E).
  - now rewrite IH by (now apply free_of_tail in H).
Qed.

Lemma cut_none_free (sep s : string) :
  sep <> EmptyString -> cut sep s = None -> free_of sep s.
Proof.
  intros Hsep. induction s as [|c s IH]; intros H a b E.
  - destruct a; [|discriminate]. destruct sep; [now apply Hsep|discriminate].
  - simpl in H.
    destruct (starts_with sep (String c s)) eqn:Es; [discriminate|].
    destruct (cut sep s) as [[x y]|] eqn:Ec; [discriminate|].
    destruct a as [|c' a].
    + simpl in E. rewrite E, starts_with_prefix in Es. discriminate.
    + injection E as _ E. now apply (IH eq_refl a b).
Qed.

(** The first occurrence of a one-character separator. *)
Lemma cut_char_app (c : ascii) (a b : string) :
  cut (String c EmptyString) a = None ->
  cut (String c EmptyString) (a ++ String c b) = Some (a, b).
Proof.
  induction a as [|d a IH]; simpl.
  - intros _. rewrite Ascii.eqb_refl. simpl. now destruct b.
  - destruct (Ascii.eqb c d); simpl; [discriminate|].
    destruct (cut (String c EmptyString) a) as [[x y]|] eqn:E; [discriminate|].
    intros _. now rewrite IH.
Qed.

Lemma cut_char_none_app (c : ascii) (a b : string) :
  cut (String c EmptyString) a = None ->
  cut (String c EmptyString) b = None ->
  cut (String c EmptyString) (a ++ b) = None.
Proof.
  intros Ha Hb. induction a as [|d a IH]; simpl in *; [exact Hb|].
  destruct (Ascii.eqb c d); simpl in *; [discriminate|].
  destruct (cut (String c EmptyString) a) as [[x y]|]; [discriminate|].
  now rewrite IH.
Qed.

Lemma string_length_app (a b : string) :
  String.length (a ++ b) = (String.length a + String.length b)%nat.
Proof. induction a as [|c a IH]; simpl; [reflexivity|now rewrite IH]. Qed.

Lemma split_fuel_not_nil (fuel : nat) (sep s : string) :
  split_fuel fuel sep s <> [].
Proof.
  destruct fuel; simpl; [discriminate|].
  destruct (cut sep s) as [[a b]|]; discriminate.
Qed.

Lemma last_cons_not_nil {A} (x d : A) (l : list A) :
  l <> [] -> last (x :: l) d = last l d.
Proof. destruct l; [contradiction|reflexivity]. Qed.

(** What comes after the last separator is the last piece. *)
Lemma last_split_char (c : ascii) (t : string) :
  cut (String c EmptyString) t = None ->
  forall fuel dir,
    (String.length (dir ++ String c t) <= fuel)%nat ->
    last (split_fuel fuel (String c EmptyString) (dir ++ String c t)) EmptyString
    = t.
Proof.
  intros Ht. induction fuel as [|fuel IH]; intros dir Hlen.
  - destruct dir; simpl in Hlen; lia.
  - cbn [split_fuel].
    destruct (cut (String c EmptyString) dir) as [[a b]|] eqn:Ed.
    + (* an earlier separator *)
      assert (Hcut : forall s x y, cut (String c EmptyString) s = Some (x, y) ->
                s = (x ++ String c y)%string
                /\ forall u, cut (String c EmptyString) (s ++ u)
                             = Some (x, (y ++ u)%string)).
      { clear. induction s as [|d s IHs]; intros x y; simpl; [discriminate|].
        destruct (Ascii.eqb_spec c d) as [->|Hne]; simpl.
        - intros [= <- <-]. split; [now destruct s|].
          intros u. now destruct (s ++ u)%string.
        - destruct (cut (String c EmptyString) s) as [[x' y']|]; [|discriminate].
          intros [= <- <-]. destruct (IHs x' y' eq_refl) as (-> & Hu).
          split; [reflexivity|]. intros u. now rewrite Hu. }
      destruct (Hcut dir a b Ed) as (Hdir & Hu).
      rewrite Hu. rewrite last_cons_not_nil by apply split_fuel_not_nil.
      apply IH. subst dir.
      rewrite ?string_length_app in Hlen; cbn [String.length] in Hlen.
      rewrite ?string_length_app in Hlen; cbn [String.length] in Hlen.
      rewrite string_length_app; cbn [String.length]. lia.
    + rewrite cut_char_app by exact Ed.
      rewrite last_cons_not_nil by apply split_fuel_not_nil.
      destruct fuel; simpl; [reflexivity|]. now rewrite Ht.
Qed.

(** "_FID" has no border: its first occurrence in [site ++ "_FID" ++ rest]
    is the one written there when [site] holds none. *)
Lemma cut_fid (site rest : string) :
  free_of "_FID" site ->
  cut "_FID" (site ++ "_FID" ++ rest) = Some (site, rest).
Proof.
  induction site as [|c site IH]; intros Hfree.
  - reflexivity.
  - change (String c site ++ "_FID" ++ rest)%string
      with (String c (site ++ "_FID" ++ rest)).
    cbn [cut].
    destruct (starts_with "_FID" (String c (site ++ "_FID" ++ rest))) eqn:E.
    + exfalso.
      destruct site as [|c2 [|c3 [|c4 s4]]]; cbn [starts_with append] in E;
        repeat match goal with
               | H : (_ && _)%bool = true |- _ =>
                   apply andb_true_iff in H as [? ?]
               end;
        repeat match goal with
               | H : Ascii.eqb _ _ = true |- _ => apply Ascii.eqb_eq in H
               end; try discriminate.
      subst.
      now apply (Hfree EmptyString s4).
    + apply free_of_tail in Hfree. apply IH in Hfree.
      now rewrite Hfree.
Qed.

End FilePaths.

(** X13. The site name taken from the path of a results file. With the file
    name [name] after the last backslash of the path: when [name] is
    [site ++ "_FID" ++ rest] and "_FID" does not occur in [site], the site
    name is [site], whatever the directory and the rest of the name; when
    "_FID" does not occur in [name], the site name is the whole file name,
    extension included. *)
Theorem site_name_of_results_file (dir name : string) :
  free_of "\" name ->
  (forall site rest : string,
      name = (site ++ "_FID" ++ rest)%string -> free_of "_FID" site ->
      site_name_of_file (dir ++ "\" ++ name) = site)
  /\ (free_of "_FID" name -> site_name_of_file (dir ++ "\" ++ name) = name).
Proof.
  intros Hname.
  assert (Hlast : last (py_split "\" (dir ++ "\" ++ name)) EmptyString = name).
  { unfold py_split. apply (last_split_char _ name (cut_free _ _ Hname)).
    apply Nat.le_refl. }
  unfold site_name_of_file. rewrite Hlast. split.
  - intros site rest -> Hsite. unfold py_split.
    rewrite !string_length_app. cbn [String.length Nat.add].
    rewrite Nat.add_succ_r. cbn [split_fuel].
    now rewrite (cut_fid site rest Hsite).
  - intros Hfree. unfold py_split.
    destruct (String.length name); cbn [split_fuel]; [reflexivity|].
    now rewrite (cut_free _ _ Hfree).
Qed.

(** X13, witness: a results file of the bore Bore_12. *)
Lemma site_name_of_results_file_witness :
  free_of "\" "Bore_12_FID0042_CI_results.csv"
  /\ site_name_of_file "\\prod.lan\results\Bore_12_FID0042_CI_results.csv"
     = "Bore_12".
Proof.
  assert (H : free_of "\" "Bore_12_FID0042_CI_results.csv").
  { apply cut_none_free; [discriminate|reflexivity]. }
  split; [exact H|].
  refine (proj1 (site_name_of_results_file "\\prod.lan\results"
                   "Bore_12_FID0042_CI_results.csv" H)
            "Bore_12" "0042_CI_results.csv" eq_refl _).
  apply cut_none_free; [discriminate|reflexivity].
Defined.

(** ** The rows of the CSV *)

Section Frames.

Lemma nth_error_combine {A B} (a : list A) (b : list B) (i : nat) :
  nth_error (combine a b) i
  = match nth_error a i, nth_error b i with
    | Some x, Some y => Some (x, y)
    | _, _ => None
    end.
Proof.
  revert b i. induction a as [|x a IH]; intros [|y b] [|i]; simpl; auto.
  - now destruct (nth_error a i).
Qed.

Lemma nth_error_flat_map_uniform {A B} (g : A -> list B) (n : nat)
    (l : list A) :
  Forall (fun x => List.length (g x) = n) l ->
  forall k x i,
    nth_error l k = Some x -> (i < n)%nat ->
    nth_error (flat_map g l) (k * n + i) = nth_error (g x) i.
Proof.
  induction 1 as [|y l Hy Hl IH]; intros k x i Hk Hi.
  - now destruct k.
  - destruct k as [|k]; simpl in Hk |- *.
    + injection Hk as ->. now rewrite nth_error_app1 by lia.
    + rewrite nth_error_app2 by lia.
      replace (n + k * n + i - List.length (g y))%nat with (k * n + i)%nat by lia.
      now apply IH.
Qed.

Lemma length_flat_map_uniform {A B} (g : A -> list B) (n : nat) (l : list A) :
  Forall (fun x => List.length (g x) = n) l ->
  List.length (flat_map g l) = (List.length l * n)%nat.
Proof.
  induction 1 as [|y l Hy Hl IH]; simpl; [reflexivity|].
  rewrite length_app, IH, Hy. reflexivity.
Qed.

Variables depth_from depth_to : list float.
Hypothesis Hlen : List.length depth_to = List.length depth_from.

Let frame_rows (f : string * list (float * float * float)) : list csv_row :=
  map (fun pft : (float * float * float) * (float * float) =>
         {| csv_site_name := site_name_of_file (fst f);
            csv_depth_from := fst (snd pft);
            csv_depth_to := snd (snd pft);
            p5 := fst (fst (fst pft));
            p50 := snd (fst (fst pft));
            p95 := snd (fst pft) |})
      (combine (snd f) (combine depth_from depth_to)).

Lemma site_frame_rows (f : string * list (float * float * float)) :
  site_frame (site_name_of_file (fst f)) (snd f) depth_from depth_to
  = if (List.length (snd f) =? List.length depth_from)%nat
    then Built (frame_rows f) else Fails LengthError.
Proof.
  unfold site_frame. rewrite Hlen, (Nat.eqb_sym (List.length depth_from)).
  now destruct (List.length (snd f) =? List.length depth_from)%nat.
Qed.

(** The loop over the files: the frames one after the other, or the first
    file whose number of rows is not that of the grid. *)
Lemma frames_loop_rows (files : list (string * list (float * float * float))) :
  forall df_smr,
    match frames_loop files depth_from depth_to df_smr with
    | Built data =>
        Forall (fun f => List.length (snd f) = List.length depth_from) files
        /\ data = df_smr ++ flat_map frame_rows files
    | Fails e =>
        e = LengthError
        /\ exists pre f post,
             files = pre ++ f :: post
             /\ List.length (snd f) <> List.length depth_from
             /\ Forall (fun g => List.length (snd g) = List.length depth_from) pre
    end.
Proof.
  induction files as [|[file percentiles] files IH]; intros df_smr.
  - simpl. split; [constructor|now rewrite app_nil_r].
  - cbn [frames_loop].
    pose proof (site_frame_rows (file, percentiles)) as Hsf.
    cbn [fst snd] in Hsf. rewrite Hsf. clear Hsf.
    destruct (Nat.eqb_spec (List.length percentiles) (List.length depth_from))
      as [E|E].
    + specialize (IH (df_smr ++ frame_rows (file, percentiles))).
      destruct (frames_loop files depth_from depth_to _) as [data|e].
      * destruct IH as (Hall & ->). split; [now constructor|].
        simpl. now rewrite app_assoc.
      * destruct IH as (-> & pre & f & post & -> & Hf & Hpre).
        split; [reflexivity|].
        exists ((file, percentiles) :: pre), f, post.
        repeat split; auto.
    + split; [reflexivity|].
      exists [], (file, percentiles), files. repeat split; auto.
Qed.

Lemma frame_rows_length (f : string * list (float * float * float)) :
  List.length (snd f) = List.length depth_from ->
  List.length (frame_rows f) = List.length depth_from.
Proof.
  intros E. unfold frame_rows.
  rewrite length_map, !length_combine, Hlen, E. lia.
Qed.

Lemma frame_rows_nth (f : string * list (float * float * float)) (i : nat) :
  List.length (snd f) = List.length depth_from ->
  (i < List.length depth_from)%nat ->
  exists p d t,
    nth_error (snd f) i = Some p
    /\ nth_error depth_from i = Some d
    /\ nth_error depth_to i = Some t
    /\ nth_error (frame_rows f) i
       = Some {| csv_site_name := site_name_of_file (fst f);
                 csv_depth_from := d;
                 csv_depth_to := t;
                 p5 := fst (fst p);
                 p50 := snd (fst p);
                 p95 := snd p |}.
Proof.
  intros E Hi.
  destruct (nth_error (snd f) i) as [p|] eqn:Ep;
    [|apply nth_error_None in Ep; lia].
  destruct (nth_error depth_from i) as [d|] eqn:Ed;
    [|apply nth_error_None in Ed; lia].
  destruct (nth_error depth_to i) as [t|] eqn:Et;
    [|apply nth_error_None in Et; lia].
  exists p, d, t. repeat split; auto.
  unfold frame_rows. rewrite nth_error_map, !nth_error_combine, Ep, Ed, Et.
  reflexivity.
Qed.

End Frames.

(** X14. The rows [create_SMR_intervals.py] writes, for results files of one
    row at least. When the script completes, each file has as many rows as
    the depth grid has values, [n]; the CSV has [n] rows per file, in the
    order of the files; row [k * n + i] is bin [i] of file [k]: the site
    name of the file, the start and end depth [i] of the grid and the three
    percentiles of row [i] of the file. It raises [IndexError] exactly on a
    grid of fewer than two values, and otherwise a length error at the first
    file whose number of rows is not [n]. *)
Theorem create_SMR_intervals_rows (depth_from : list float)
    (files : list (string * list (float * float * float))) :
  Forall (fun f => snd f <> []) files ->
  match create_SMR_intervals depth_from files with
  | Built data =>
      let n := List.length depth_from in
      exists depth_to,
        make_depth_to depth_from = Built depth_to
        /\ Forall (fun f => List.length (snd f) = n) files
        /\ List.length data = (List.length files * n)%nat
        /\ forall k file percentiles i,
             nth_error files k = Some (file, percentiles) -> (i < n)%nat ->
             exists p d t,
               nth_error percentiles i = Some p
               /\ nth_error depth_from i = Some d
               /\ nth_error depth_to i = Some t
               /\ nth_error data (k * n + i)
                  = Some {| csv_site_name := site_name_of_file file;
                            csv_depth_from := d;
                            csv_depth_to := t;
                            p5 := fst (fst p);
                            p50 := snd (fst p);
                            p95 := snd p |}
  | Fails IndexError => (List.length depth_from < 2)%nat
  | Fails LengthError =>
      (2 <= List.length depth_from)%nat
      /\ exists pre f post,
           files = pre ++ f :: post
           /\ List.length (snd f) <> List.length depth_from
           /\ Forall (fun g => List.length (snd g) = List.length depth_from) pre
  end.
Proof.
  intros _. unfold create_SMR_intervals.
  pose proof (make_depth_to_length depth_from) as Hmk.
  destruct (make_depth_to depth_from) as [depth_to|e].
  - destruct Hmk as (Hn & Hlen).
    pose proof (frames_loop_rows depth_from depth_to Hlen files []) as Hrun.
    destruct (frames_loop files depth_from depth_to []) as [data|e].
    + destruct Hrun as (Hall & ->). rewrite app_nil_l. cbv zeta.
      exists depth_to. split; [reflexivity|]. split; [exact Hall|].
      assert (Hu : Forall (fun f => List.length
                     (map (fun pft : (float * float * float) * (float * float) =>
                        {| csv_site_name := site_name_of_file (fst f);
                           csv_depth_from := fst (snd pft);
                           csv_depth_to := snd (snd pft);
                           p5 := fst (fst (fst pft));
                           p50 := snd (fst (fst pft));
                           p95 := snd (fst pft) |})
                       (combine (snd f) (combine depth_from depth_to)))
                     = List.length depth_from) files).
      { apply Forall_forall. intros f Hf. rewrite Forall_forall in Hall.
        now apply frame_rows_length, Hall. }
      split; [now apply length_flat_map_uniform|].
      intros k file percentiles i Hk Hi.
      rewrite (nth_error_flat_map_uniform _ _ _ Hu k _ i Hk Hi).
      apply (frame_rows_nth depth_from depth_to Hlen (file, percentiles) i); auto.
      rewrite Forall_forall in Hall.
      apply (Hall (file, percentiles)). eapply nth_error_In, Hk.
    + destruct Hrun as (-> & Hrun). split; [exact Hn|exact Hrun].
  - now destruct Hmk as (-> & Hn).
Qed.

(** X14, witness: two results files of three rows on a grid of three depths. *)
Lemma create_SMR_intervals_rows_witness :
  Forall (fun f => snd f <> []) ScriptExamples.results_files
  /\ exists data row,
       create_SMR_intervals ScriptExamples.depths ScriptExamples.results_files
       = Built data
       /\ List.length data = 6%nat
       /\ nth_error data 4 = Some row
       /\ csv_site_name row = "Dam"
       /\ csv_depth_from row = of_dec 5 1
       /\ csv_depth_to row = of_dec 15 1
       /\ p50 row = Examples.w12.
Proof.
  assert (H : Forall (fun f : string * list (float * float * float) =>
                        snd f <> []) ScriptExamples.results_files)
    by (repeat constructor; discriminate).
  split; [exact H|].
  pose proof (create_SMR_intervals_rows ScriptExamples.depths
                ScriptExamples.results_files H) as T.
  destruct (create_SMR_intervals ScriptExamples.depths
              ScriptExamples.results_files) as [data|e] eqn:E;
    [|vm_compute in E; discriminate].
  cbv zeta in T. destruct T as (depth_to & Hmk & _ & Hlen & Hrows).
  destruct (Hrows 1%nat _ _ 1%nat eq_refl (le_S 2 2 (le_n 2)))
    as (p & d & t & Hp & Hd & Ht & Hrow).
  vm_compute in Hmk. injection Hmk as <-.
  injection Hp as <-. injection Hd as <-. injection Ht as <-.
  eexists data, _. split; [reflexivity|]. split; [exact Hlen|].
  split; [exact Hrow|]. repeat split; vm_compute; reflexivity.
Defined.
